(** * UNS: the minting manager and the deployer

    A shallow embedding of [contracts/MintingManager.sol] (the on-chain
    router that decides which minting subsystem creates a second level
    domain) and of [src/deployer.js] (the task runner and the per-network
    configuration store), with the properties the specification states
    about them.

    Layout: the definitions come first ([Keccak], [MintingManager],
    [Deployer]), the theorems after them. *)

From Stdlib Require Import ZArith Ascii String List Sorted Lia.
From stdpp Require Import base option gmap strings list pretty.

Local Open Scope Z_scope.

(* ===================================================================== *)
(** * Keccak-256 *)
(* ===================================================================== *)

(** Solidity's [keccak256] builtin: Keccak with rate 1088 and capacity 512,
    the original padding (0x01 ... 0x80), 256 bits of output.  The state is
    the list of its 25 lanes, lane [(x, y)] at index [x + 5 * y], each lane
    a 64-bit integer as a [Z].  Bytes are [Z] in [0, 256). *)
Module Keccak.

Definition lane_mask : Z := Z.ones 64.

Definition rol64 (a n : Z) : Z :=
  Z.lor (Z.land (Z.shiftl a (n mod 64)) lane_mask) (Z.shiftr a (64 - n mod 64)).

Definition lane (st : list Z) (x y : Z) : Z :=
  nth (Z.to_nat (x mod 5 + 5 * (y mod 5))) st 0.

Fixpoint set_nth (i : nat) (v : Z) (l : list Z) : list Z :=
  match l, i with
  | [], _ => []
  | _ :: t, O => v :: t
  | h :: t, S j => h :: set_nth j v t
  end.

Definition set_lane (st : list Z) (x y v : Z) : list Z :=
  set_nth (Z.to_nat (x mod 5 + 5 * (y mod 5))) v st.

Definition coords : list (Z * Z) :=
  flat_map (fun y => map (fun x => (x, y)) [0; 1; 2; 3; 4]) [0; 1; 2; 3; 4].

Definition theta (st : list Z) : list Z :=
  let C x := fold_left Z.lxor (map (lane st x) [1; 2; 3; 4]) (lane st x 0) in
  let D x := Z.lxor (C (x + 4)) (rol64 (C (x + 1)) 1) in
  map (fun '(x, y) => Z.lxor (lane st x y) (D x)) coords.

Fixpoint rho_pi_loop (n : nat) (t x y current : Z) (st : list Z) : list Z :=
  match n with
  | O => st
  | S n' =>
      let x' := y in
      let y' := (2 * x + 3 * y) mod 5 in
      rho_pi_loop n' (t + 1) x' y' (lane st x' y')
        (set_lane st x' y' (rol64 current ((t + 1) * (t + 2) / 2)))
  end.

Definition rho_pi (st : list Z) : list Z :=
  rho_pi_loop 24 0 1 0 (lane st 1 0) st.

Definition chi (st : list Z) : list Z :=
  map (fun '(x, y) =>
         Z.lxor (lane st x y)
           (Z.land (Z.lxor (lane st (x + 1) y) lane_mask) (lane st (x + 2) y)))
      coords.

(** The round constants come from the degree-8 LFSR of the Keccak
    reference; [R] is its state, carried from one round to the next. *)
Fixpoint iota_loop (n : nat) (j R a : Z) : Z * Z :=
  match n with
  | O => (R, a)
  | S n' =>
      let R' := (Z.lxor (Z.shiftl R 1) (Z.shiftr R 7 * 113)) mod 256 in
      let a' := if Z.testbit R' 1 then Z.lxor a (Z.shiftl 1 (2 ^ j - 1)) else a in
      iota_loop n' (j + 1) R' a'
  end.

Definition round (R : Z) (st : list Z) : Z * list Z :=
  let st1 := chi (rho_pi (theta st)) in
  let '(R', a) := iota_loop 7 0 R (lane st1 0 0) in
  (R', set_lane st1 0 0 a).

Fixpoint rounds (n : nat) (R : Z) (st : list Z) : list Z :=
  match n with
  | O => st
  | S n' => let '(R', st') := round R st in rounds n' R' st'
  end.

Definition keccak_f1600 (st : list Z) : list Z := rounds 24 1 st.

Fixpoint le_to_Z (bs : list Z) : Z :=
  match bs with
  | [] => 0
  | b :: t => b + 256 * le_to_Z t
  end.

Fixpoint Z_to_le (n : nat) (v : Z) : list Z :=
  match n with
  | O => []
  | S n' => v mod 256 :: Z_to_le n' (v / 256)
  end.

Fixpoint be_to_Z (acc : Z) (bs : list Z) : Z :=
  match bs with
  | [] => acc
  | b :: t => be_to_Z (256 * acc + b) t
  end.

Fixpoint chunks (n k : nat) (bs : list Z) : list (list Z) :=
  match n with
  | O => []
  | S n' => firstn k bs :: chunks n' k (skipn k bs)
  end.

(** 1088 bits. *)
Definition rate : nat := 136.

Definition absorb_block (st block : list Z) : list Z :=
  let ls := map le_to_Z (chunks 17 8 block) ++ repeat 0 8 in
  keccak_f1600 (map (fun '(a, b) => Z.lxor a b) (combine st ls)).

Definition pad (bs : list Z) : list Z :=
  let q := (rate - (length bs mod rate))%nat in
  match q with
  | 1%nat => bs ++ [129]
  | _ => bs ++ [1] ++ repeat 0 (q - 2) ++ [128]
  end.

Fixpoint absorb (n : nat) (st bs : list Z) : list Z :=
  match n with
  | O => st
  | S n' => absorb n' (absorb_block st (firstn rate bs)) (skipn rate bs)
  end.

Definition keccak256_bytes (bs : list Z) : list Z :=
  let p := pad bs in
  let st := absorb (length p / rate) (repeat 0 25) p in
  flat_map (Z_to_le 8) (firstn 4 st).

(** The digest as a [bytes32], read as the big-endian number Solidity's
    [uint256(...)] conversion gives. *)
Definition keccak256 (bs : list Z) : Z := be_to_Z 0 (keccak256_bytes bs).

End Keccak.

Arguments Keccak.keccak256 : simpl never.

(* ===================================================================== *)
(** * contracts/MintingManager.sol *)
(* ===================================================================== *)

Module MintingManager.

(** ** Solidity values *)

(** [address], [uint256], [bytes4] and [bytes32] are integers of their
    width; [string] and [bytes] are byte strings, one [ascii] per byte. *)
Abbreviation address := Z (only parsing).
Abbreviation uint256 := Z (only parsing).
Abbreviation bytes4 := Z (only parsing).
Abbreviation bytes := string (only parsing).

Definition bytes_of_string (s : string) : list Z :=
  map (fun a => Z.of_N (N_of_ascii a)) (list_ascii_of_string s).

(** Big-endian bytes of the low [8 * n] bits of [v]. *)
Fixpoint be_bytes (n : nat) (v : Z) : list Z :=
  match n with
  | O => []
  | S n' => be_bytes n' (v / 256) ++ [v mod 256]
  end.

(** [abi.encodePacked] at the three types the contract uses it at. *)
Definition encodePacked_string (s : string) : list Z := bytes_of_string s.
Definition encodePacked_uint256_bytes32 (a : uint256) (h : Z) : list Z :=
  be_bytes 32 a ++ be_bytes 32 h.
Definition encodePacked_string_string (a b : string) : string := a +:+ b.

(** [bytes4(keccak256(signature))]: the four leading bytes. *)
Definition selector (signature : string) : bytes4 :=
  Z.shiftr (Keccak.keccak256 (encodePacked_string signature)) 224.

(** ** Failures and external calls *)

(** Why a call reverts.  [Reason msg] is a failed [require (_, msg)] of
    MintingManager.sol.  The three other constructors are the failures of
    the guards the contract inherits ([onlyMinter], [onlyOwner],
    [initializer]), whose reason strings are not in the sources. *)
Inductive failure : Type :=
| Reason (msg : string)
| CallerIsNotMinter
| CallerIsNotOwner
| AlreadyInitialized.

(** A call of a mutating function of [IRegistry] (on [UnsRegistry]), of
    [ICryptoSLDMinter] (on [CryptoMinter]) or of [ICryptoResolver] (on
    [CryptoResolver]), with its arguments. *)
Inductive method : Type :=
| IRegistry_mint (to : address) (tokenId : uint256) (uri : string)
| IRegistry_safeMint (to : address) (tokenId : uint256) (uri : string) (data : bytes)
| IRegistry_mintWithRecords
    (to : address) (tokenId : uint256) (uri : string) (keys values : list string)
| IRegistry_safeMintWithRecords
    (to : address) (tokenId : uint256) (uri : string) (keys values : list string)
    (data : bytes)
| ICryptoSLDMinter_mintSLD (to : address) (label : string)
| ICryptoSLDMinter_safeMintSLD (to : address) (label : string) (data : bytes)
| ICryptoSLDMinter_mintSLDWithResolver (to : address) (label : string) (resolver : address)
| ICryptoSLDMinter_safeMintSLDWithResolver
    (to : address) (label : string) (resolver : address) (data : bytes)
| ICryptoResolver_preconfigure (keys values : list string) (tokenId : uint256).

(** The one view function the contract calls on a collaborator. *)
Inductive query : Type :=
| IRegistry_exists (tokenId : uint256).

(** A transaction of the contract as the tree of its interactions: it
    returns, reverts, asks a collaborator at [target] a question and goes
    on with the answer, or calls a collaborator at [target] and goes on
    when the call returns.  What the collaborator does is not the
    contract's: a collaborator that reverts takes the whole transaction
    with it (see [run]). *)
Inductive prog (A : Type) : Type :=
| Ret (a : A)
| Revert (f : failure)
| Query (target : address) (q : query) (k : bool -> prog A)
| Invoke (target : address) (m : method) (k : prog A).

Arguments Ret {A} a.
Arguments Revert {A} f.
Arguments Query {A} target q k.
Arguments Invoke {A} target m k.

Fixpoint bind {A B : Type} (p : prog A) (f : A -> prog B) : prog B :=
  match p with
  | Ret a => f a
  | Revert r => Revert r
  | Query t q k => Query t q (fun b => bind (k b) f)
  | Invoke t m k => Invoke t m (bind k f)
  end.

Declare Scope prog_scope.
Delimit Scope prog_scope with prog.
Bind Scope prog_scope with prog.
Notation "x <- p ; q" := (bind p (fun x => q))
  (at level 20, p at level 100, q at level 200, only parsing) : prog_scope.
Notation "p ;; q" := (bind p (fun _ => q))
  (at level 100, q at level 200, right associativity, only parsing) : prog_scope.
Local Open Scope prog_scope.

Definition require (cond : bool) (msg : string) : prog unit :=
  if cond then Ret tt else Revert (Reason msg).

Definition call (target : address) (m : method) : prog unit :=
  Invoke target m (Ret tt).

Definition ask (target : address) (q : query) : prog bool :=
  Query target q Ret.

(** ** Storage *)

Record state : Type := mkState {
  (* Initializable *)
  _initialized : bool;
  (* OwnableUpgradeable *)
  _owner : address;
  (* MinterRole *)
  _minters : gset Z;
  (* MintingManager *)
  UnsRegistry : address;
  CryptoMinter : address;
  CryptoResolver : address;
  _tlds : gmap Z string;
}.

(** What a call sees of its transaction: [msg.sender] (the contract's
    [_msgSender ()] is [ContextUpgradeable]'s) and [address (this)]. *)
Record env : Type := mkEnv {
  msg_sender : address;
  this : address;
}.

(** The storage of a proxy before [initialize]: every slot is zero. *)
Definition deployed : state :=
  {| _initialized := false; _owner := 0; _minters := ∅;
     UnsRegistry := 0; CryptoMinter := 0; CryptoResolver := 0; _tlds := ∅ |}.

(** Reading [_tlds[tld]]: a mapping gives the empty string where nothing
    was stored. *)
Definition tlds_get (s : state) (tld : uint256) : string :=
  default EmptyString (_tlds s !! tld).

Definition set_tld (tld : uint256) (label : string) (s : state) : state :=
  {| _initialized := _initialized s; _owner := _owner s; _minters := _minters s;
     UnsRegistry := UnsRegistry s; CryptoMinter := CryptoMinter s;
     CryptoResolver := CryptoResolver s; _tlds := <[tld := label]> (_tlds s) |}.

Definition set_collaborators (unsRegistry cryptoMinter cryptoResolver : address)
    (s : state) : state :=
  {| _initialized := _initialized s; _owner := _owner s; _minters := _minters s;
     UnsRegistry := unsRegistry; CryptoMinter := cryptoMinter;
     CryptoResolver := cryptoResolver; _tlds := _tlds s |}.

Definition set_CryptoResolver (resolver : address) (s : state) : state :=
  set_collaborators (UnsRegistry s) (CryptoMinter s) resolver s.

(** ** Inherited guards *)

(** The guards come from roles/MinterRole.sol and from the OpenZeppelin
    bases, none of which is among the sources; each is modelled from what
    the specification says of it. *)

(** Modelled from the spec: [MinterRole.isMinter].  Section 9 has the
    role as "an explicit capability set with add/remove/check
    operations": the check. *)
Definition isMinter (s : state) (account : address) : bool :=
  bool_decide (account ∈ _minters s).

(** Modelled from the spec: [MinterRole._addMinter], the add of that
    capability set. *)
Definition _addMinter (account : address) (s : state) : state :=
  {| _initialized := _initialized s; _owner := _owner s;
     _minters := {[account]} ∪ _minters s;
     UnsRegistry := UnsRegistry s; CryptoMinter := CryptoMinter s;
     CryptoResolver := CryptoResolver s; _tlds := _tlds s |}.

(** Modelled from the spec: the modifier [MinterRole.onlyMinter].
    Section 4.4 has the minting entry points "requiring the caller to hold
    the minting role". *)
Definition onlyMinter (e : env) (s : state) : prog unit :=
  if isMinter s (msg_sender e) then Ret tt else Revert CallerIsNotMinter.

(** Modelled from the spec: the modifier [OwnableUpgradeable.onlyOwner].
    Section 6 has [setResolver (address)] for the owner. *)
Definition onlyOwner (e : env) (s : state) : prog unit :=
  if bool_decide (_owner s = msg_sender e) then Ret tt else Revert CallerIsNotOwner.

(** Modelled from the spec: the modifier [Initializable.initializer].
    Section 9 has the one-time initialisation "guarded against re-entry"
    by "an explicit [initialized] flag checked and set atomically". *)
Definition initializer (s : state) : prog state :=
  if _initialized s then Revert AlreadyInitialized
  else Ret {| _initialized := true; _owner := _owner s; _minters := _minters s;
              UnsRegistry := UnsRegistry s; CryptoMinter := CryptoMinter s;
              CryptoResolver := CryptoResolver s; _tlds := _tlds s |}.

(** Modelled from the spec: [OwnableUpgradeable.__Ownable_init_unchained],
    which makes the caller the owner of section 6. *)
Definition __Ownable_init_unchained (e : env) (s : state) : state :=
  {| _initialized := _initialized s; _owner := msg_sender e; _minters := _minters s;
     UnsRegistry := UnsRegistry s; CryptoMinter := CryptoMinter s;
     CryptoResolver := CryptoResolver s; _tlds := _tlds s |}.

(** Modelled from the spec: [MinterRole.__MinterRole_init_unchained].
    The specification gives the role set no member of its own at
    initialisation; the only grant is the one [initialize] makes. *)
Definition __MinterRole_init_unchained (s : state) : state := s.

(** ** Constants *)

Definition NAME : string := "UNS: Minting Manager".
Definition VERSION : string := "0.1.0".

Definition _SIG_MINT : bytes4 := 0xae2ad903.
Definition _SIG_SAFE_MINT : bytes4 := 0x4c1819e0.
Definition _SIG_SAFE_MINT_DATA : bytes4 := 0x58839d6b.
Definition _SIG_MINT_WITH_RECORDS : bytes4 := 0x39ccf4d0.
Definition _SIG_SAFE_MINT_WITH_RECORDS : bytes4 := 0x27bbd225.
Definition _SIG_SAFE_MINT_WITH_RECORDS_DATA : bytes4 := 0x6a2d2256.

(** The three hashes [initialize] and the minting functions spell out. *)
Definition TLD_CRYPTO : uint256 :=
  0x0f4a10a4f46c288cea365fcf45cccf0e9d901b945b9829ccdb54c10dc3cb7a6f.
Definition TLD_WALLET : uint256 :=
  0x1e3f482b3363eb4710dae2cb2183128e272eafbe137f686851c1caea32502230.
Definition TLD_COIN : uint256 :=
  0x7674e7282552c15f203b9c4a6025aeaf28176ef7f5451b280f9bada3f8bc98e2.

(** [address (0xdead)] *)
Definition BURN_ADDRESS : address := 0xdead.

(** ** Internal functions *)

Definition validTld (s : state) (tld : uint256) : prog unit :=
  require (0 <? Z.of_nat (String.length (tlds_get s tld)))
          "MintingManager: TLD_NOT_VALID".

(** The hash [_childId] returns, without its [require]. *)
Definition canonicalHash (tokenId : uint256) (label : string) : uint256 :=
  Keccak.keccak256
    (encodePacked_uint256_bytes32 tokenId
       (Keccak.keccak256 (encodePacked_string label))).

Definition _childId (tokenId : uint256) (label : string) : prog uint256 :=
  require (negb (Z.of_nat (String.length label) =? 0)) "MintingManager: LABEL_EMPTY" ;;
  Ret (canonicalHash tokenId label).

Definition _freeSLDLabel (label : string) : string :=
  encodePacked_string_string "udtestdev-" label.

Definition _uri (s : state) (tld : uint256) (label : string) : string :=
  encodePacked_string_string label (encodePacked_string_string "." (tlds_get s tld)).

Definition _mintSLD (s : state) (to : address) (tld : uint256) (label : string)
    : prog unit :=
  if tld =? TLD_CRYPTO then
    call (CryptoMinter s) (ICryptoSLDMinter_mintSLD to label)
  else
    tokenId <- _childId tld label ;
    call (UnsRegistry s) (IRegistry_mint to tokenId (_uri s tld label)).

Definition _safeMintSLD (s : state) (to : address) (tld : uint256) (label : string)
    (_data : bytes) : prog unit :=
  if tld =? TLD_CRYPTO then
    call (CryptoMinter s) (ICryptoSLDMinter_safeMintSLD to label _data)
  else
    tokenId <- _childId tld label ;
    call (UnsRegistry s) (IRegistry_safeMint to tokenId (_uri s tld label) _data).

Definition _mintSLDWithRecords (s : state) (to : address) (tld : uint256)
    (label : string) (keys values : list string) : prog unit :=
  tokenId <- _childId tld label ;
  if tld =? TLD_CRYPTO then
    call (CryptoMinter s)
         (ICryptoSLDMinter_mintSLDWithResolver to label (CryptoResolver s)) ;;
    if (0 <? Z.of_nat (length keys)) then
      call (CryptoResolver s) (ICryptoResolver_preconfigure keys values tokenId)
    else Ret tt
  else
    call (UnsRegistry s)
         (IRegistry_mintWithRecords to tokenId (_uri s tld label) keys values).

Definition _safeMintSLDWithRecords (s : state) (to : address) (tld : uint256)
    (label : string) (keys values : list string) (_data : bytes) : prog unit :=
  tokenId <- _childId tld label ;
  if tld =? TLD_CRYPTO then
    call (CryptoMinter s)
         (ICryptoSLDMinter_safeMintSLDWithResolver to label (CryptoResolver s) _data) ;;
    if (0 <? Z.of_nat (length keys)) then
      call (CryptoResolver s) (ICryptoResolver_preconfigure keys values tokenId)
    else Ret tt
  else
    call (UnsRegistry s)
         (IRegistry_safeMintWithRecords to tokenId (_uri s tld label) keys values _data).

(** ** External functions *)

Definition initialize (e : env) (s : state)
    (unsRegistry cryptoMinter cryptoResolver : address) : prog state :=
  s <- initializer s ;
  let s := set_collaborators unsRegistry cryptoMinter cryptoResolver s in
  let s := __Ownable_init_unchained e s in
  let s := __MinterRole_init_unchained s in
  (* Relayer is required to be a minter *)
  let s := _addMinter (this e) s in
  let s := set_tld TLD_CRYPTO "crypto" s in
  let s := set_tld TLD_WALLET "wallet" s in
  let s := set_tld TLD_COIN "coin" s in
  walletExists <- ask (UnsRegistry s) (IRegistry_exists TLD_WALLET) ;
  (if negb walletExists
   then call (UnsRegistry s) (IRegistry_mint BURN_ADDRESS TLD_WALLET "wallet")
   else Ret tt) ;;
  coinExists <- ask (UnsRegistry s) (IRegistry_exists TLD_COIN) ;
  (if negb coinExists
   then call (UnsRegistry s) (IRegistry_mint BURN_ADDRESS TLD_COIN "coin")
   else Ret tt) ;;
  Ret s.

Definition mintSLD (e : env) (s : state) (to : address) (tld : uint256)
    (label : string) : prog unit :=
  onlyMinter e s ;; validTld s tld ;; _mintSLD s to tld label.

Definition safeMintSLD (e : env) (s : state) (to : address) (tld : uint256)
    (label : string) : prog unit :=
  onlyMinter e s ;; validTld s tld ;; _safeMintSLD s to tld label "".

Definition safeMintSLD_data (e : env) (s : state) (to : address) (tld : uint256)
    (label : string) (_data : bytes) : prog unit :=
  onlyMinter e s ;; validTld s tld ;; _safeMintSLD s to tld label _data.

Definition mintSLDWithRecords (e : env) (s : state) (to : address) (tld : uint256)
    (label : string) (keys values : list string) : prog unit :=
  onlyMinter e s ;; validTld s tld ;; _mintSLDWithRecords s to tld label keys values.

Definition safeMintSLDWithRecords (e : env) (s : state) (to : address)
    (tld : uint256) (label : string) (keys values : list string) : prog unit :=
  onlyMinter e s ;; validTld s tld ;;
  _safeMintSLDWithRecords s to tld label keys values "".

Definition safeMintSLDWithRecords_data (e : env) (s : state) (to : address)
    (tld : uint256) (label : string) (keys values : list string) (_data : bytes)
    : prog unit :=
  onlyMinter e s ;; validTld s tld ;;
  _safeMintSLDWithRecords s to tld label keys values _data.

Definition claim (e : env) (s : state) (tld : uint256) (label : string) : prog unit :=
  validTld s tld ;; _mintSLD s (msg_sender e) tld (_freeSLDLabel label).

Definition claimTo (e : env) (s : state) (to : address) (tld : uint256)
    (label : string) : prog unit :=
  validTld s tld ;; _mintSLD s to tld (_freeSLDLabel label).

Definition claimToWithRecords (e : env) (s : state) (to : address) (tld : uint256)
    (label : string) (keys values : list string) : prog unit :=
  validTld s tld ;; _mintSLDWithRecords s to tld (_freeSLDLabel label) keys values.

Definition setResolver (e : env) (s : state) (resolver : address) : prog state :=
  onlyOwner e s ;; Ret (set_CryptoResolver resolver s).

(** ** Relay verification *)

Definition _verifyRelayCall (funcSig : bytes4) (data : bytes) : prog unit :=
  let isSupported :=
    (funcSig =? _SIG_MINT) ||
    (funcSig =? _SIG_SAFE_MINT) ||
    (funcSig =? _SIG_SAFE_MINT_DATA) ||
    (funcSig =? _SIG_MINT_WITH_RECORDS) ||
    (funcSig =? _SIG_SAFE_MINT_WITH_RECORDS) ||
    (funcSig =? _SIG_SAFE_MINT_WITH_RECORDS_DATA) in
  require isSupported "MintingManager: UNSUPPORTED_RELAY_CALL".

Section Relay.

(** [Relayer._verifyRelaySigner], the [super] call of the override:
    metatx/Relayer.sol is not among the sources, so whatever it checks
    is a parameter here. *)
Variable Relayer_verifyRelaySigner : address -> prog unit.

Definition _verifyRelaySigner (s : state) (signer : address) : prog unit :=
  Relayer_verifyRelaySigner signer ;;
  require (isMinter s signer) "MintingManager: SIGNER_IS_NOT_MINTER".

(** Modelled from the spec: [Relayer.relay] is not among the sources.
    Section 4.4 has the relay path (a) verify the recovered signer, then
    (b) verify the target selector, before the call is made. *)
Definition verifyRelay (s : state) (signer : address) (funcSig : bytes4)
    (data : bytes) : prog unit :=
  _verifyRelaySigner s signer ;; _verifyRelayCall funcSig data.

End Relay.

(** ** The mint family as one type *)

(** The nine external functions that mint, with their arguments. *)
Inductive entry : Type :=
| MintSLD (to : address) (tld : uint256) (label : string)
| SafeMintSLD (to : address) (tld : uint256) (label : string)
| SafeMintSLD_data (to : address) (tld : uint256) (label : string) (_data : bytes)
| MintSLDWithRecords (to : address) (tld : uint256) (label : string)
    (keys values : list string)
| SafeMintSLDWithRecords (to : address) (tld : uint256) (label : string)
    (keys values : list string)
| SafeMintSLDWithRecords_data (to : address) (tld : uint256) (label : string)
    (keys values : list string) (_data : bytes)
| Claim (tld : uint256) (label : string)
| ClaimTo (to : address) (tld : uint256) (label : string)
| ClaimToWithRecords (to : address) (tld : uint256) (label : string)
    (keys values : list string).

Definition exec (e : env) (s : state) (c : entry) : prog unit :=
  match c with
  | MintSLD to tld label => mintSLD e s to tld label
  | SafeMintSLD to tld label => safeMintSLD e s to tld label
  | SafeMintSLD_data to tld label d => safeMintSLD_data e s to tld label d
  | MintSLDWithRecords to tld label ks vs => mintSLDWithRecords e s to tld label ks vs
  | SafeMintSLDWithRecords to tld label ks vs =>
      safeMintSLDWithRecords e s to tld label ks vs
  | SafeMintSLDWithRecords_data to tld label ks vs d =>
      safeMintSLDWithRecords_data e s to tld label ks vs d
  | Claim tld label => claim e s tld label
  | ClaimTo to tld label => claimTo e s to tld label
  | ClaimToWithRecords to tld label ks vs => claimToWithRecords e s to tld label ks vs
  end.


Definition entry_tld (c : entry) : uint256 :=
  match c with
  | MintSLD _ tld _ | SafeMintSLD _ tld _ | SafeMintSLD_data _ tld _ _
  | MintSLDWithRecords _ tld _ _ _ | SafeMintSLDWithRecords _ tld _ _ _
  | SafeMintSLDWithRecords_data _ tld _ _ _ _
  | Claim tld _ | ClaimTo _ tld _ | ClaimToWithRecords _ tld _ _ _ => tld
  end.

(** The label the caller supplies. *)
Definition entry_label (c : entry) : string :=
  match c with
  | MintSLD _ _ l | SafeMintSLD _ _ l | SafeMintSLD_data _ _ l _
  | MintSLDWithRecords _ _ l _ _ | SafeMintSLDWithRecords _ _ l _ _
  | SafeMintSLDWithRecords_data _ _ l _ _ _
  | Claim _ l | ClaimTo _ _ l | ClaimToWithRecords _ _ l _ _ => l
  end.

(** The [claim*] functions need no role. *)
Definition is_claim (c : entry) : bool :=
  match c with
  | Claim _ _ | ClaimTo _ _ _ | ClaimToWithRecords _ _ _ _ _ => true
  | _ => false
  end.

(** The label the function hands to its private minting routine. *)
Definition minted_label (c : entry) : string :=
  if is_claim c then _freeSLDLabel (entry_label c) else entry_label c.

Definition with_records (c : entry) : bool :=
  match c with
  | MintSLDWithRecords _ _ _ _ _ | SafeMintSLDWithRecords _ _ _ _ _
  | SafeMintSLDWithRecords_data _ _ _ _ _ _ | ClaimToWithRecords _ _ _ _ _ => true
  | _ => false
  end.

Definition entry_keys (c : entry) : list string :=
  match c with
  | MintSLDWithRecords _ _ _ ks _ | SafeMintSLDWithRecords _ _ _ ks _
  | SafeMintSLDWithRecords_data _ _ _ ks _ _ | ClaimToWithRecords _ _ _ ks _ => ks
  | _ => []
  end.

Definition entry_values (c : entry) : list string :=
  match c with
  | MintSLDWithRecords _ _ _ _ vs | SafeMintSLDWithRecords _ _ _ _ vs
  | SafeMintSLDWithRecords_data _ _ _ _ vs _ | ClaimToWithRecords _ _ _ _ vs => vs
  | _ => []
  end.

Definition recipient (e : env) (c : entry) : address :=
  match c with
  | MintSLD to _ _ | SafeMintSLD to _ _ | SafeMintSLD_data to _ _ _
  | MintSLDWithRecords to _ _ _ _ | SafeMintSLDWithRecords to _ _ _ _
  | SafeMintSLDWithRecords_data to _ _ _ _ _
  | ClaimTo to _ _ | ClaimToWithRecords to _ _ _ _ => to
  | Claim _ _ => msg_sender e
  end.

(** Whom and under which label a call asks the legacy minter to mint. *)
Definition legacy_mint (m : method) : option (address * string) :=
  match m with
  | ICryptoSLDMinter_mintSLD to l | ICryptoSLDMinter_safeMintSLD to l _
  | ICryptoSLDMinter_mintSLDWithResolver to l _
  | ICryptoSLDMinter_safeMintSLDWithResolver to l _ _ => Some (to, l)
  | _ => None
  end.

(** Whom, under which id and with which URI a call asks the registry to
    mint. *)
Definition registry_mint (m : method) : option (address * uint256 * string) :=
  match m with
  | IRegistry_mint to id uri | IRegistry_safeMint to id uri _
  | IRegistry_mintWithRecords to id uri _ _
  | IRegistry_safeMintWithRecords to id uri _ _ _ => Some (to, id, uri)
  | _ => None
  end.

(** ** Names for the statements *)

(** The reasons of the contract's own [require]s. *)
Definition TLD_NOT_VALID : failure := Reason "MintingManager: TLD_NOT_VALID".
Definition LABEL_EMPTY : failure := Reason "MintingManager: LABEL_EMPTY".
Definition UNSUPPORTED_RELAY_CALL : failure :=
  Reason "MintingManager: UNSUPPORTED_RELAY_CALL".
Definition SIGNER_IS_NOT_MINTER : failure :=
  Reason "MintingManager: SIGNER_IS_NOT_MINTER".

(** What the legacy path does after the mint: the records go to the
    resolver in a second call, keyed by the id, when there are any. *)
Definition preconfigure (s : state) (keys values : list string) (tokenId : Z)
    : prog unit :=
  if (0 <? Z.of_nat (length keys)) then
    call (CryptoResolver s) (ICryptoResolver_preconfigure keys values tokenId)
  else Ret tt.

(** What an entry point runs once its modifiers passed. *)
Definition body (e : env) (s : state) (c : entry) : prog unit :=
  match c with
  | MintSLD to tld label => _mintSLD s to tld label
  | SafeMintSLD to tld label => _safeMintSLD s to tld label ""
  | SafeMintSLD_data to tld label d => _safeMintSLD s to tld label d
  | MintSLDWithRecords to tld label ks vs => _mintSLDWithRecords s to tld label ks vs
  | SafeMintSLDWithRecords to tld label ks vs =>
      _safeMintSLDWithRecords s to tld label ks vs ""
  | SafeMintSLDWithRecords_data to tld label ks vs d =>
      _safeMintSLDWithRecords s to tld label ks vs d
  | Claim tld label => _mintSLD s (msg_sender e) tld (_freeSLDLabel label)
  | ClaimTo to tld label => _mintSLD s to tld (_freeSLDLabel label)
  | ClaimToWithRecords to tld label ks vs =>
      _mintSLDWithRecords s to tld (_freeSLDLabel label) ks vs
  end.

(** The selectors [_verifyRelayCall] lets through. *)
Definition relay_allow_list : list Z :=
  [_SIG_MINT; _SIG_SAFE_MINT; _SIG_SAFE_MINT_DATA; _SIG_MINT_WITH_RECORDS;
   _SIG_SAFE_MINT_WITH_RECORDS; _SIG_SAFE_MINT_WITH_RECORDS_DATA].

(** ** A configuration to evaluate on *)

(** The first account of the hardhat network, the one minter
    hardhat.config.js lists for it. *)
Definition example_minter : address := 0xf39fd6e51aad88f6f4ce6ab8827279cfffb92266.

Definition example_env : env := {| msg_sender := example_minter; this := 0x1000 |}.

(** A caller without any role. *)
Definition example_stranger : env := {| msg_sender := 0xbeef; this := 0x1000 |}.

(** An initialised manager: the three TLDs, itself and [example_minter]
    as minters. *)
Definition example_state : state :=
  {| _initialized := true; _owner := example_minter;
     _minters := {[ 0x1000; example_minter ]};
     UnsRegistry := 0x2000; CryptoMinter := 0x3000; CryptoResolver := 0x4000;
     _tlds := {[ TLD_CRYPTO := "crypto"; TLD_WALLET := "wallet"; TLD_COIN := "coin" ]} |}.

(** ** Running a transaction against its collaborators *)

(** The collaborators as the contract meets them: an answer to each
    question and, for each call, the world after it, or [None] when the
    collaborator reverts. *)
Record handler (W : Type) : Type := mkHandler {
  answer : address -> query -> W -> bool;
  perform : address -> method -> W -> option W;
}.

Arguments answer {W} h target q w.
Arguments perform {W} h target m w.

(** How a transaction ends: it commits with a value, the collaborators'
    world and the calls it made, in order; or it is rolled back, by a
    failure of the contract's own or by a collaborator. *)
Inductive outcome (A W : Type) : Type :=
| Committed (a : A) (w : W) (calls : list (address * method))
| RolledBack (f : failure)
| CollaboratorReverted (target : address) (m : method).

Arguments Committed {A W} a w calls.
Arguments RolledBack {A W} f.
Arguments CollaboratorReverted {A W} target m.

Fixpoint run_from {A W : Type} (h : handler W) (p : prog A) (w : W)
    (done : list (address * method)) : outcome A W :=
  match p with
  | Ret a => Committed a w done
  | Revert f => RolledBack f
  | Query t q k => run_from h (k (answer h t q w)) w done
  | Invoke t m k =>
      match perform h t m w with
      | Some w' => run_from h k w' (done ++ [(t, m)])
      | None => CollaboratorReverted t m
      end
  end.

Definition run {A W : Type} (h : handler W) (p : prog A) (w : W) : outcome A W :=
  run_from h p w [].

(** Modelled from the spec: the registry behind [IRegistry] is not among
    the sources.  Section 4.4 has each name go "unminted -> minted
    (terminal; re-minting the same id fails)"; the registry is the map
    from the minted ids to their owners.  Only the contract at [registry]
    is modelled: a call to another address leaves the map as it is. *)
Definition registry_exists (w : gmap Z Z) (tokenId : uint256) : bool :=
  bool_decide (is_Some (w !! tokenId)).

(** Modelled from the spec: the registry's [exists] and its four mints,
    as answers and calls: a mint of an id that exists reverts, any other
    adds the id with its owner. *)
Definition registry_handler (registry : address) : handler (gmap Z Z) :=
  {| answer t q w :=
       match q with
       | IRegistry_exists id => bool_decide (t = registry) && registry_exists w id
       end;
     perform t m w :=
       if bool_decide (t = registry) then
         match registry_mint m with
         | Some (to, id, _) =>
             if registry_exists w id then None else Some (<[id := to]> w)
         | None => Some w
         end
       else Some w |}.

(** ** Names for the statements about [initialize] *)

(** The storage [initialize] writes, from the storage [s] it starts on. *)
Definition initialize_storage (e : env)
    (unsRegistry cryptoMinter cryptoResolver : address) (s : state) : state :=
  {| _initialized := true; _owner := msg_sender e;
     _minters := {[this e]} ∪ _minters s;
     UnsRegistry := unsRegistry; CryptoMinter := cryptoMinter;
     CryptoResolver := cryptoResolver;
     _tlds := <[TLD_COIN := "coin"]>
                (<[TLD_WALLET := "wallet"]> (<[TLD_CRYPTO := "crypto"]> (_tlds s))) |}.

(** One of the two guarded mints of [initialize] against collaborators
    [h]: nothing when the registry answers that [tld] exists, the mint to
    the burn address otherwise; [None] when the registry reverts. *)
Definition premint {W : Type} (h : handler W) (registry : address) (tld : uint256)
    (label : string) (w : W) : option (W * list (address * method)) :=
  if answer h registry (IRegistry_exists tld) w then Some (w, [])
  else
    match perform h registry (IRegistry_mint BURN_ADDRESS tld label) w with
    | Some w' => Some (w', [(registry, IRegistry_mint BURN_ADDRESS tld label)])
    | None => None
    end.

(** ** The transactions of the contract *)

(** [returns p a]: the transaction [p] commits with [a] for some answers
    of its collaborators. *)
Inductive returns {A : Type} : prog A -> A -> Prop :=
| returns_Ret (a : A) : returns (Ret a) a
| returns_Query (t : address) (q : query) (k : bool -> prog A) (b : bool) (a : A) :
    returns (k b) a -> returns (Query t q k) a
| returns_Invoke (t : address) (m : method) (k : prog A) (a : A) :
    returns k a -> returns (Invoke t m k) a.

(** The storage with another owner and other minters. *)
Definition set_roles (owner : address) (minters : gset Z) (s : state) : state :=
  {| _initialized := _initialized s; _owner := owner; _minters := minters;
     UnsRegistry := UnsRegistry s; CryptoMinter := CryptoMinter s;
     CryptoResolver := CryptoResolver s; _tlds := _tlds s |}.

(** What one committed transaction does to the storage.  The functions
    of MintingManager.sol are [initialize], [setResolver] and the mint
    family, which writes nothing.  Modelled from the spec: the functions
    the contract inherits (of OwnableUpgradeable, of MinterRole) are not
    among the sources.  Section 9 has the role gating as a capability set
    with add, remove and check operations, and section 3 has the owner:
    such a call leaves some owner and some role set, and the other slots
    as they were ([step_inherited]). *)
Inductive step : state -> state -> Prop :=
| step_initialize (e : env) (r m v : address) (s s' : state) :
    returns (initialize e s r m v) s' -> step s s'
| step_setResolver (e : env) (resolver : address) (s s' : state) :
    returns (setResolver e s resolver) s' -> step s s'
| step_mint (e : env) (c : entry) (s : state) :
    returns (exec e s c) tt -> step s s
| step_inherited (owner : address) (minters : gset Z) (s : state) :
    step s (set_roles owner minters s).

(** The signatures of the six external functions behind [onlyMinter],
    in the order of the six selector constants. *)
Definition minter_signatures : list string :=
  ["mintSLD(address,uint256,string)";
   "safeMintSLD(address,uint256,string)";
   "safeMintSLD(address,uint256,string,bytes)";
   "mintSLDWithRecords(address,uint256,string,string[],string[])";
   "safeMintSLDWithRecords(address,uint256,string,string[],string[])";
   "safeMintSLDWithRecords(address,uint256,string,string[],string[],bytes)"].

(** The signatures of the other external functions of the contract (an
    interface type is an [address] in a signature). *)
Definition other_signatures : list string :=
  ["initialize(address,address,address)";
   "claim(uint256,string)";
   "claimTo(address,uint256,string)";
   "claimToWithRecords(address,uint256,string,string[],string[])";
   "setResolver(address)"].

End MintingManager.

(* ===================================================================== *)
(** * src/deployer.js *)
(* ===================================================================== *)

Module Deployer.

(** ** JavaScript values *)

(** The values the deployer handles: what [JSON.parse] gives (null,
    booleans, numbers, strings, arrays, plain objects), [undefined], and
    [VInst] for an instance of a class (an ethers [BigNumber] in a
    receipt), carried with what its [toJSON ()] returns.  A plain object
    is the map of its own properties.  Numbers are the integers: block
    numbers and chain ids; fractions are outside the model. *)
#[warnings="-register-all"]
Inductive value : Type :=
| VUndefined
| VNull
| VBool (b : bool)
| VNum (n : Z)
| VStr (s : string)
| VArr (items : list value)
| VObj (fields : gmap string value)
| VInst (toJSON : value).

Definition truthy (v : value) : bool :=
  match v with
  | VUndefined | VNull | VBool false | VNum 0 | VStr EmptyString => false
  | _ => true
  end.

(** [typeof v === 'object' && v !== null]: lodash's [isObject], no
    functions among these values. *)
Definition isObject (v : value) : bool :=
  match v with
  | VArr _ | VObj _ | VInst _ => true
  | _ => false
  end.

(** [v.k] and [v[k]] for a name [k] that is not an array index, as the
    deployer reads properties: a [TypeError] ([None]) on [undefined] and
    [null], the own property of a plain object, [undefined] where there is
    none (the deployer reads no [length], and no property of an
    instance). *)
Definition get (v : value) (k : string) : option value :=
  match v with
  | VUndefined | VNull => None
  | VObj fields => Some (default VUndefined (fields !! k))
  | _ => Some VUndefined
  end.

(** [Object.entries]: the own enumerable string-keyed properties, which
    for an array are its elements and for a string its characters, each
    under its index; a number or a boolean has none (nor has an instance
    here: [Object.entries] is applied to parsed documents only). *)
Definition Object_entries (v : value) : list (string * value) :=
  match v with
  | VObj fields => map_to_list fields
  | VArr items => imap (fun i x => (pretty i, x)) items
  | VStr s => imap (fun i c => (pretty i, VStr (String c EmptyString)))
                   (list_ascii_of_string s)
  | _ => []
  end.

(** What [JSON.parse (JSON.stringify (v))] is: properties holding
    [undefined] are left out, [undefined] in an array becomes [null], an
    instance is replaced by its [toJSON ()]. *)
Fixpoint to_json (v : value) : value :=
  match v with
  | VObj fields =>
      VObj (omap (fun x => match to_json x with
                           | VUndefined => None
                           | y => Some y
                           end) fields)
  | VArr items =>
      VArr (map (fun x => match to_json x with
                          | VUndefined => VNull
                          | y => y
                          end) items)
  | VInst j => to_json j
  | _ => v
  end.

(** A value [JSON.parse] can return. *)
Fixpoint is_json (v : value) : bool :=
  match v with
  | VUndefined | VInst _ => false
  | VObj fields =>
      bool_decide (map_Forall (fun _ (b : bool) => b = true) (is_json <$> fields))
  | VArr items => forallb is_json items
  | _ => true
  end.

(** How deep the arrays, objects and instances of a value nest. *)
Fixpoint depth (v : value) : nat :=
  match v with
  | VObj fields => S (max_list ((map_to_list (depth <$> fields)).*2))
  | VArr items => S (max_list (map depth items))
  | VInst j => S (depth j)
  | _ => O
  end.

(** ** lodash.merge *)

(** [merge (object, source)] of lodash.merge 4.6, on these values and
    without customizer.  [mergeValue objValue srcValue] is what the
    property of the destination holds after [baseMerge] met [srcValue] in
    the source, [objValue] being what it held ([undefined] when it had
    none):
    - a plain object is merged into [objValue] when that is an object,
      into a fresh object otherwise ([baseMergeDeep]); a key ["__proto__"]
      of the source holding an object is passed over ([safeGet]);
    - an array is merged index by index into [objValue] when that is an
      array, into a fresh array otherwise;
    - an instance of a class replaces [objValue];
    - [undefined] leaves [objValue] ([assignMergeValue]);
    - any other value replaces [objValue].
    A plain object merged into an array or an instance sets named
    properties on it, which [JSON.stringify] does not write: the
    destination is left as it is (a source key that is an array index
    would change an element: outside the model, as is an array merged into
    an object with a numeric [length]). *)
Fixpoint mergeValue (objValue srcValue : value) {struct srcValue} : value :=
  match srcValue with
  | VObj sfields =>
      match objValue with
      | VObj ofields =>
          VObj (map_imap
                  (fun k sv =>
                     if bool_decide (k = "__proto__") && isObject sv then None
                     else Some (mergeValue (default VUndefined (ofields !! k)) sv))
                  sfields ∪ ofields)
      | VArr _ | VInst _ => objValue
      | _ =>
          VObj (map_imap
                  (fun k sv =>
                     if bool_decide (k = "__proto__") && isObject sv then None
                     else Some (mergeValue VUndefined sv))
                  sfields)
      end
  | VArr sitems =>
      VArr ((fix merge_items (oitems sitems : list value) : list value :=
               match sitems with
               | [] => oitems
               | sv :: sitems' =>
                   match oitems with
                   | [] => mergeValue VUndefined sv :: merge_items [] sitems'
                   | ov :: oitems' => mergeValue ov sv :: merge_items oitems' sitems'
                   end
               end)
              (match objValue with VArr oitems => oitems | _ => [] end) sitems)
  | VInst _ => srcValue
  | VUndefined => objValue
  | _ => srcValue
  end.

(** [merge (object, source)] for a source that is an object literal:
    [object = Object (object)] first, so [null] and [undefined] become a
    fresh object and a boolean, number or string is boxed; the properties
    set on the box are not in its JSON, which is the primitive. *)
Definition merge (object : value) (source : gmap string value) : value :=
  match object with
  | VBool _ | VNum _ | VStr _ => object
  | _ => mergeValue object (VObj source)
  end.

(** ** ethers *)

Definition hex_digit (d : Z) : ascii :=
  ascii_of_N (Z.to_N (if d <? 10 then 48 + d else 87 + d)).

(** [n.toString (16)] for [0 <= n], most significant digit first. *)
Fixpoint hex_digits (fuel : nat) (n : Z) (acc : string) : string :=
  match fuel with
  | O => acc
  | S fuel' =>
      if n <? 16 then String (hex_digit n) acc
      else hex_digits fuel' (n / 16) (String (hex_digit (n mod 16)) acc)
  end.

Definition toString16 (n : Z) : string :=
  hex_digits (S (Z.to_nat (Z.log2 n))) n EmptyString.

(** [toHex] of @ethersproject/bignumber on the digits of a number that is
    not negative: the [0x] prefix, and a leading [0] to an even length. *)
Definition toHex (n : Z) : string :=
  let digits := toString16 n in
  if Nat.even (String.length digits) then "0x" +:+ digits
  else "0x0" +:+ digits.

Definition MAX_SAFE : Z := 0x1fffffffffffff.

(** [ethers.BigNumber.from (n).toHexString ()] for a number [n]: a fault
    ([None]) from [MAX_SAFE] on, the sign in front of the hex of the
    magnitude otherwise. *)
Definition BigNumber_from_number (n : Z) : option string :=
  if (MAX_SAFE <=? n) || (n <=? - MAX_SAFE) then None
  else if n <? 0 then Some ("-" +:+ toHex (- n))
  else Some (toHex n).

(** [ethers.BigNumber.from (v).toHexString ()].  A number is converted as
    above; [undefined], [null] and a boolean are refused.  What a string,
    an array or an object is taken for (decimal digits, hex digits, bytes,
    a serialised BigNumber) is decided inside the library, which is not
    among the sources: [other] is what the library returns on these,
    whatever that is, [None] where it throws. *)
Definition BigNumber_from_toHexString (other : value -> option string) (v : value)
    : option string :=
  match v with
  | VNum n => BigNumber_from_number n
  | VUndefined | VNull | VBool _ => None
  | VStr _ | VArr _ | VObj _ | VInst _ => other v
  end.

(** ** The store *)

(** What a file holds: nothing, a text [JSON.parse] turns into [v], or a
    text it throws on. *)
Inductive file : Type :=
| FEmpty
| FJson (v : value)
| FMalformed.

Record options : Type := mkOptions {
  basePath : string;
  proxy : bool;
}.

Definition defaultOptions : options :=
  {| basePath := "./.deployer"; proxy := true |}.

(** [path.resolve (basePath, `${chainId}.json`)], as the path below
    [basePath]. *)
Definition configPath (o : options) (chainId : Z) : string :=
  basePath o +:+ "/" +:+ pretty chainId +:+ ".json".

(** The contract handle [saveContractConfig] is given: its [address], its
    [deployTransaction], and what [deployTransaction.wait ()] resolves to
    ([None] when it rejects). *)
Record contract : Type := mkContract {
  address : value;
  deployTransaction : value;
  wait : option value;
}.

Section Session.

Variable opts : options.
(** [this.network.chainId] *)
Variable chainId : Z.
(** [ethers.BigNumber.from (v).toHexString ()] on a string, an array or an
    object [v]. *)
Variable BigNumber_other : value -> option string.

Definition getDeployConfig (files : gmap string file) : option value :=
  match files !! configPath opts chainId with
  | None | Some FEmpty => Some (VObj ∅)
  | Some (FJson v) => Some v
  | Some FMalformed => None
  end.

Definition emptyConfig : gmap string value :=
  {[ "address" := VStr "0x0000000000000000000000000000000000000000";
     "legacyAddresses" := VArr [];
     "deploymentBlock" := VStr "0x0" ]}.

(** The body of the loop of [getNetworkConfig]: what [contracts[key]]
    is set to, [entry] being the [value] of the loop. *)
Definition networkEntry (entry : value) : option value :=
  address ← get entry "address";
  implementation ← get entry "implementation";
  transaction ← get entry "transaction";
  deploymentBlock ←
    (if truthy transaction then
       blockNumber ← get transaction "blockNumber";
       BigNumber_from_toHexString BigNumber_other blockNumber
     else Some "0x0");
  Some (VObj (<["deploymentBlock" := VStr deploymentBlock]>
             (<["implementation" := implementation]>
             (<["address" := address]> emptyConfig)))).

(** The loop of [getNetworkConfig] over the entries of the record.
    [contracts[key] = ...] gives [contracts] an own property [key], except
    when [key] is ["__proto__"]: [contracts] is an object literal, so that
    assignment goes to the setter it inherits, which makes the rendered
    entry the prototype of [contracts] and adds no own property.  (The
    prototype is no part of a [value]: the properties [contracts] then
    inherits are not among its own.) *)
Definition networkContracts (entries : list (string * value))
    : option (gmap string value) :=
  foldl (fun acc kv =>
           contracts ← acc;
           entry ← networkEntry kv.2;
           Some (if bool_decide (kv.1 = "__proto__") then contracts
                 else <[kv.1 := entry]> contracts))
        (Some ∅) entries.

Definition getNetworkConfig (files : gmap string file) : option value :=
  config ← getDeployConfig files;
  recorded ← get config "contracts";
  contracts ← networkContracts
                (Object_entries (if truthy recorded then recorded else VObj ∅));
  Some (VObj {[ "networks" :=
          VObj {[ pretty chainId := VObj {[ "contracts" := VObj contracts ]} ]} ]}).

(** The object literal [saveContractConfig] merges into the record. *)
Definition contractSource (name : string) (c : contract) (implAddress transaction : value)
    : gmap string value :=
  {[ "contracts" :=
       VObj {[ name :=
         VObj {[ "address" := address c;
                 "implementation" := implAddress;
                 "transaction" := transaction ]} ]} ]}.

Definition saveContractConfig (name : string) (c : contract) (implAddress : value)
    (files : gmap string file) : option (gmap string file) :=
  config ← getDeployConfig files;
  transaction ←
    (if truthy (deployTransaction c) then wait c else Some (deployTransaction c));
  let _config := merge config (contractSource name c implAddress transaction) in
  match to_json _config with
  | VUndefined => None
  | text => Some (<[configPath opts chainId := FJson text]> files)
  end.

End Session.

(** ** Names for the statements about the store *)

(** The own property [k] of a plain object, if it has it. *)
Definition field (v : value) (k : string) : option value :=
  match v with
  | VObj fields => fields !! k
  | _ => None
  end.

(** What a document holds at a path of property names, if anything. *)
Fixpoint at_path (v : value) (path : list string) : option value :=
  match path with
  | [] => Some v
  | k :: path' => field v k ≫= fun u => at_path u path'
  end.

(** A path leaves the object literal [source] when, followed through
    its nested objects, it comes to a name [source] does not have. *)
Fixpoint escapes (source : value) (path : list string) : bool :=
  match path with
  | [] => false
  | k :: path' =>
      match source with
      | VObj fields =>
          match fields !! k with
          | None => true
          | Some source' => escapes source' path'
          end
      | _ => false
      end
  end.

(** The entries of a record: the properties of its [contracts], none
    when it has no such object. *)
Definition recorded (config : value) : gmap string value :=
  match field config "contracts" with
  | Some (VObj entries) => entries
  | _ => ∅
  end.

(** An entry [getNetworkConfig] can render: not [null], and when it has
    a [transaction] that is truthy, [BigNumber.from] takes what the
    transaction holds as [blockNumber]. *)
Definition wf_entry (other : value -> option string) (entry : value) : bool :=
  match entry with
  | VUndefined | VNull => false
  | _ =>
      match field entry "transaction" with
      | Some transaction =>
          negb (truthy transaction) ||
          match BigNumber_from_toHexString other
                  (default VUndefined (field transaction "blockNumber")) with
          | Some _ => true
          | None => false
          end
      | None => true
      end
  end.

(** A record of the persisted shape: an object whose [contracts], when
    there is one, is an object of entries that can be rendered. *)
Definition wf_record (other : value -> option string) (config : value) : bool :=
  match config with
  | VObj fields =>
      match fields !! "contracts" with
      | None => true
      | Some (VObj entries) =>
          bool_decide (map_Forall (fun _ entry => wf_entry other entry = true) entries)
      | Some _ => false
      end
  | _ => false
  end.

(** The block an entry was deployed in, as the rendering shows it: what
    [BigNumber.from (blockNumber).toHexString ()] is for the [blockNumber]
    of its transaction, ["0x0"] without a transaction. *)
Definition deploymentBlock (other : value -> option string) (entry : value) : string :=
  match field entry "transaction" with
  | Some transaction =>
      if truthy transaction
      then default "0x0" (BigNumber_from_toHexString other
                            (default VUndefined (field transaction "blockNumber")))
      else "0x0"
  | None => "0x0"
  end.

(** The rendering of an entry in the words of the specification, with
    the list of legacy addresses always empty. *)
Definition rendered (other : value -> option string) (entry : value) : value :=
  VObj {[ "address" := default VUndefined (field entry "address");
          "implementation" := default VUndefined (field entry "implementation");
          "legacyAddresses" := VArr [];
          "deploymentBlock" := VStr (deploymentBlock other entry) ]}.

(** The rendering of an entry as the specification words it, were the
    legacy addresses taken from the record. *)
Definition rendered_with_legacy (other : value -> option string) (entry : value) : value :=
  VObj {[ "address" := default VUndefined (field entry "address");
          "implementation" := default VUndefined (field entry "implementation");
          "legacyAddresses" := default (VArr []) (field entry "legacyAddresses");
          "deploymentBlock" := VStr (deploymentBlock other entry) ]}.

(** The external view: the contracts under the one network key. *)
Definition network_view (chainId : Z) (contracts : gmap string value) : value :=
  VObj {[ "networks" :=
    VObj {[ pretty chainId := VObj {[ "contracts" := VObj contracts ]} ]} ]}.

(** ** A store to evaluate on *)

(** Two recorded contracts on chain 4 (rinkeby): one with a receipt and
    a legacy address, one with an address only. *)
Definition example_record : value :=
  VObj {[ "contracts" := VObj {[
    "UNSRegistry" := VObj {[
       "address" := VStr "0x7fb83000B8eD59D3eAD22f0D584Df3a85fBC0086";
       "legacyAddresses" := VArr [VStr "0x00000000000000000000000000000000000000aa"];
       "transaction" := VObj {[ "blockNumber" := VNum 8775208 ]} ]};
    "MintingManager" := VObj {[
       "address" := VStr "0xdAAf99A24d2C1AbDBc3b2d1e4Af3A0a0e4f9dC51" ]} ]} ]}.

Definition example_files : gmap string file :=
  {[ configPath defaultOptions 4 := FJson example_record ]}.

(** A freshly deployed contract with its receipt. *)
Definition example_contract : contract :=
  {| address := VStr "0x1111111111111111111111111111111111111111";
     deployTransaction := VObj {[ "hash" := VStr "0xabcd" ]};
     wait := Some (VObj {[
       "blockNumber" := VNum 8790000;
       "gasUsed" := VInst (VObj {[ "type" := VStr "BigNumber"; "hex" := VStr "0x5208" ]}) ]}) |}.

(** ** The task runner *)

Section Runner.

(** What the tasks work on besides the files (the ledger, the signer),
    the bundle [ensureDependencies] hands to [run], and the [config]
    argument of [execute]: the tasks of ./tasks are not among the
    sources, so these stay abstract. *)
Context {Chain Deps Config : Type}.

(** [String.prototype.toLowerCase], a built-in of the language: its
    mapping of the characters is that of the Unicode standard, and is left
    open here. *)
Variable toLowerCase : string -> string.

Record world : Type := mkWorld {
  files : gmap string file;
  chain : Chain;
}.

(** A task of ./tasks: its tags and its two functions, which return or
    throw ([None]). *)
Record task : Type := mkTask {
  tags : list string;
  ensureDependencies : world -> Config -> option Deps;
  run : world -> Deps -> option world;
}.

(** The calls [execute] makes, each with the position of its task in
    [this.tasks]. *)
Inductive event : Type :=
| EnsureDependencies (i : nat)
| Run (i : nat).

(** [tags.some (t => task.tags.includes (t.toLowerCase ()))] *)
Definition selected (requested : list string) (t : task) : bool :=
  existsb (fun x => bool_decide (toLowerCase x ∈ tags t)) requested.

(** The [for] loop of [execute] from the [i]-th task on: the calls made
    and the world they leave, [None] when one of them threw. *)
Fixpoint executeTasks (i : nat) (ts : list task) (requested : list string)
    (config : Config) (w : world) : list event * option world :=
  match ts with
  | [] => ([], Some w)
  | t :: ts' =>
      if negb (selected requested t) then executeTasks (S i) ts' requested config w
      else
        match ensureDependencies t w config with
        | None => ([EnsureDependencies i], None)
        | Some dependencies =>
            match run t w dependencies with
            | None => ([EnsureDependencies i; Run i], None)
            | Some w' =>
                let '(evs, r) := executeTasks (S i) ts' requested config w' in
                (EnsureDependencies i :: Run i :: evs, r)
            end
        end
  end.

Variable opts : options.
Variable chainId : Z.
Variable BigNumber_other : value -> option string.
(** The four tasks ./tasks exports. *)
Variables deployCNSTask deployUNSTask configureCNSTask upgradeUNSTask : task.

(** [this.tasks], as the constructor sets it. *)
Definition tasks : list task :=
  [deployCNSTask; deployUNSTask; configureCNSTask; upgradeUNSTask].

(** [execute (tags, config)]; [requested] is [None] when [tags] is left
    out.  The result is the calls made and, unless something threw, the
    world they leave with the rendering [getNetworkConfig ()] returns. *)
Definition execute (requested : option (list string)) (config : Config) (w : world)
    : list event * option (world * value) :=
  let requested := default [] requested in
  let '(evs, r) := executeTasks 0 tasks requested config w in
  (evs,
   w' ← r;
   _config ← getNetworkConfig opts chainId BigNumber_other (files w');
   Some (w', _config)).

(** *** The runner in the words of the specification *)

(** The tasks of [ts] that [requested] selects, each with its position
    (counted from [i]), in the order of [ts]. *)
Definition selected_tasks (i : nat) (ts : list task) (requested : list string)
    : list (nat * task) :=
  filter (fun it => selected requested it.2 = true) (zip (seq i (length ts)) ts).

(** Their positions. *)
Definition selection (i : nat) (ts : list task) (requested : list string) : list nat :=
  (selected_tasks i ts requested).*1.

(** The calls for the tasks at [positions]: for each in turn
    [ensureDependencies], then [run]. *)
Definition calls (positions : list nat) : list event :=
  positions ≫= fun i => [EnsureDependencies i; Run i].

(** One task on a world: its dependencies are located in that world,
    then it is run on the same world with what was located; either may
    throw. *)
Definition run_task (config : Config) (w : world) (t : task) : option world :=
  dependencies ← ensureDependencies t w config;
  run t w dependencies.

(** Tasks one after the other, each on the world the one before left;
    the first that throws ends it. *)
Definition run_in_turn (config : Config) (ts : list task) (w : world) : option world :=
  foldl (fun r t => w' ← r; run_task config w' t) (Some w) ts.

End Runner.

Arguments world : clear implicits.
Arguments task : clear implicits.

(** ** Tasks to evaluate on *)

(** [String.prototype.toLowerCase] on a string of ASCII characters: the
    letters A to Z lowered, every other character kept.  It stands for the
    built-in in the examples below, whose tags are ASCII. *)
Definition lower (c : ascii) : ascii :=
  let n := nat_of_ascii c in
  if (65 <=? n)%nat && (n <=? 90)%nat then ascii_of_nat (n + 32) else c.

Fixpoint toLowerCase_ascii (s : string) : string :=
  match s with
  | EmptyString => EmptyString
  | String c s' => String (lower c) (toLowerCase_ascii s')
  end.

(** Four tasks over a ledger that counts the deployments: each [run] adds
    one, the third task throws in [ensureDependencies] before anything was
    deployed. *)
Definition example_task (tags : list string) : task nat unit unit :=
  {| tags := tags;
     ensureDependencies := fun _ _ => Some tt;
     run := fun w _ => Some {| files := files w; chain := S (chain w) |} |}.

Definition example_configure : task nat unit unit :=
  {| tags := ["config"; "full"];
     ensureDependencies := fun w _ => if chain w is O then None else Some tt;
     run := fun w _ => Some w |}.

Definition example_world : world nat := {| files := ∅; chain := O |}.

(** A record with a contract whose transaction was recorded before it
    was mined: it has no block number. *)
Definition example_pending_entries : gmap string value :=
  {[ "Resolver" := VObj {[
       "address" := VStr "0x0000000000000000000000000000000000000001";
       "transaction" := VObj {[ "hash" := VStr "0x02" ]} ]} ]}.

Definition example_pending : value :=
  VObj {[ "contracts" := VObj example_pending_entries ]}.

Definition example_pending_files : gmap string file :=
  {[ configPath defaultOptions 4 := FJson example_pending ]}.

End Deployer.

(* ===================================================================== *)
(** * Properties of the minting manager *)
(* ===================================================================== *)

Section MintingManagerFacts.

Import MintingManager.
Local Open Scope prog_scope.

Arguments canonicalHash : simpl never.
Arguments _uri : simpl never.
Arguments tlds_get : simpl never.

(** ** The constants against their documentation *)

(** The three TLD hashes are the hashes of their labels under the root, as
    the comment on [_tlds] has it. *)
Lemma tld_hashes :
  TLD_CRYPTO = canonicalHash 0 "crypto" /\
  TLD_WALLET = canonicalHash 0 "wallet" /\
  TLD_COIN = canonicalHash 0 "coin".
Proof. repeat split; vm_compute; reflexivity. Qed.

(** The six selectors are the ones of the signatures their comments give. *)
Lemma relay_selectors :
  _SIG_MINT = selector "mintSLD(address,uint256,string)" /\
  _SIG_SAFE_MINT = selector "safeMintSLD(address,uint256,string)" /\
  _SIG_SAFE_MINT_DATA = selector "safeMintSLD(address,uint256,string,bytes)" /\
  _SIG_MINT_WITH_RECORDS =
    selector "mintSLDWithRecords(address,uint256,string,string[],string[])" /\
  _SIG_SAFE_MINT_WITH_RECORDS =
    selector "safeMintSLDWithRecords(address,uint256,string,string[],string[])" /\
  _SIG_SAFE_MINT_WITH_RECORDS_DATA =
    selector "safeMintSLDWithRecords(address,uint256,string,string[],string[],bytes)".
Proof. repeat split; vm_compute; reflexivity. Qed.

(** ** Guards *)


Lemma string_length_0 (s : string) : String.length s = 0%nat <-> s = "".
Proof. destruct s; simpl; split; intros H; congruence. Qed.

Lemma validTld_registered (s : state) (tld : Z) :
  tlds_get s tld <> "" -> validTld s tld = Ret tt.
Proof.
  intros H. unfold validTld.
  destruct (tlds_get s tld) as [|c l]; [congruence|]. reflexivity.
Qed.

Lemma validTld_unregistered (s : state) (tld : Z) :
  tlds_get s tld = "" -> validTld s tld = Revert TLD_NOT_VALID.
Proof. intros H. unfold validTld. rewrite H. reflexivity. Qed.

Lemma onlyMinter_minter (e : env) (s : state) :
  isMinter s (msg_sender e) = true -> onlyMinter e s = Ret tt.
Proof. intros H. unfold onlyMinter. rewrite H. reflexivity. Qed.

Lemma onlyMinter_other (e : env) (s : state) :
  isMinter s (msg_sender e) = false -> onlyMinter e s = Revert CallerIsNotMinter.
Proof. intros H. unfold onlyMinter. rewrite H. reflexivity. Qed.

Lemma _childId_label (tokenId : Z) (label : string) :
  label <> "" -> _childId tokenId label = Ret (canonicalHash tokenId label).
Proof.
  intros H. unfold _childId. destruct label as [|c l]; [congruence|]. reflexivity.
Qed.

Lemma _childId_empty (tokenId : Z) : _childId tokenId "" = Revert LABEL_EMPTY.
Proof. reflexivity. Qed.

Lemma _freeSLDLabel_length (label : string) :
  String.length (_freeSLDLabel label) = (10 + String.length label)%nat.
Proof. reflexivity. Qed.

Lemma _freeSLDLabel_not_empty (label : string) : _freeSLDLabel label <> "".
Proof. discriminate. Qed.

Lemma _freeSLDLabel_not_raw (label : string) : _freeSLDLabel label <> label.
Proof.
  intros H. apply (f_equal String.length) in H.
  rewrite _freeSLDLabel_length in H. lia.
Qed.

(** ** The four private minting routines *)

Lemma _mintSLD_legacy (s : state) (to : Z) (label : string) :
  _mintSLD s to TLD_CRYPTO label =
  call (CryptoMinter s) (ICryptoSLDMinter_mintSLD to label).
Proof. reflexivity. Qed.

Lemma _mintSLD_registry (s : state) (to tld : Z) (label : string) :
  tld <> TLD_CRYPTO -> label <> "" ->
  _mintSLD s to tld label =
  call (UnsRegistry s) (IRegistry_mint to (canonicalHash tld label) (_uri s tld label)).
Proof.
  intros Ht Hl. unfold _mintSLD.
  destruct (Z.eqb_spec tld TLD_CRYPTO) as [|_]; [congruence|].
  rewrite _childId_label by done. reflexivity.
Qed.

Lemma _safeMintSLD_legacy (s : state) (to : Z) (label _data : string) :
  _safeMintSLD s to TLD_CRYPTO label _data =
  call (CryptoMinter s) (ICryptoSLDMinter_safeMintSLD to label _data).
Proof. reflexivity. Qed.

Lemma _safeMintSLD_registry (s : state) (to tld : Z) (label _data : string) :
  tld <> TLD_CRYPTO -> label <> "" ->
  _safeMintSLD s to tld label _data =
  call (UnsRegistry s)
       (IRegistry_safeMint to (canonicalHash tld label) (_uri s tld label) _data).
Proof.
  intros Ht Hl. unfold _safeMintSLD.
  destruct (Z.eqb_spec tld TLD_CRYPTO) as [|_]; [congruence|].
  rewrite _childId_label by done. reflexivity.
Qed.


Lemma _mintSLDWithRecords_legacy (s : state) (to : Z) (label : string)
    (keys values : list string) :
  label <> "" ->
  _mintSLDWithRecords s to TLD_CRYPTO label keys values =
  Invoke (CryptoMinter s)
         (ICryptoSLDMinter_mintSLDWithResolver to label (CryptoResolver s))
         (preconfigure s keys values (canonicalHash TLD_CRYPTO label)).
Proof.
  intros Hl. unfold _mintSLDWithRecords, preconfigure.
  rewrite _childId_label by done.
  destruct (0 <? Z.of_nat (length keys)); reflexivity.
Qed.

Lemma _mintSLDWithRecords_registry (s : state) (to tld : Z) (label : string)
    (keys values : list string) :
  tld <> TLD_CRYPTO -> label <> "" ->
  _mintSLDWithRecords s to tld label keys values =
  call (UnsRegistry s)
       (IRegistry_mintWithRecords to (canonicalHash tld label) (_uri s tld label)
          keys values).
Proof.
  intros Ht Hl. unfold _mintSLDWithRecords.
  rewrite _childId_label by done. cbn [bind].
  destruct (Z.eqb_spec tld TLD_CRYPTO) as [|_]; [congruence|]. reflexivity.
Qed.

Lemma _mintSLDWithRecords_empty (s : state) (to tld : Z) (keys values : list string) :
  _mintSLDWithRecords s to tld "" keys values = Revert LABEL_EMPTY.
Proof. reflexivity. Qed.

Lemma _safeMintSLDWithRecords_legacy (s : state) (to : Z) (label : string)
    (keys values : list string) (_data : string) :
  label <> "" ->
  _safeMintSLDWithRecords s to TLD_CRYPTO label keys values _data =
  Invoke (CryptoMinter s)
         (ICryptoSLDMinter_safeMintSLDWithResolver to label (CryptoResolver s) _data)
         (preconfigure s keys values (canonicalHash TLD_CRYPTO label)).
Proof.
  intros Hl. unfold _safeMintSLDWithRecords, preconfigure.
  rewrite _childId_label by done.
  destruct (0 <? Z.of_nat (length keys)); reflexivity.
Qed.

Lemma _safeMintSLDWithRecords_registry (s : state) (to tld : Z) (label : string)
    (keys values : list string) (_data : string) :
  tld <> TLD_CRYPTO -> label <> "" ->
  _safeMintSLDWithRecords s to tld label keys values _data =
  call (UnsRegistry s)
       (IRegistry_safeMintWithRecords to (canonicalHash tld label) (_uri s tld label)
          keys values _data).
Proof.
  intros Ht Hl. unfold _safeMintSLDWithRecords.
  rewrite _childId_label by done. cbn [bind].
  destruct (Z.eqb_spec tld TLD_CRYPTO) as [|_]; [congruence|]. reflexivity.
Qed.

Lemma _safeMintSLDWithRecords_empty (s : state) (to tld : Z)
    (keys values : list string) (_data : string) :
  _safeMintSLDWithRecords s to tld "" keys values _data = Revert LABEL_EMPTY.
Proof. reflexivity. Qed.

Lemma _mintSLD_registry_empty (s : state) (to tld : Z) :
  tld <> TLD_CRYPTO -> _mintSLD s to tld "" = Revert LABEL_EMPTY.
Proof.
  intros Ht. unfold _mintSLD.
  destruct (Z.eqb_spec tld TLD_CRYPTO) as [|_]; [congruence|]. reflexivity.
Qed.

Lemma _safeMintSLD_registry_empty (s : state) (to tld : Z) (_data : string) :
  tld <> TLD_CRYPTO -> _safeMintSLD s to tld "" _data = Revert LABEL_EMPTY.
Proof.
  intros Ht. unfold _safeMintSLD.
  destruct (Z.eqb_spec tld TLD_CRYPTO) as [|_]; [congruence|]. reflexivity.
Qed.

(** ** Entry points past their guards *)


Lemma exec_guards_passed (e : env) (s : state) (c : entry) :
  (is_claim c = false -> isMinter s (msg_sender e) = true) ->
  tlds_get s (entry_tld c) <> "" ->
  exec e s c = body e s c.
Proof.
  intros Hm Ht.
  destruct c; cbn [exec body entry_tld is_claim] in *;
    unfold mintSLD, safeMintSLD, safeMintSLD_data, mintSLDWithRecords,
      safeMintSLDWithRecords, safeMintSLDWithRecords_data, claim, claimTo,
      claimToWithRecords;
    rewrite ?onlyMinter_minter by auto;
    rewrite validTld_registered by assumption; reflexivity.
Qed.

Lemma exec_not_minter (e : env) (s : state) (c : entry) :
  is_claim c = false -> isMinter s (msg_sender e) = false ->
  exec e s c = Revert CallerIsNotMinter.
Proof.
  intros Hc Hm.
  destruct c; cbn [is_claim] in Hc; try discriminate; cbn [exec];
    unfold mintSLD, safeMintSLD, safeMintSLD_data, mintSLDWithRecords,
      safeMintSLDWithRecords, safeMintSLDWithRecords_data;
    rewrite onlyMinter_other by assumption; reflexivity.
Qed.

Lemma exec_tld_not_valid (e : env) (s : state) (c : entry) :
  (is_claim c = false -> isMinter s (msg_sender e) = true) ->
  tlds_get s (entry_tld c) = "" ->
  exec e s c = Revert TLD_NOT_VALID.
Proof.
  intros Hm Ht.
  destruct c; cbn [exec entry_tld is_claim] in *;
    unfold mintSLD, safeMintSLD, safeMintSLD_data, mintSLDWithRecords,
      safeMintSLDWithRecords, safeMintSLDWithRecords_data, claim, claimTo,
      claimToWithRecords;
    rewrite ?onlyMinter_minter by auto;
    rewrite validTld_unregistered by assumption; reflexivity.
Qed.


(** ** Routing *)

Local Ltac open_entry c :=
  destruct c; cbn [body entry_tld entry_label is_claim minted_label with_records
                   entry_keys entry_values recipient andb] in *.

(** The lemma for the private routine at the head of the goal. *)
Local Ltac route :=
  lazymatch goal with
  | |- _mintSLD _ _ TLD_CRYPTO _ = _ => apply _mintSLD_legacy
  | |- _safeMintSLD _ _ TLD_CRYPTO _ _ = _ => apply _safeMintSLD_legacy
  | |- _mintSLDWithRecords _ _ TLD_CRYPTO _ _ _ = _ =>
      apply _mintSLDWithRecords_legacy
  | |- _safeMintSLDWithRecords _ _ TLD_CRYPTO _ _ _ _ = _ =>
      apply _safeMintSLDWithRecords_legacy
  | |- _mintSLD _ _ _ _ = _ => apply _mintSLD_registry
  | |- _safeMintSLD _ _ _ _ _ = _ => apply _safeMintSLD_registry
  | |- _mintSLDWithRecords _ _ _ _ _ _ = _ => apply _mintSLDWithRecords_registry
  | |- _safeMintSLDWithRecords _ _ _ _ _ _ _ = _ =>
      apply _safeMintSLDWithRecords_registry
  end; first [ assumption | apply _freeSLDLabel_not_empty ].

(** C1: every mint-family call that passes its guards (the caller holds
    the minter role where one is required, the TLD is registered) either
    reverts on an empty label or mints as the routing rule says: for the
    legacy TLD the mint is a call to [CryptoMinter] that carries the
    recipient and the label and no id (followed, for the records variants,
    by the resolver's preconfiguration); for any other TLD it is one call to
    [UnsRegistry] whose token id is [canonicalHash tld label].  The label is
    the one the function mints under, which for the [claim*] functions is
    the prefixed one. *)
Theorem mint_routing (e : env) (s : state) (c : entry) :
  (is_claim c = false -> isMinter s (msg_sender e) = true) ->
  tlds_get s (entry_tld c) <> "" ->
  let tld := entry_tld c in
  let label := minted_label c in
  let to := recipient e c in
  if bool_decide (tld = TLD_CRYPTO) then
    if with_records c && bool_decide (label = "") then
      exec e s c = Revert LABEL_EMPTY
    else
      exists m, legacy_mint m = Some (to, label) /\
        exec e s c =
        Invoke (CryptoMinter s) m
          (if with_records c
           then preconfigure s (entry_keys c) (entry_values c) (canonicalHash tld label)
           else Ret tt)
  else
    if bool_decide (label = "") then exec e s c = Revert LABEL_EMPTY
    else
      exists m,
        registry_mint m = Some (to, canonicalHash tld label, _uri s tld label) /\
        exec e s c = Invoke (UnsRegistry s) m (Ret tt).
Proof.
  intros Hm Ht tld label to. rewrite exec_guards_passed by assumption.
  subst tld label to.
  assert (Hfree : forall l, bool_decide (_freeSLDLabel l = "") = false)
    by (intros l; apply bool_decide_eq_false, _freeSLDLabel_not_empty).
  open_entry c; rewrite ?Hfree; cbn [andb];
    repeat case_bool_decide; subst;
    rewrite ?_mintSLD_registry_empty, ?_safeMintSLD_registry_empty by assumption;
    try reflexivity;
    eexists; (split; [| route ]); reflexivity.
Qed.

(** On the registry path a mint by the minter. *)
Lemma mint_routing_witness :
  (is_claim (MintSLD 0xabc TLD_COIN "abc") = false ->
   isMinter example_state (msg_sender example_env) = true) /\
  tlds_get example_state TLD_COIN <> "" /\
  exists m,
    registry_mint m = Some (0xabc, canonicalHash TLD_COIN "abc", "abc.coin") /\
    exec example_env example_state (MintSLD 0xabc TLD_COIN "abc") =
    Invoke 0x2000 m (Ret tt).
Proof.
  split; [intros _; vm_compute; reflexivity|].
  split; [vm_compute; discriminate|].
  apply (mint_routing example_env example_state (MintSLD 0xabc TLD_COIN "abc")).
  - intros _. vm_compute. reflexivity.
  - vm_compute. discriminate.
Defined.


(** ** Empty labels *)

(** A [claim] with an empty label on a registered TLD mints the bare
    prefix; a [mintSLD] with an empty label on the legacy TLD hands it to
    the legacy minter. *)
Lemma claim_empty_label_mints :
  exec example_env example_state (Claim TLD_COIN "") =
  call 0x2000
    (IRegistry_mint example_minter (canonicalHash TLD_COIN "udtestdev-") "udtestdev-.coin").
Proof. vm_compute. reflexivity. Qed.

Lemma mintSLD_legacy_empty_label :
  exec example_env example_state (MintSLD 0xabc TLD_CRYPTO "") =
  call 0x3000 (ICryptoSLDMinter_mintSLD 0xabc "").
Proof. vm_compute. reflexivity. Qed.

(** C2, as stated, fails: not every mint-family call with an empty label
    on a registered TLD reverts with LABEL_EMPTY, even for a caller that
    holds the minter role. *)
Lemma empty_label_not_always_rejected :
  ~ (forall (e : env) (s : state) (c : entry),
       isMinter s (msg_sender e) = true ->
       tlds_get s (entry_tld c) <> "" ->
       entry_label c = "" ->
       exec e s c = Revert LABEL_EMPTY).
Proof.
  intros H.
  specialize (H example_env example_state (Claim TLD_COIN "")).
  rewrite claim_empty_label_mints in H.
  assert (Hr : call 0x2000
             (IRegistry_mint example_minter (canonicalHash TLD_COIN "udtestdev-")
                "udtestdev-.coin") = @Revert unit LABEL_EMPTY).
  { apply H; [vm_compute; reflexivity | vm_compute; discriminate | reflexivity]. }
  discriminate Hr.
Qed.

(** C2, amended: a call by a minter with an empty label on a registered
    TLD reverts with LABEL_EMPTY when it is [mintSLD] or [safeMintSLD] on a
    TLD other than the legacy one, or [mintSLDWithRecords] or
    [safeMintSLDWithRecords] on any TLD. *)
Theorem empty_label_rejected (e : env) (s : state) (c : entry) :
  isMinter s (msg_sender e) = true ->
  tlds_get s (entry_tld c) <> "" ->
  entry_label c = "" ->
  is_claim c = false ->
  with_records c = true \/ entry_tld c <> TLD_CRYPTO ->
  exec e s c = Revert LABEL_EMPTY.
Proof.
  intros Hm Ht Hl Hc Hp. rewrite exec_guards_passed by auto.
  open_entry c; try discriminate; subst;
    first [ apply _mintSLDWithRecords_empty
          | apply _safeMintSLDWithRecords_empty
          | destruct Hp as [Hp|Hp]; [discriminate|];
            first [ apply _mintSLD_registry_empty | apply _safeMintSLD_registry_empty ];
            assumption ].
Qed.

Lemma empty_label_rejected_witness :
  isMinter example_state (msg_sender example_env) = true /\
  tlds_get example_state TLD_CRYPTO <> "" /\
  exec example_env example_state
    (SafeMintSLDWithRecords 0xabc TLD_CRYPTO "" ["k"] ["v"]) = Revert LABEL_EMPTY.
Proof.
  split; [vm_compute; reflexivity|].
  split; [vm_compute; discriminate|].
  apply (empty_label_rejected example_env example_state
           (SafeMintSLDWithRecords 0xabc TLD_CRYPTO "" ["k"] ["v"])).
  - vm_compute. reflexivity.
  - vm_compute. discriminate.
  - reflexivity.
  - reflexivity.
  - left. reflexivity.
Defined.

(** ** Unregistered TLDs *)

(** C6, as stated, fails: a caller without the minter role that calls
    [mintSLD] with an unregistered TLD is turned away by the minter guard,
    which runs first, not with TLD_NOT_VALID. *)
Lemma tld_not_valid_not_for_every_caller :
  ~ (forall (e : env) (s : state) (c : entry),
       tlds_get s (entry_tld c) = "" -> exec e s c = Revert TLD_NOT_VALID).
Proof.
  intros H.
  specialize (H example_stranger example_state (MintSLD 0xabc 5 "abc")).
  assert (Hr : exec example_stranger example_state (MintSLD 0xabc 5 "abc") =
               Revert CallerIsNotMinter) by (vm_compute; reflexivity).
  rewrite Hr in H. discriminate H. vm_compute. reflexivity.
Qed.

(** C6, amended: with a TLD that has no label stored, [claim], [claimTo]
    and [claimToWithRecords] revert with TLD_NOT_VALID for every caller,
    and the six functions behind [onlyMinter] do for every caller that
    holds the minter role; recipient and label are arbitrary. *)
Theorem unregistered_tld_rejected (e : env) (s : state) (c : entry) :
  tlds_get s (entry_tld c) = "" ->
  is_claim c = true \/ isMinter s (msg_sender e) = true ->
  exec e s c = Revert TLD_NOT_VALID.
Proof.
  intros Ht Hc. apply exec_tld_not_valid; [|assumption].
  intros Hn. destruct Hc as [Hc|Hc]; congruence.
Qed.

Lemma unregistered_tld_rejected_witness :
  tlds_get example_state 5 = "" /\
  (is_claim (MintSLD 0xabc 5 "abc") = true \/
   isMinter example_state (msg_sender example_env) = true) /\
  exec example_env example_state (MintSLD 0xabc 5 "abc") = Revert TLD_NOT_VALID.
Proof.
  split; [vm_compute; reflexivity|].
  split; [right; vm_compute; reflexivity|].
  apply (unregistered_tld_rejected example_env example_state (MintSLD 0xabc 5 "abc")).
  - vm_compute. reflexivity.
  - right. vm_compute. reflexivity.
Defined.


(** ** Claims *)

(** C4: for every caller and every registered TLD, [claim], [claimTo] and
    [claimToWithRecords] mint under ["udtestdev-"] followed by the label
    they are given, which is never the label itself: on the legacy path
    that is the label [CryptoMinter] receives, on the registry path the
    label the token id and the URI are made of.  No role is asked of the
    caller. *)
Theorem claim_mints_prefixed_label (e : env) (s : state) (to tld : Z) (label : string)
    (keys values : list string) :
  tlds_get s tld <> "" ->
  let prefixed := "udtestdev-" +:+ label in
  prefixed <> label /\
  if bool_decide (tld = TLD_CRYPTO) then
    claim e s tld label =
      call (CryptoMinter s) (ICryptoSLDMinter_mintSLD (msg_sender e) prefixed) /\
    claimTo e s to tld label =
      call (CryptoMinter s) (ICryptoSLDMinter_mintSLD to prefixed) /\
    claimToWithRecords e s to tld label keys values =
      Invoke (CryptoMinter s)
        (ICryptoSLDMinter_mintSLDWithResolver to prefixed (CryptoResolver s))
        (preconfigure s keys values (canonicalHash tld prefixed))
  else
    claim e s tld label =
      call (UnsRegistry s)
        (IRegistry_mint (msg_sender e) (canonicalHash tld prefixed)
           (prefixed +:+ "." +:+ tlds_get s tld)) /\
    claimTo e s to tld label =
      call (UnsRegistry s)
        (IRegistry_mint to (canonicalHash tld prefixed)
           (prefixed +:+ "." +:+ tlds_get s tld)) /\
    claimToWithRecords e s to tld label keys values =
      call (UnsRegistry s)
        (IRegistry_mintWithRecords to (canonicalHash tld prefixed)
           (prefixed +:+ "." +:+ tlds_get s tld) keys values).
Proof.
  intros Ht prefixed. split; [apply _freeSLDLabel_not_raw|].
  pose proof (_freeSLDLabel_not_empty label) as Hne.
  unfold claim, claimTo, claimToWithRecords.
  rewrite !validTld_registered by assumption. cbn [bind].
  change (_freeSLDLabel label) with prefixed in *.
  case_bool_decide as Hc.
  - subst tld. rewrite !_mintSLD_legacy, _mintSLDWithRecords_legacy by assumption.
    repeat split.
  - rewrite !_mintSLD_registry, _mintSLDWithRecords_registry by assumption.
    repeat split.
Qed.

Lemma claim_mints_prefixed_label_witness :
  tlds_get example_state TLD_WALLET <> "" /\
  "udtestdev-john" <> "john" /\
  claim example_stranger example_state TLD_WALLET "john" =
    call 0x2000
      (IRegistry_mint 0xbeef (canonicalHash TLD_WALLET "udtestdev-john")
         "udtestdev-john.wallet").
Proof.
  split; [vm_compute; discriminate|].
  pose proof (claim_mints_prefixed_label example_stranger example_state 0 TLD_WALLET
                "john" [] []) as H.
  destruct H as [Hne [Hclaim _]]; [vm_compute; discriminate|].
  split; [exact Hne | exact Hclaim].
Defined.

(** ** Relayed calls *)

Lemma _verifyRelayCall_supported (funcSig : Z) (data : string) :
  funcSig ∈ relay_allow_list -> _verifyRelayCall funcSig data = Ret tt.
Proof.
  unfold relay_allow_list. rewrite !elem_of_cons, elem_of_nil.
  intros [->|[->|[->|[->|[->|[->|[]]]]]]]; reflexivity.
Qed.

(** C3: a selector outside the six of the mint family fails the call
    check with UNSUPPORTED_RELAY_CALL.  The check takes the selector and
    the data and nothing of the signer, so that is so for every signer,
    and a relay whose signer passed the signer check (a minter) fails with
    that reason. *)
Theorem unsupported_relay_call (Relayer_verifyRelaySigner : Z -> prog unit)
    (s : state) (signer funcSig : Z) (data : string) :
  funcSig ∉ relay_allow_list ->
  _verifyRelayCall funcSig data = Revert UNSUPPORTED_RELAY_CALL /\
  (_verifyRelaySigner Relayer_verifyRelaySigner s signer = Ret tt ->
   verifyRelay Relayer_verifyRelaySigner s signer funcSig data =
   Revert UNSUPPORTED_RELAY_CALL).
Proof.
  intros Hn.
  assert (Hcall : _verifyRelayCall funcSig data = Revert UNSUPPORTED_RELAY_CALL).
  { unfold relay_allow_list in Hn. rewrite !not_elem_of_cons in Hn.
    destruct Hn as (H1 & H2 & H3 & H4 & H5 & H6 & _).
    unfold _verifyRelayCall.
    apply Z.eqb_neq in H1, H2, H3, H4, H5, H6.
    rewrite H1, H2, H3, H4, H5, H6. reflexivity. }
  split; [exact Hcall|].
  intros Hs. unfold verifyRelay. rewrite Hs. cbn [bind]. exact Hcall.
Qed.

Lemma setResolver_selector : selector "setResolver(address)" = 0x4e543b26.
Proof. vm_compute. reflexivity. Qed.

(** A relay of [setResolver], signed by the minter of [example_state]. *)
Lemma unsupported_relay_call_witness :
  (0x4e543b26 ∉ relay_allow_list) /\
  _verifyRelayCall 0x4e543b26 "" = Revert UNSUPPORTED_RELAY_CALL /\
  verifyRelay (fun _ => Ret tt) example_state example_minter 0x4e543b26 "" =
  Revert UNSUPPORTED_RELAY_CALL.
Proof.
  assert (Hn : 0x4e543b26 ∉ relay_allow_list).
  { unfold relay_allow_list. rewrite !not_elem_of_cons.
    repeat split; try (vm_compute; discriminate). apply not_elem_of_nil. }
  split; [exact Hn|].
  destruct (unsupported_relay_call (fun _ => Ret tt) example_state example_minter
              0x4e543b26 "" Hn) as [Hcall Hrelay].
  split; [exact Hcall|]. apply Hrelay. vm_compute. reflexivity.
Defined.


(** ** Initialisation *)

Lemma initialize_twice (e : env) (s : state) (r m v : Z) :
  _initialized s = true -> initialize e s r m v = Revert AlreadyInitialized.
Proof. intros H. unfold initialize, initializer. rewrite H. reflexivity. Qed.

Lemma run_from_bind {A B W : Type} (h : handler W) (p : prog A) (f : A -> prog B)
    (w : W) (done : list (Z * method)) :
  run_from h (bind p f) w done =
  match run_from h p w done with
  | Committed a w' done' => run_from h (f a) w' done'
  | RolledBack r => RolledBack r
  | CollaboratorReverted t c => CollaboratorReverted t c
  end.
Proof.
  revert w done. induction p as [a|r|t q k IH|t c k IH]; intros w done; cbn.
  - reflexivity.
  - reflexivity.
  - apply IH.
  - destruct (perform h t c w); [apply IH | reflexivity].
Qed.

(** [initialize] past its [initializer] guard, with the storage it writes
    named. *)
Lemma initialize_unfold (e : env) (s : state) (r m v : Z) :
  _initialized s = false ->
  initialize e s r m v =
  Query r (IRegistry_exists TLD_WALLET) (fun walletExists =>
    (if negb walletExists
     then call r (IRegistry_mint BURN_ADDRESS TLD_WALLET "wallet")
     else Ret tt) ;;
    Query r (IRegistry_exists TLD_COIN) (fun coinExists =>
      (if negb coinExists
       then call r (IRegistry_mint BURN_ADDRESS TLD_COIN "coin")
       else Ret tt) ;;
      Ret (initialize_storage e r m v s))).
Proof. intros Hi. unfold initialize, initializer. rewrite Hi. reflexivity. Qed.

(** [initialize] on a manager that is not initialised yet, against any
    collaborators: the two guarded mints, in this order, and the storage
    written. *)
Lemma run_initialize {W : Type} (h : handler W) (e : env) (s : state) (r m v : Z)
    (w : W) :
  _initialized s = false ->
  run h (initialize e s r m v) w =
  match premint h r TLD_WALLET "wallet" w with
  | None => CollaboratorReverted r (IRegistry_mint BURN_ADDRESS TLD_WALLET "wallet")
  | Some (w1, calls1) =>
      match premint h r TLD_COIN "coin" w1 with
      | None => CollaboratorReverted r (IRegistry_mint BURN_ADDRESS TLD_COIN "coin")
      | Some (w2, calls2) =>
          Committed (initialize_storage e r m v s) w2 (calls1 ++ calls2)
      end
  end.
Proof.
  intros Hi. rewrite initialize_unfold by assumption. unfold run, premint.
  cbn [run_from].
  destruct (answer h r (IRegistry_exists TLD_WALLET) w);
    cbn [negb bind call run_from].
  - destruct (answer h r (IRegistry_exists TLD_COIN) w);
      cbn [negb bind call run_from].
    + reflexivity.
    + destruct (perform h r (IRegistry_mint BURN_ADDRESS TLD_COIN "coin") w);
        reflexivity.
  - destruct (perform h r (IRegistry_mint BURN_ADDRESS TLD_WALLET "wallet") w)
      as [w1|]; [|reflexivity].
    cbn [run_from].
    destruct (answer h r (IRegistry_exists TLD_COIN) w1);
      cbn [negb bind call run_from].
    + reflexivity.
    + destruct (perform h r (IRegistry_mint BURN_ADDRESS TLD_COIN "coin") w1);
        reflexivity.
Qed.

Lemma premint_registry (r tld : Z) (label : string) (w : gmap Z Z) :
  premint (registry_handler r) r tld label w =
  if registry_exists w tld then Some (w, [])
  else Some (<[tld := BURN_ADDRESS]> w, [(r, IRegistry_mint BURN_ADDRESS tld label)]).
Proof.
  unfold premint, registry_handler. cbn [answer perform registry_mint].
  rewrite bool_decide_eq_true_2 by reflexivity. cbn [andb].
  destruct (registry_exists w tld); reflexivity.
Qed.

Lemma registry_exists_insert (w : gmap Z Z) (id id' owner : Z) :
  registry_exists (<[id := owner]> w) id' =
  bool_decide (id = id') || registry_exists w id'.
Proof.
  unfold registry_exists.
  destruct (decide (id = id')) as [->|Hne].
  - rewrite lookup_insert_eq.
    rewrite (bool_decide_eq_true_2 (id' = id')) by reflexivity.
    apply bool_decide_eq_true_2. eauto.
  - rewrite lookup_insert_ne by assumption.
    rewrite (bool_decide_eq_false_2 (id = id')) by assumption. reflexivity.
Qed.

(** A guarded mint against the registry: it never reverts, the id exists
    afterwards, and nothing the registry had is touched. *)
Lemma premint_registry_spec (r tld : Z) (label : string) (w : gmap Z Z) :
  exists w',
    premint (registry_handler r) r tld label w =
      Some (w', if registry_exists w tld then []
                else [(r, IRegistry_mint BURN_ADDRESS tld label)]) /\
    registry_exists w' tld = true /\
    (forall id owner, w !! id = Some owner -> w' !! id = Some owner) /\
    (forall id, id <> tld -> registry_exists w' id = registry_exists w id).
Proof.
  rewrite premint_registry. destruct (registry_exists w tld) eqn:He.
  - exists w. auto.
  - exists (<[tld := BURN_ADDRESS]> w). split; [reflexivity|]. split; [|split].
    + rewrite registry_exists_insert, bool_decide_eq_true_2 by reflexivity.
      reflexivity.
    + intros id owner Hid. rewrite lookup_insert_ne; [exact Hid|]. intros <-.
      unfold registry_exists in He. rewrite Hid in He.
      apply bool_decide_eq_false in He. apply He. eauto.
    + intros id Hne. rewrite registry_exists_insert.
      rewrite bool_decide_eq_false_2 by congruence. reflexivity.
Qed.

Lemma tld_constants_distinct :
  TLD_CRYPTO <> TLD_WALLET /\ TLD_CRYPTO <> TLD_COIN /\ TLD_WALLET <> TLD_COIN.
Proof. repeat split; vm_compute; discriminate. Qed.

(** The labels [initialize] stores on a fresh proxy. *)
Lemma initialized_tlds (e : env) (r m v tld : Z) :
  tlds_get (initialize_storage e r m v deployed) tld =
  if bool_decide (tld = TLD_CRYPTO) then "crypto"
  else if bool_decide (tld = TLD_WALLET) then "wallet"
  else if bool_decide (tld = TLD_COIN) then "coin"
  else "".
Proof.
  destruct tld_constants_distinct as (Hcw & Hcc & Hwc).
  unfold tlds_get, initialize_storage, deployed. cbn [_tlds].
  repeat case_bool_decide; subst;
    rewrite ?lookup_insert_eq, ?lookup_insert_ne, ?lookup_empty by congruence;
    try reflexivity; rewrite ?lookup_insert_eq; try reflexivity.
Qed.

(** C5: [initialize] on a fresh proxy, against a registry in any state
    [w], commits; the TLDs with a label are then exactly the three hashes,
    labelled crypto, wallet and coin; the calls it makes are the mints of
    wallet and coin to 0xdead, each only when the registry does not have
    the id yet; no id the registry had changes hands; and running
    [initialize] again makes no call at all: on the same proxy it reverts,
    on another fresh proxy against the same registry it mints nothing. *)
Theorem initialize_registers_three_tlds (e : env) (r m v : Z) (w : gmap Z Z) :
  let s' := initialize_storage e r m v deployed in
  let calls :=
    (if registry_exists w TLD_WALLET then []
     else [(r, IRegistry_mint BURN_ADDRESS TLD_WALLET "wallet")]) ++
    (if registry_exists w TLD_COIN then []
     else [(r, IRegistry_mint BURN_ADDRESS TLD_COIN "coin")]) in
  exists w',
    run (registry_handler r) (initialize e deployed r m v) w = Committed s' w' calls /\
    (forall tld, tlds_get s' tld <> "" <-> tld ∈ [TLD_CRYPTO; TLD_WALLET; TLD_COIN]) /\
    tlds_get s' TLD_CRYPTO = "crypto" /\
    tlds_get s' TLD_WALLET = "wallet" /\
    tlds_get s' TLD_COIN = "coin" /\
    (forall id owner, w !! id = Some owner -> w' !! id = Some owner) /\
    (forall e2 r2 m2 v2, initialize e2 s' r2 m2 v2 = Revert AlreadyInitialized) /\
    (forall e2 m2 v2,
       run (registry_handler r) (initialize e2 deployed r m2 v2) w' =
       Committed (initialize_storage e2 r m2 v2 deployed) w' []).
Proof.
  intros s' calls.
  destruct tld_constants_distinct as (Hcw & Hcc & Hwc).
  destruct (premint_registry_spec r TLD_WALLET "wallet" w)
    as (w1 & Hp1 & Hex1 & Hkeep1 & Hother1).
  destruct (premint_registry_spec r TLD_COIN "coin" w1)
    as (w2 & Hp2 & Hex2 & Hkeep2 & Hother2).
  assert (Hwl2 : registry_exists w2 TLD_WALLET = true)
    by (rewrite Hother2 by assumption; exact Hex1).
  exists w2. split; [|split; [|split; [|split; [|split; [|split; [|split]]]]]].
  - rewrite run_initialize by reflexivity. rewrite Hp1, Hp2.
    rewrite (Hother1 TLD_COIN) by congruence. reflexivity.
  - intros tld. unfold s'. rewrite initialized_tlds.
    rewrite !elem_of_cons, elem_of_nil.
    repeat case_bool_decide; split; intros Hx;
      solve [ discriminate | intuition congruence ].
  - unfold s'. rewrite initialized_tlds.
    rewrite bool_decide_eq_true_2 by reflexivity. reflexivity.
  - unfold s'. rewrite initialized_tlds.
    rewrite bool_decide_eq_false_2 by congruence.
    rewrite bool_decide_eq_true_2 by reflexivity. reflexivity.
  - unfold s'. rewrite initialized_tlds.
    rewrite !bool_decide_eq_false_2 by congruence.
    rewrite bool_decide_eq_true_2 by reflexivity. reflexivity.
  - intros id owner Hid. apply Hkeep2, Hkeep1, Hid.
  - intros e2 r2 m2 v2. apply initialize_twice. reflexivity.
  - intros e2 m2 v2. rewrite run_initialize by reflexivity.
    rewrite premint_registry, Hwl2, premint_registry, Hex2. reflexivity.
Qed.

(** C10: whenever [initialize] commits, against whatever collaborators,
    the storage it leaves has the contract's own address among the
    minters, so a call the contract makes to itself passes [onlyMinter]. *)
Theorem initialize_makes_contract_minter {W : Type} (h : handler W) (e : env)
    (s : state) (r m v : Z) (w w' : W) (s' : state) (calls : list (Z * method)) :
  run h (initialize e s r m v) w = Committed s' w' calls ->
  isMinter s' (this e) = true /\
  onlyMinter {| msg_sender := this e; this := this e |} s' = Ret tt.
Proof.
  intros Hrun.
  assert (Hm : isMinter s' (this e) = true).
  { destruct (_initialized s) eqn:Hi.
    - rewrite initialize_twice in Hrun by assumption. discriminate Hrun.
    - rewrite run_initialize in Hrun by assumption.
      destruct (premint h r TLD_WALLET "wallet" w) as [[w1 c1]|]; [|discriminate].
      destruct (premint h r TLD_COIN "coin" w1) as [[w2 c2]|]; [|discriminate].
      injection Hrun as <- _ _.
      unfold isMinter, initialize_storage. cbn [_minters].
      apply bool_decide_eq_true_2. set_solver. }
  split; [exact Hm|]. apply onlyMinter_minter. exact Hm.
Qed.

Lemma initialize_makes_contract_minter_witness :
  run (registry_handler 0x2000) (initialize example_env deployed 0x2000 0x3000 0x4000) ∅ =
    Committed (initialize_storage example_env 0x2000 0x3000 0x4000 deployed)
      {[ TLD_WALLET := BURN_ADDRESS; TLD_COIN := BURN_ADDRESS ]}
      [(0x2000, IRegistry_mint BURN_ADDRESS TLD_WALLET "wallet");
       (0x2000, IRegistry_mint BURN_ADDRESS TLD_COIN "coin")] /\
  isMinter (initialize_storage example_env 0x2000 0x3000 0x4000 deployed) 0x1000 = true /\
  onlyMinter {| msg_sender := 0x1000; this := 0x1000 |}
    (initialize_storage example_env 0x2000 0x3000 0x4000 deployed) = Ret tt.
Proof.
  assert (Hrun :
    run (registry_handler 0x2000) (initialize example_env deployed 0x2000 0x3000 0x4000) ∅ =
    Committed (initialize_storage example_env 0x2000 0x3000 0x4000 deployed)
      {[ TLD_WALLET := BURN_ADDRESS; TLD_COIN := BURN_ADDRESS ]}
      [(0x2000, IRegistry_mint BURN_ADDRESS TLD_WALLET "wallet");
       (0x2000, IRegistry_mint BURN_ADDRESS TLD_COIN "coin")]).
  { vm_compute. reflexivity. }
  split; [exact Hrun|].
  exact (initialize_makes_contract_minter _ _ _ _ _ _ _ _ _ _ Hrun).
Defined.

(** ** The contract at work *)

(** The id a [claim] of "abc" mints under is not the id of "abc". *)
Example claim_id_is_not_raw_id :
  canonicalHash TLD_COIN (_freeSLDLabel "abc") <> canonicalHash TLD_COIN "abc".
Proof. vm_compute. discriminate. Qed.

(** After initialisation against an empty registry, [mintSLD] of "abc"
    under coin commits and leaves [canonicalHash TLD_COIN "abc"] with its
    recipient; the same call once more is turned down by the registry. *)
Example mint_then_mint_again :
  let registry := 0x2000 in
  let state := initialize_storage example_env registry 0x3000 0x4000 deployed in
  let minted := {[ TLD_WALLET := BURN_ADDRESS; TLD_COIN := BURN_ADDRESS;
                  canonicalHash TLD_COIN "abc" := 0xabc ]} in
  let mint := exec {| msg_sender := 0x1000; this := 0x1000 |} state
                (MintSLD 0xabc TLD_COIN "abc") in
  run (registry_handler registry) mint
      {[ TLD_WALLET := BURN_ADDRESS; TLD_COIN := BURN_ADDRESS ]} =
    Committed tt minted
      [(registry, IRegistry_mint 0xabc (canonicalHash TLD_COIN "abc") "abc.coin")] /\
  run (registry_handler registry) mint minted =
    CollaboratorReverted registry
      (IRegistry_mint 0xabc (canonicalHash TLD_COIN "abc") "abc.coin").
Proof. vm_compute. split; reflexivity. Qed.

(** ** Relayed calls, again *)

Lemma _verifyRelayCall_passes (funcSig : Z) (data : string) :
  _verifyRelayCall funcSig data = Ret tt -> funcSig ∈ relay_allow_list.
Proof.
  unfold _verifyRelayCall, relay_allow_list. rewrite !elem_of_cons.
  destruct (Z.eqb_spec funcSig _SIG_MINT); [auto|].
  destruct (Z.eqb_spec funcSig _SIG_SAFE_MINT); [auto|].
  destruct (Z.eqb_spec funcSig _SIG_SAFE_MINT_DATA); [auto|].
  destruct (Z.eqb_spec funcSig _SIG_MINT_WITH_RECORDS); [auto|].
  destruct (Z.eqb_spec funcSig _SIG_SAFE_MINT_WITH_RECORDS); [auto 6|].
  destruct (Z.eqb_spec funcSig _SIG_SAFE_MINT_WITH_RECORDS_DATA); [auto 7|].
  discriminate.
Qed.

(** X1: the call check of a relay passes for exactly the selectors of the
    six external functions behind [onlyMinter], whatever the data, and so
    fails for the selector of every other external function of the
    contract: [initialize], the three [claim*] and [setResolver]. *)
Theorem relay_allows_the_minter_functions :
  relay_allow_list = selector <$> minter_signatures /\
  (forall (funcSig : Z) (data : string),
     _verifyRelayCall funcSig data = Ret tt <-> funcSig ∈ selector <$> minter_signatures) /\
  (forall (signature data : string), signature ∈ other_signatures ->
     _verifyRelayCall (selector signature) data = Revert UNSUPPORTED_RELAY_CALL).
Proof.
  assert (Hl : relay_allow_list = selector <$> minter_signatures)
    by (vm_compute; reflexivity).
  split; [exact Hl|]. split.
  - intros funcSig data. rewrite <- Hl. split.
    + apply _verifyRelayCall_passes.
    + apply _verifyRelayCall_supported.
  - intros signature data. unfold other_signatures.
    rewrite !elem_of_cons, elem_of_nil.
    intros [->|[->|[->|[->|[->|[]]]]]]; vm_compute; reflexivity.
Qed.

(** X2: with the signer check of [Relayer] passed, a signer passes
    [_verifyRelaySigner] exactly when a direct call of that signer would
    pass [onlyMinter], and fails with SIGNER_IS_NOT_MINTER otherwise: a
    relay lends a signer no right it does not have. *)
Theorem relay_signer_is_a_minter (Relayer_verifyRelaySigner : Z -> prog unit)
    (s : state) (signer contract : Z) :
  Relayer_verifyRelaySigner signer = Ret tt ->
  _verifyRelaySigner Relayer_verifyRelaySigner s signer =
    (if isMinter s signer then Ret tt else Revert SIGNER_IS_NOT_MINTER) /\
  (_verifyRelaySigner Relayer_verifyRelaySigner s signer = Ret tt <->
   onlyMinter {| msg_sender := signer; this := contract |} s = Ret tt).
Proof.
  intros Hbase. unfold _verifyRelaySigner, onlyMinter. rewrite Hbase.
  cbn [bind msg_sender]. destruct (isMinter s signer); cbn [require].
  - split; [reflexivity|]. split; reflexivity.
  - split; [reflexivity|]. split; discriminate.
Qed.

Lemma relay_signer_is_a_minter_witness :
  (fun _ : Z => Ret tt) 0xbeef = Ret tt /\
  _verifyRelaySigner (fun _ => Ret tt) example_state 0xbeef =
    Revert SIGNER_IS_NOT_MINTER.
Proof.
  split; [reflexivity|].
  destruct (relay_signer_is_a_minter (fun _ => Ret tt) example_state 0xbeef 0x1000
              eq_refl) as [H _].
  exact H.
Defined.

(** ** Who can mint what *)

Lemma exec_claim_unregistered (e : env) (s : state) (c : entry) :
  is_claim c = true -> tlds_get s (entry_tld c) = "" ->
  exec e s c = Revert TLD_NOT_VALID.
Proof. intros Hc Ht. apply exec_tld_not_valid; [congruence|assumption]. Qed.

(** X3: a caller without the minter role never mints outside the
    reserved namespace: whatever such a caller calls, the transaction
    either reverts or is a [claim*] whose first call mints, for the
    recipient, the label ["udtestdev-"] followed by the label given, at
    the legacy minter or, under the id of that prefixed label, at the
    registry. *)
Theorem stranger_mints_only_prefixed (e : env) (s : state) (c : entry) :
  isMinter s (msg_sender e) = false ->
  (exists f, exec e s c = Revert f) \/
  (is_claim c = true /\
   exists m k, exec e s c =
     Invoke (if bool_decide (entry_tld c = TLD_CRYPTO) then CryptoMinter s
             else UnsRegistry s) m k /\
     if bool_decide (entry_tld c = TLD_CRYPTO)
     then legacy_mint m = Some (recipient e c, "udtestdev-" +:+ entry_label c)
     else exists uri,
       registry_mint m =
       Some (recipient e c,
             canonicalHash (entry_tld c) ("udtestdev-" +:+ entry_label c), uri)).
Proof.
  intros Hm. destruct (is_claim c) eqn:Hc.
  2: { left. eexists. by apply exec_not_minter. }
  destruct (decide (tlds_get s (entry_tld c) = "")) as [Ht|Ht].
  { left. eexists. by apply exec_claim_unregistered. }
  right. split; [reflexivity|].
  rewrite exec_guards_passed by (congruence || assumption).
  pose proof _freeSLDLabel_not_empty as Hne.
  destruct c; try discriminate;
    cbn [body entry_tld entry_label recipient]; case_bool_decide as Htld; subst;
    rewrite ?_mintSLD_legacy, ?_mintSLDWithRecords_legacy,
            ?_mintSLD_registry, ?_mintSLDWithRecords_registry by auto;
    unfold call; do 2 eexists; (split; [reflexivity|]);
    cbn [legacy_mint registry_mint]; eauto.
Qed.

Lemma stranger_mints_only_prefixed_witness :
  isMinter example_state (msg_sender example_stranger) = false /\
  ((exists f, exec example_stranger example_state (MintSLD 0xbeef TLD_COIN "john") =
              Revert f) \/
   (is_claim (MintSLD 0xbeef TLD_COIN "john") = true /\
    exists m k, exec example_stranger example_state (MintSLD 0xbeef TLD_COIN "john") =
      Invoke (if bool_decide (TLD_COIN = TLD_CRYPTO) then 0x3000 else 0x2000) m k /\
      if bool_decide (TLD_COIN = TLD_CRYPTO)
      then legacy_mint m = Some (0xbeef, "udtestdev-john")
      else exists uri,
        registry_mint m =
        Some (0xbeef, canonicalHash TLD_COIN "udtestdev-john", uri))).
Proof.
  split; [vm_compute; reflexivity|].
  apply (stranger_mints_only_prefixed example_stranger example_state
           (MintSLD 0xbeef TLD_COIN "john")).
  vm_compute. reflexivity.
Defined.

(** X4: the reserved namespace is not closed to minters: a [claim*] of a
    label is, call for call, the mint of the prefixed label by a minter
    for the same recipient, so whichever is made first takes the name. *)
Theorem claim_is_a_mint_of_the_prefixed_label (caller minter : env) (s : state)
    (to tld : Z) (label : string) (keys values : list string) :
  isMinter s (msg_sender minter) = true ->
  exec caller s (Claim tld label) =
    exec minter s (MintSLD (msg_sender caller) tld ("udtestdev-" +:+ label)) /\
  exec caller s (ClaimTo to tld label) =
    exec minter s (MintSLD to tld ("udtestdev-" +:+ label)) /\
  exec caller s (ClaimToWithRecords to tld label keys values) =
    exec minter s (MintSLDWithRecords to tld ("udtestdev-" +:+ label) keys values).
Proof.
  intros Hm. cbn [exec].
  unfold claim, claimTo, claimToWithRecords, mintSLD, mintSLDWithRecords.
  rewrite !onlyMinter_minter by assumption. repeat split.
Qed.

Lemma claim_is_a_mint_of_the_prefixed_label_witness :
  isMinter example_state (msg_sender example_env) = true /\
  exec example_stranger example_state (ClaimTo 0xabc TLD_COIN "john") =
  exec example_env example_state (MintSLD 0xabc TLD_COIN "udtestdev-john").
Proof.
  split; [vm_compute; reflexivity|].
  destruct (claim_is_a_mint_of_the_prefixed_label example_stranger example_env
              example_state 0xabc TLD_COIN "john" [] [])
    as (_ & H & _); [vm_compute; reflexivity|].
  exact H.
Defined.

(** ** The storage over the transactions *)

Lemma returns_Revert {A : Type} (f : failure) (a : A) : ~ returns (Revert f) a.
Proof. intros H. inversion H. Qed.

Lemma returns_Ret_inv {A : Type} (a b : A) : returns (Ret a) b -> b = a.
Proof. intros H. inversion H. reflexivity. Qed.

Lemma returns_initialize (e : env) (s s' : state) (r m v : Z) :
  returns (initialize e s r m v) s' ->
  _initialized s = false /\ s' = initialize_storage e r m v s.
Proof.
  intros H. destruct (_initialized s) eqn:Hi.
  { rewrite initialize_twice in H by assumption. by apply returns_Revert in H. }
  split; [reflexivity|]. rewrite initialize_unfold in H by assumption.
  inversion H as [|? ? ? b1 ? H1|]; subst; clear H.
  destruct b1; cbn [negb bind call] in H1.
  - inversion H1 as [|? ? ? b2 ? H2|]; subst; clear H1.
    destruct b2; cbn [negb bind call] in H2.
    + by apply returns_Ret_inv in H2.
    + inversion H2 as [| |? ? ? ? H3]; subst. by apply returns_Ret_inv in H3.
  - inversion H1 as [| |? ? ? ? H1']; subst; clear H1.
    inversion H1' as [|? ? ? b2 ? H2|]; subst; clear H1'.
    destruct b2; cbn [negb bind call] in H2.
    + by apply returns_Ret_inv in H2.
    + inversion H2 as [| |? ? ? ? H3]; subst. by apply returns_Ret_inv in H3.
Qed.

Lemma returns_setResolver (e : env) (s s' : state) (resolver : Z) :
  returns (setResolver e s resolver) s' ->
  _owner s = msg_sender e /\ s' = set_CryptoResolver resolver s.
Proof.
  unfold setResolver, onlyOwner. case_bool_decide as Ho; cbn [bind]; intros H.
  - split; [exact Ho|]. by apply returns_Ret_inv in H.
  - by apply returns_Revert in H.
Qed.

(** X5: [setResolver] by the owner commits and writes the resolver and
    nothing else; from then on the records variants on the legacy path
    name the new resolver to the legacy minter and preconfigure the
    records there, and every other call of the mint family is what it was
    before. *)
Theorem setResolver_redirects_legacy_records (e : env) (s : state) (resolver : Z) :
  _owner s = msg_sender e ->
  exists s',
    setResolver e s resolver = Ret s' /\
    CryptoResolver s' = resolver /\
    (_initialized s', _owner s', _minters s', UnsRegistry s', CryptoMinter s', _tlds s') =
    (_initialized s, _owner s, _minters s, UnsRegistry s, CryptoMinter s, _tlds s) /\
    (forall caller c,
       with_records c = false \/ entry_tld c <> TLD_CRYPTO ->
       exec caller s' c = exec caller s c) /\
    (forall caller to label keys values data,
       tlds_get s TLD_CRYPTO <> "" ->
       let records tokenId :=
         if (0 <? Z.of_nat (length keys))
         then call resolver (ICryptoResolver_preconfigure keys values tokenId)
         else Ret tt in
       claimToWithRecords caller s' to TLD_CRYPTO label keys values =
         Invoke (CryptoMinter s)
           (ICryptoSLDMinter_mintSLDWithResolver to ("udtestdev-" +:+ label) resolver)
           (records (canonicalHash TLD_CRYPTO ("udtestdev-" +:+ label))) /\
       (isMinter s (msg_sender caller) = true -> label <> "" ->
        mintSLDWithRecords caller s' to TLD_CRYPTO label keys values =
          Invoke (CryptoMinter s)
            (ICryptoSLDMinter_mintSLDWithResolver to label resolver)
            (records (canonicalHash TLD_CRYPTO label)) /\
        safeMintSLDWithRecords caller s' to TLD_CRYPTO label keys values =
          Invoke (CryptoMinter s)
            (ICryptoSLDMinter_safeMintSLDWithResolver to label resolver "")
            (records (canonicalHash TLD_CRYPTO label)) /\
        safeMintSLDWithRecords_data caller s' to TLD_CRYPTO label keys values data =
          Invoke (CryptoMinter s)
            (ICryptoSLDMinter_safeMintSLDWithResolver to label resolver data)
            (records (canonicalHash TLD_CRYPTO label)))).
Proof.
  intros Ho. exists (set_CryptoResolver resolver s).
  split; [|split; [reflexivity|split; [reflexivity|split]]].
  - unfold setResolver, onlyOwner. by rewrite bool_decide_eq_true_2.
  - intros caller c Hc.
    destruct c; cbn [with_records entry_tld] in Hc; try reflexivity;
      (destruct Hc as [Hc|Hc]; [discriminate|]);
      cbn [exec];
      unfold mintSLDWithRecords, safeMintSLDWithRecords, safeMintSLDWithRecords_data,
        claimToWithRecords, _mintSLDWithRecords, _safeMintSLDWithRecords;
      (destruct (Z.eqb_spec tld TLD_CRYPTO) as [|_]; [congruence|]); reflexivity.
  - intros caller to label keys values data Ht records.
    assert (Ht' : tlds_get (set_CryptoResolver resolver s) TLD_CRYPTO <> "") by exact Ht.
    split.
    + unfold claimToWithRecords. rewrite validTld_registered by assumption.
      cbn [bind]. rewrite _mintSLDWithRecords_legacy by apply _freeSLDLabel_not_empty.
      reflexivity.
    + intros Hm Hl.
      assert (Hm' : isMinter (set_CryptoResolver resolver s) (msg_sender caller) = true)
        by exact Hm.
      unfold mintSLDWithRecords, safeMintSLDWithRecords, safeMintSLDWithRecords_data.
      rewrite !onlyMinter_minter, !validTld_registered by assumption. cbn [bind].
      rewrite _mintSLDWithRecords_legacy, !_safeMintSLDWithRecords_legacy by assumption.
      repeat split.
Qed.

Lemma setResolver_redirects_legacy_records_witness :
  _owner example_state = msg_sender example_env /\
  exists s',
    setResolver example_env example_state 0x5000 = Ret s' /\
    CryptoResolver s' = 0x5000 /\
    claimToWithRecords example_stranger s' 0xabc TLD_CRYPTO "john" ["k"] ["v"] =
    Invoke 0x3000 (ICryptoSLDMinter_mintSLDWithResolver 0xabc "udtestdev-john" 0x5000)
      (call 0x5000
         (ICryptoResolver_preconfigure ["k"] ["v"]
            (canonicalHash TLD_CRYPTO "udtestdev-john"))).
Proof.
  split; [reflexivity|].
  destruct (setResolver_redirects_legacy_records example_env example_state 0x5000
              eq_refl) as (s' & Hs & Hr & _ & _ & Hrec).
  exists s'. split; [exact Hs|]. split; [exact Hr|].
  destruct (Hrec example_stranger 0xabc "john" ["k"] ["v"] "") as [Hclaim _];
    [vm_compute; discriminate|].
  exact Hclaim.
Defined.

Lemma step_initialised (s s' : state) :
  step s s' -> _initialized s = true ->
  _initialized s' = true /\ UnsRegistry s' = UnsRegistry s /\
  CryptoMinter s' = CryptoMinter s /\ _tlds s' = _tlds s /\
  (CryptoResolver s' <> CryptoResolver s ->
   exists e, _owner s = msg_sender e /\
             setResolver e s (CryptoResolver s') = Ret s').
Proof.
  intros Hstep Hi. destruct Hstep as [e r m v s s' H|e resolver s s' H|e c s H|owner minters s].
  - apply returns_initialize in H as [Hf _]. congruence.
  - apply returns_setResolver in H as [Ho ->]. repeat split; try assumption.
    intros _. exists e. split; [exact Ho|].
    unfold setResolver, onlyOwner. by rewrite bool_decide_eq_true_2.
  - repeat split; try assumption. congruence.
  - repeat split; try assumption. cbn. congruence.
Qed.

(** X6: once the manager is initialised, no sequence of transactions
    changes the registry address, the legacy minter address or the table
    of TLDs, nor makes it uninitialised again; and the resolver address
    changes only in a [setResolver] that its caller, the owner, commits. *)
Theorem initialised_storage_is_fixed (s s' : state) :
  rtc step s s' -> _initialized s = true ->
  _initialized s' = true /\ UnsRegistry s' = UnsRegistry s /\
  CryptoMinter s' = CryptoMinter s /\ _tlds s' = _tlds s /\
  (CryptoResolver s' <> CryptoResolver s ->
   exists s1 s2 e,
     rtc step s s1 /\ step s1 s2 /\ rtc step s2 s' /\
     _owner s1 = msg_sender e /\ setResolver e s1 (CryptoResolver s2) = Ret s2 /\
     CryptoResolver s2 <> CryptoResolver s1).
Proof.
  intros Hsteps. induction Hsteps as [s|s s1 s' Hstep Hsteps IH]; intros Hi.
  - repeat split; try assumption. congruence.
  - destruct (step_initialised _ _ Hstep Hi) as (Hi1 & Hr1 & Hm1 & Ht1 & Hres1).
    destruct (IH Hi1) as (Hi' & Hr' & Hm' & Ht' & Hres').
    repeat split; try congruence.
    intros Hne.
    destruct (decide (CryptoResolver s1 = CryptoResolver s)) as [Heq|Hne1].
    + destruct Hres' as (sa & sb & e & Ha & Hab & Hb & Ho & Hs & Hd); [congruence|].
      exists sa, sb, e. split; [by eapply rtc_l|]. by repeat split.
    + destruct (Hres1 Hne1) as (e & Ho & Hs).
      exists s, s1, e. split; [apply rtc_refl|]. by repeat split.
Qed.

Lemma initialised_storage_is_fixed_witness :
  rtc step example_state (set_roles 0 ∅ (set_CryptoResolver 0x5000 example_state)) /\
  _initialized example_state = true /\
  UnsRegistry (set_roles 0 ∅ (set_CryptoResolver 0x5000 example_state)) = 0x2000 /\
  _tlds (set_roles 0 ∅ (set_CryptoResolver 0x5000 example_state)) = _tlds example_state.
Proof.
  assert (Hsteps : rtc step example_state
                     (set_roles 0 ∅ (set_CryptoResolver 0x5000 example_state))).
  { eapply rtc_l; [|apply rtc_once, step_inherited].
    apply (step_setResolver example_env 0x5000). apply returns_Ret. }
  split; [exact Hsteps|]. split; [reflexivity|].
  destruct (initialised_storage_is_fixed _ _ Hsteps eq_refl) as (_ & Hr & _ & Ht & _).
  split; [exact Hr | exact Ht].
Defined.

Lemma tlds_get_initialized (e : env) (r m v tld : Z) (s : state) :
  _tlds s = ∅ ->
  tlds_get (initialize_storage e r m v s) tld =
  if bool_decide (tld = TLD_CRYPTO) then "crypto"
  else if bool_decide (tld = TLD_WALLET) then "wallet"
  else if bool_decide (tld = TLD_COIN) then "coin"
  else "".
Proof.
  intros Hs. rewrite <- (initialized_tlds e r m v tld).
  unfold tlds_get, initialize_storage, deployed. cbn [_tlds]. by rewrite Hs.
Qed.

(** What the table of TLDs is at any time: empty before [initialize],
    the three labels under their hashes after. *)
Lemma reachable_tlds (s : state) :
  rtc step deployed s ->
  forall tld,
    tlds_get s tld =
    if _initialized s then
      if bool_decide (tld = TLD_CRYPTO) then "crypto"
      else if bool_decide (tld = TLD_WALLET) then "wallet"
      else if bool_decide (tld = TLD_COIN) then "coin"
      else ""
    else "".
Proof.
  intros Hsteps.
  assert (Hinv : if _initialized s
                 then exists e r m v, _tlds s = _tlds (initialize_storage e r m v deployed)
                 else _tlds s = ∅).
  { revert s Hsteps.
    apply (rtc_ind_r (fun s =>
             if _initialized s
             then exists e r m v, _tlds s = _tlds (initialize_storage e r m v deployed)
             else _tlds s = ∅)); [reflexivity|].
    intros s1 s2 Hs Hstep IH.
    destruct Hstep as [e r m v s1 s2 H|e resolver s1 s2 H|e c s1 H|owner minters s1].
    - apply returns_initialize in H as [Hf ->]. rewrite Hf in IH.
      cbn [_initialized initialize_storage _tlds]. exists e, r, m, v.
      by rewrite IH.
    - apply returns_setResolver in H as [_ ->]. exact IH.
    - exact IH.
    - exact IH. }
  intros tld. destruct (_initialized s).
  - destruct Hinv as (e & r & m & v & Ht).
    rewrite <- (initialized_tlds e r m v tld). unfold tlds_get. by rewrite Ht.
  - unfold tlds_get. by rewrite Hinv.
Qed.

(** X7: at any time in the life of a manager, every TLD hash that has a
    label is the hash of that label under the root id 0, as the comment on
    [_tlds] has it, and is one of the three of [initialize]; those three
    have their labels from [initialize] on, whatever is called afterwards;
    and before [initialize] every call of the mint family reverts. *)
Theorem stored_tlds_are_hashes_of_their_labels (s : state) :
  rtc step deployed s ->
  (forall tld, tlds_get s tld <> "" ->
     tld = canonicalHash 0 (tlds_get s tld) /\
     tlds_get s tld ∈ ["crypto"; "wallet"; "coin"]) /\
  (_initialized s = true ->
     forall label, label ∈ ["crypto"; "wallet"; "coin"] ->
       tlds_get s (canonicalHash 0 label) = label) /\
  (_initialized s = false -> forall e c, exists f, exec e s c = Revert f).
Proof.
  intros Hsteps. pose proof (reachable_tlds s Hsteps) as Ht.
  destruct tld_constants_distinct as (Hcw & Hcc & Hwc).
  split; [|split].
  - intros tld. rewrite Ht. destruct (_initialized s); [|intros []; reflexivity].
    rewrite !elem_of_cons.
    case_bool_decide as H1;
      [subst tld; intros _; split; [exact (proj1 tld_hashes)|by left]|].
    case_bool_decide as H2;
      [subst tld; intros _; split; [exact (proj1 (proj2 tld_hashes))|by right; left]|].
    case_bool_decide as H3;
      [subst tld; intros _; split; [exact (proj2 (proj2 tld_hashes))|by right; right; left]|].
    intros []; reflexivity.
  - intros Hi label. rewrite !elem_of_cons, elem_of_nil, Ht, Hi.
    intros [->|[->|[->|[]]]].
    + rewrite <- (proj1 tld_hashes). by rewrite bool_decide_eq_true_2.
    + rewrite <- (proj1 (proj2 tld_hashes)).
      rewrite (bool_decide_eq_false_2 (TLD_WALLET = TLD_CRYPTO)) by (intros Hx; by apply Hcw).
      by rewrite bool_decide_eq_true_2.
    + rewrite <- (proj2 (proj2 tld_hashes)).
      rewrite (bool_decide_eq_false_2 (TLD_COIN = TLD_CRYPTO)) by (intros Hx; by apply Hcc).
      rewrite (bool_decide_eq_false_2 (TLD_COIN = TLD_WALLET)) by (intros Hx; by apply Hwc).
      by rewrite bool_decide_eq_true_2.
  - intros Hi e c. specialize (Ht (entry_tld c)). rewrite Hi in Ht.
    destruct (is_claim c) eqn:Hc'.
    + eexists. by apply exec_claim_unregistered.
    + destruct (isMinter s (msg_sender e)) eqn:Hm.
      * eexists. apply exec_tld_not_valid; [intros _; exact Hm | exact Ht].
      * eexists. by apply exec_not_minter.
Qed.

Lemma stored_tlds_are_hashes_of_their_labels_witness :
  rtc step deployed (initialize_storage example_env 0x2000 0x3000 0x4000 deployed) /\
  tlds_get (initialize_storage example_env 0x2000 0x3000 0x4000 deployed)
    (canonicalHash 0 "wallet") = "wallet".
Proof.
  assert (Hsteps : rtc step deployed
                     (initialize_storage example_env 0x2000 0x3000 0x4000 deployed)).
  { apply rtc_once, (step_initialize example_env 0x2000 0x3000 0x4000).
    rewrite initialize_unfold by reflexivity.
    apply (returns_Query _ _ _ true). cbn [negb bind].
    apply (returns_Query _ _ _ true). cbn [negb bind]. apply returns_Ret. }
  split; [exact Hsteps|].
  destruct (stored_tlds_are_hashes_of_their_labels _ Hsteps) as (_ & Hl & _).
  apply Hl; [reflexivity|]. rewrite !elem_of_cons. auto.
Defined.

(** ** [initialize] against any collaborators *)


(** ** The width of ids and selectors *)

Lemma be_to_Z_bound (bs : list Z) (acc : Z) :
  Forall (fun b => 0 <= b < 256) bs -> 0 <= acc ->
  0 <= Keccak.be_to_Z acc bs < (acc + 1) * 256 ^ Z.of_nat (List.length bs).
Proof.
  intros Hbs. revert acc. induction Hbs as [|b bs Hb Hbs IH]; intros acc Hacc.
  - cbn. lia.
  - cbn [Keccak.be_to_Z List.length]. rewrite Nat2Z.inj_succ, Z.pow_succ_r by lia.
    specialize (IH (256 * acc + b)). 
    assert (H256 : 0 < 256 ^ Z.of_nat (List.length bs)) by (apply Z.pow_pos_nonneg; lia).
    split; [apply IH; lia|].
    eapply Z.lt_le_trans; [apply IH; lia|]. nia.
Qed.

Lemma Z_to_le_bytes (n : nat) (v : Z) :
  Forall (fun b => 0 <= b < 256) (Keccak.Z_to_le n v) /\
  List.length (Keccak.Z_to_le n v) = n.
Proof.
  revert v. induction n as [|n IH]; intros v; cbn [Keccak.Z_to_le List.length].
  - split; [constructor|reflexivity].
  - destruct (IH (v / 256)) as [Hb Hl]. split.
    + constructor; [apply Z.mod_pos_bound; lia|exact Hb].
    + by rewrite Hl.
Qed.

Lemma keccak256_bound (bs : list Z) : 0 <= Keccak.keccak256 bs < 2 ^ 256.
Proof.
  unfold Keccak.keccak256, Keccak.keccak256_bytes.
  set (st := Keccak.absorb _ _ _).
  assert (Hl : (List.length (firstn 4 st) <= 4)%nat) by apply firstn_le_length.
  revert Hl. generalize (firstn 4 st). clear. intros l Hl.
  assert (H : Forall (fun b => 0 <= b < 256) (flat_map (Keccak.Z_to_le 8) l) /\
              List.length (flat_map (Keccak.Z_to_le 8) l) = (8 * List.length l)%nat).
  { clear Hl. induction l as [|x l [IHb IHl]].
    - split; [constructor|reflexivity].
    - change (flat_map (Keccak.Z_to_le 8) (x :: l))
        with (Keccak.Z_to_le 8 x ++ flat_map (Keccak.Z_to_le 8) l).
      destruct (Z_to_le_bytes 8 x) as [Hb Hlen]. split.
      + apply Forall_app. by split.
      + rewrite List.length_app, Hlen, IHl. cbn [List.length]. lia. }
  destruct H as [Hb Hlen].
  pose proof (be_to_Z_bound _ 0 Hb ltac:(lia)) as Hbound.
  rewrite Hlen in Hbound. split; [apply Hbound|].
  eapply Z.lt_le_trans; [apply Hbound|].
  rewrite Z.add_0_l, Z.mul_1_l.
  change (2 ^ 256) with (256 ^ 32).
  apply Z.pow_le_mono_r; lia.
Qed.

(** X9: the id [_childId] computes is a [uint256] and a selector is a
    [bytes4]: the integers that stand for them are within 256 and 32 bits,
    whatever the parent id, the label and the signature. *)
Theorem child_ids_are_uint256 (tokenId : Z) (label signature : string) :
  0 <= canonicalHash tokenId label < 2 ^ 256 /\
  (forall id, _childId tokenId label = Ret id -> 0 <= id < 2 ^ 256) /\
  0 <= selector signature < 2 ^ 32.
Proof.
  split; [apply keccak256_bound|]. split.
  - unfold _childId, require. destruct (negb _); cbn [bind]; [|discriminate].
    intros id Heq.
    assert (Hid : canonicalHash tokenId label = id) by congruence.
    rewrite <- Hid. apply keccak256_bound.
  - unfold selector.
    pose proof (keccak256_bound (encodePacked_string signature)) as Hk.
    rewrite Z.shiftr_div_pow2 by lia. split.
    + apply Z.div_pos; lia.
    + apply Z.div_lt_upper_bound; [lia|].
      change (2 ^ 224 * 2 ^ 32) with (2 ^ 256). lia.
Qed.

End MintingManagerFacts.

(* ===================================================================== *)
(** * Properties of the deployer *)
(* ===================================================================== *)

(** ** The task runner *)

Section RunnerFacts.

Import Deployer.
Context {Chain Deps Config : Type}.
Variable toLowerCase : string -> string.
Implicit Types (t : task Chain Deps Config) (ts : list (task Chain Deps Config)).
Implicit Types (w : world Chain) (requested : list string) (config : Config).

(** A task is selected when the lower case of a requested tag is among
    its tags. *)
Lemma selected_true requested t :
  selected toLowerCase requested t = true <->
  exists x, x ∈ requested /\ toLowerCase x ∈ tags t.
Proof.
  unfold selected. rewrite existsb_exists. split.
  - intros (x & Hx & Hin). apply bool_decide_eq_true in Hin.
    exists x. split; [by apply list_elem_of_In|exact Hin].
  - intros (x & Hx & Hin). exists x. split; [by apply list_elem_of_In|].
    by apply bool_decide_eq_true.
Qed.

(** Only the lower case of the requested tags counts. *)
Lemma selected_ext requested requested' t :
  (forall x, x ∈ toLowerCase <$> requested' <-> x ∈ toLowerCase <$> requested) ->
  selected toLowerCase requested' t = selected toLowerCase requested t.
Proof.
  intros Hsame. apply eq_true_iff_eq. rewrite !selected_true. split.
  - intros (x & Hx & Hin).
    assert (Hl : toLowerCase x ∈ toLowerCase <$> requested).
    { apply Hsame, list_elem_of_fmap. by exists x. }
    apply list_elem_of_fmap in Hl as (y & Hy & Hyin). exists y. by rewrite <- Hy.
  - intros (x & Hx & Hin).
    assert (Hl : toLowerCase x ∈ toLowerCase <$> requested').
    { apply Hsame, list_elem_of_fmap. by exists x. }
    apply list_elem_of_fmap in Hl as (y & Hy & Hyin). exists y. by rewrite <- Hy.
Qed.

Lemma selected_tasks_nil i requested :
  selected_tasks toLowerCase i (@nil (task Chain Deps Config)) requested = [].
Proof. reflexivity. Qed.

Lemma selected_tasks_cons i t ts requested :
  selected_tasks toLowerCase i (t :: ts) requested =
  if selected toLowerCase requested t
  then (i, t) :: selected_tasks toLowerCase (S i) ts requested
  else selected_tasks toLowerCase (S i) ts requested.
Proof.
  unfold selected_tasks. cbn [length seq zip zip_with].
  destruct (selected toLowerCase requested t) eqn:Hs.
  - rewrite filter_cons_True by exact Hs. reflexivity.
  - rewrite filter_cons_False by (cbn; congruence). reflexivity.
Qed.

Lemma selection_cons i t ts requested :
  selection toLowerCase i (t :: ts) requested =
  if selected toLowerCase requested t
  then i :: selection toLowerCase (S i) ts requested
  else selection toLowerCase (S i) ts requested.
Proof.
  unfold selection. rewrite selected_tasks_cons.
  by destruct (selected toLowerCase requested t).
Qed.

Lemma calls_cons (i : nat) (positions : list nat) :
  calls (i :: positions) = EnsureDependencies i :: Run i :: calls positions.
Proof. reflexivity. Qed.

(** The tasks selected are the selected tasks of the list, each at its
    position... *)
Lemma elem_of_selected_tasks i ts requested (j : nat) t :
  (j, t) ∈ selected_tasks toLowerCase i ts requested <->
  (i <= j)%nat /\ ts !! (j - i)%nat = Some t /\ selected toLowerCase requested t = true.
Proof.
  revert i. induction ts as [|t0 ts IH]; intros i.
  - rewrite selected_tasks_nil, elem_of_nil. split; [tauto|].
    intros (_ & Ht & _). discriminate Ht.
  - rewrite selected_tasks_cons.
    assert (Hrest : (j, t) ∈ selected_tasks toLowerCase (S i) ts requested <->
              (i < j)%nat /\ (t0 :: ts) !! (j - i)%nat = Some t /\
              selected toLowerCase requested t = true).
    { rewrite IH. split.
      - intros (Hle & Ht & Hs). split; [lia|]. split; [|exact Hs].
        replace (j - i)%nat with (S (j - S i)) by lia. exact Ht.
      - intros (Hlt & Ht & Hs). split; [lia|]. split; [|exact Hs].
        replace (j - i)%nat with (S (j - S i)) in Ht by lia. exact Ht. }
    destruct (selected toLowerCase requested t0) eqn:Hs.
    + rewrite elem_of_cons, Hrest. split.
      * intros [[= -> ->]|(Hlt & Hex)]; [|split; [lia|exact Hex]].
        split; [lia|]. rewrite Nat.sub_diag. split; [reflexivity|exact Hs].
      * intros (Hle & Ht & Hs').
        destruct (decide (j = i)) as [->|Hne].
        -- left. rewrite Nat.sub_diag in Ht. cbn in Ht. congruence.
        -- right. split; [lia|]. by split.
    + rewrite Hrest. split.
      * intros (Hlt & Hex). split; [lia|exact Hex].
      * intros (Hle & Ht & Hs').
        destruct (decide (j = i)) as [->|Hne].
        -- rewrite Nat.sub_diag in Ht. cbn in Ht. congruence.
        -- split; [lia|]. by split.
Qed.

(** ... in the order of the list. *)
Lemma selection_sorted i ts requested :
  StronglySorted lt (selection toLowerCase i ts requested).
Proof.
  revert i. induction ts as [|t ts IH]; intros i.
  - constructor.
  - rewrite selection_cons. destruct (selected toLowerCase requested t); [|apply IH].
    constructor; [apply IH|].
    apply Forall_forall. intros j Hj.
    unfold selection in Hj. apply list_elem_of_fmap in Hj as ([j' t'] & -> & Hin).
    apply elem_of_selected_tasks in Hin. cbn. lia.
Qed.

Lemma run_in_turn_cons config t ts w :
  run_in_turn config (t :: ts) w =
  match run_task config w t with
  | Some w' => run_in_turn config ts w'
  | None => None
  end.
Proof.
  unfold run_in_turn. cbn [foldl mbind option_bind].
  destruct (run_task config w t) as [w'|]; [reflexivity|].
  induction ts as [|t' ts IH]; [reflexivity|exact IH].
Qed.

Lemma run_in_turn_snoc config ts t w :
  run_in_turn config (ts ++ [t]) w =
  w' ← run_in_turn config ts w; run_task config w' t.
Proof. unfold run_in_turn. by rewrite foldl_app. Qed.

(** The world the loop leaves is the world the selected tasks leave, run
    one after the other. *)
Lemma executeTasks_world i ts requested config w :
  (executeTasks toLowerCase i ts requested config w).2 =
  run_in_turn config (selected_tasks toLowerCase i ts requested).*2 w.
Proof.
  revert i w. induction ts as [|t ts IH]; intros i w; cbn [executeTasks].
  - reflexivity.
  - rewrite selected_tasks_cons.
    destruct (selected toLowerCase requested t); cbn [negb]; [|apply IH].
    cbn [fmap list_fmap snd]. rewrite run_in_turn_cons. unfold run_task.
    destruct (ensureDependencies t w config) as [d|]; cbn [mbind option_bind];
      [|reflexivity].
    destruct (run t w d) as [w'|]; [|reflexivity].
    specialize (IH (S i) w').
    by destruct (executeTasks toLowerCase (S i) ts requested config w') as [evs r].
Qed.

(** The loop makes the calls for the selected tasks, in order, up to the
    first call that throws. *)
Lemma executeTasks_prefix i ts requested config w :
  (executeTasks toLowerCase i ts requested config w).1
    `prefix_of` calls (selection toLowerCase i ts requested).
Proof.
  revert i w. induction ts as [|t ts IH]; intros i w; cbn [executeTasks].
  - apply prefix_nil.
  - rewrite selection_cons. destruct (selected toLowerCase requested t); cbn [negb].
    + rewrite calls_cons.
      destruct (ensureDependencies t w config) as [d|]; cbn [fst].
      * destruct (run t w d) as [w'|]; cbn [fst].
        -- specialize (IH (S i) w').
           destruct (executeTasks toLowerCase (S i) ts requested config w') as [evs r];
             cbn [fst] in *.
           by do 2 apply prefix_cons.
        -- do 2 apply prefix_cons. apply prefix_nil.
      * apply prefix_cons, prefix_nil.
    + apply IH.
Qed.

Lemma executeTasks_returned i ts requested config w evs w' :
  executeTasks toLowerCase i ts requested config w = (evs, Some w') ->
  evs = calls (selection toLowerCase i ts requested).
Proof.
  revert i w evs. induction ts as [|t ts IH]; intros i w evs; cbn [executeTasks].
  - intros [= <- _]. reflexivity.
  - rewrite selection_cons. destruct (selected toLowerCase requested t); cbn [negb].
    + rewrite calls_cons.
      destruct (ensureDependencies t w config) as [d|]; [|discriminate].
      destruct (run t w d) as [w1|]; [|discriminate].
      specialize (IH (S i) w1).
      destruct (executeTasks toLowerCase (S i) ts requested config w1) as [evs1 r].
      intros [= <- ->]. f_equal. f_equal. by apply IH.
    + apply IH.
Qed.

(** When a call throws, the calls made are those for the selected tasks
    before the one that threw, in full, and then the calls of that one up
    to the one that threw. *)
Lemma executeTasks_threw i ts requested config w evs :
  executeTasks toLowerCase i ts requested config w = (evs, None) ->
  exists (k : nat) (j : nat) t w0,
    selected_tasks toLowerCase i ts requested !! k = Some (j, t) /\
    run_in_turn config (take k (selected_tasks toLowerCase i ts requested).*2) w = Some w0 /\
    run_task config w0 t = None /\
    evs = calls (take k (selection toLowerCase i ts requested)) ++
          EnsureDependencies j ::
          (if ensureDependencies t w0 config is Some _ then [Run j] else []).
Proof.
  revert i w evs. induction ts as [|t ts IH]; intros i w evs; cbn [executeTasks].
  - discriminate.
  - rewrite selection_cons, selected_tasks_cons.
    destruct (selected toLowerCase requested t); cbn [negb]; [|apply IH].
    destruct (ensureDependencies t w config) as [d|] eqn:Hd.
    + destruct (run t w d) as [w1|] eqn:Hr.
      * specialize (IH (S i) w1).
        destruct (executeTasks toLowerCase (S i) ts requested config w1) as [evs1 r].
        intros [= <- ->].
        destruct (IH evs1 eq_refl) as (k & j & t' & w0 & Hk & Hw0 & Ht' & ->).
        exists (S k), j, t', w0. split; [exact Hk|]. split; [|split; [exact Ht'|]].
        -- cbn [fmap list_fmap snd take]. rewrite run_in_turn_cons.
           unfold run_task at 1. rewrite Hd. cbn [mbind option_bind]. by rewrite Hr.
        -- cbn [take]. by rewrite calls_cons.
      * intros [= <-]. exists 0%nat, i, t, w. split; [reflexivity|].
        split; [reflexivity|]. split.
        -- unfold run_task. rewrite Hd. exact Hr.
        -- rewrite Hd. reflexivity.
    + intros [= <-]. exists 0%nat, i, t, w. split; [reflexivity|].
      split; [reflexivity|]. split.
      * unfold run_task. by rewrite Hd.
      * rewrite Hd. reflexivity.
Qed.

(** When no call throws, the tasks all run. *)
Lemma run_in_turn_total config ts w :
  (forall t w, t ∈ ts -> is_Some (ensureDependencies t w config)) ->
  (forall t w d, t ∈ ts -> is_Some (run t w d)) ->
  is_Some (run_in_turn config ts w).
Proof.
  revert w. induction ts as [|t ts IH]; intros w He Hr.
  - by eexists.
  - rewrite run_in_turn_cons. unfold run_task.
    destruct (He t w) as [d ->]; [by left|]. cbn [mbind option_bind].
    destruct (Hr t w d) as [w1 ->]; [by left|].
    apply IH; intros; [apply He | apply Hr]; by right.
Qed.

Lemma executeTasks_none i ts config w :
  executeTasks toLowerCase i ts [] config w = ([], Some w).
Proof. revert i. induction ts as [|t ts IH]; intros i; cbn; [reflexivity|apply IH]. Qed.

Lemma executeTasks_ext i ts requested requested' config w :
  (forall t, selected toLowerCase requested' t = selected toLowerCase requested t) ->
  executeTasks toLowerCase i ts requested' config w =
  executeTasks toLowerCase i ts requested config w.
Proof.
  intros Hs. revert i w. induction ts as [|t ts IH]; intros i w; cbn [executeTasks].
  - reflexivity.
  - rewrite Hs. destruct (selected toLowerCase requested t); cbn [negb]; [|apply IH].
    destruct (ensureDependencies t w config) as [d|]; [|reflexivity].
    destruct (run t w d) as [w1|]; [|reflexivity]. by rewrite IH.
Qed.

(** C8: [execute] runs the tasks of [this.tasks] (deployCNS, deployUNS,
    configureCNS, upgradeUNS) that have, among their tags, the lower case
    of a requested tag, and no other; it runs them in this order, each on
    the world the one before left: the task's [ensureDependencies] is
    called on that world with [config], then its [run] on the same world
    with what [ensureDependencies] returned.  It returns, with the
    rendering of the store these left, when none of them throws and the
    rendering does not; a call that throws is the last call made.  Without
    tags, or with none, no task runs.  Of the requested tags only the lower
    case counts.  ([toLowerCase] is the built-in, whatever it maps a string
    to; the tasks are any four tasks.) *)
Theorem execute_runs_selected_tasks (other : value -> option string) (opts : options)
    (chainId : Z)
    (deployCNSTask deployUNSTask configureCNSTask upgradeUNSTask : task Chain Deps Config)
    (requested : option (list string)) config w :
  let ts := [deployCNSTask; deployUNSTask; configureCNSTask; upgradeUNSTask] in
  let given := default [] requested in
  let chosen := selected_tasks toLowerCase 0 ts given in
  let execute := execute toLowerCase opts chainId other deployCNSTask deployUNSTask
                   configureCNSTask upgradeUNSTask in
  (forall i t, (i, t) ∈ chosen <->
     ts !! i = Some t /\ exists x, x ∈ given /\ toLowerCase x ∈ tags t) /\
  StronglySorted lt chosen.*1 /\
  (execute requested config w).2 =
    (w' ← run_in_turn config chosen.*2 w;
     view ← getNetworkConfig opts chainId other (files w');
     Some (w', view)) /\
  (execute requested config w).1 `prefix_of` calls chosen.*1 /\
  (is_Some (run_in_turn config chosen.*2 w) ->
     (execute requested config w).1 = calls chosen.*1) /\
  (run_in_turn config chosen.*2 w = None ->
     exists (k : nat) (i : nat) t w0,
       chosen !! k = Some (i, t) /\
       run_in_turn config (take k chosen.*2) w = Some w0 /\
       run_task config w0 t = None /\
       (execute requested config w).1 =
         calls (take k chosen.*1) ++
         EnsureDependencies i :: (if ensureDependencies t w0 config is Some _ then [Run i] else [])) /\
  ((forall t w, t ∈ ts -> is_Some (ensureDependencies t w config)) ->
   (forall t w d, t ∈ ts -> is_Some (run t w d)) ->
   exists w', run_in_turn config chosen.*2 w = Some w' /\
     execute requested config w =
       (calls chosen.*1,
        view ← getNetworkConfig opts chainId other (files w'); Some (w', view))) /\
  (requested = None \/ requested = Some [] ->
     execute requested config w =
     ([], view ← getNetworkConfig opts chainId other (files w); Some (w, view))) /\
  (forall requested',
     (forall x, x ∈ toLowerCase <$> requested' <-> x ∈ toLowerCase <$> given) ->
     execute (Some requested') config w = execute requested config w).
Proof.
  intros ts given chosen exec.
  pose proof (executeTasks_world 0 ts given config w) as Hworld.
  pose proof (executeTasks_prefix 0 ts given config w) as Hprefix.
  pose proof (executeTasks_returned 0 ts given config w) as Hreturned.
  pose proof (executeTasks_threw 0 ts given config w) as Hthrew.
  fold chosen in Hworld. unfold selection in Hprefix, Hreturned, Hthrew.
  fold chosen in Hprefix, Hreturned, Hthrew.
  assert (Hexec : exec requested config w =
            ((executeTasks toLowerCase 0 ts given config w).1,
             w' ← (executeTasks toLowerCase 0 ts given config w).2;
             view ← getNetworkConfig opts chainId other (files w');
             Some (w', view))).
  { unfold exec, execute, tasks. fold ts given.
    by destruct (executeTasks toLowerCase 0 ts given config w) as [evs r]. }
  destruct (executeTasks toLowerCase 0 ts given config w) as [evs r] eqn:Hloop.
  cbn [fst snd] in *. subst r.
  split; [|split; [|split; [|split; [|split; [|split; [|split; [|split]]]]]]].
  - intros i t. unfold chosen. rewrite elem_of_selected_tasks, Nat.sub_0_r.
    rewrite selected_true. split.
    + intros (_ & Ht & Hs). by split.
    + intros (Ht & Hs). split; [lia|]. by split.
  - apply selection_sorted.
  - by rewrite Hexec.
  - by rewrite Hexec.
  - intros [w' Hw']. rewrite Hexec. cbn [fst]. apply (Hreturned evs w').
    by rewrite Hw'.
  - intros Hnone. rewrite Hexec. cbn [fst]. apply Hthrew. by rewrite Hnone.
  - intros He Hr.
    destruct (run_in_turn_total config chosen.*2 w) as [w' Hw'].
    + intros t w0 Ht. apply He. apply list_elem_of_fmap in Ht as ([i t'] & -> & Hin).
      apply elem_of_selected_tasks in Hin as (_ & Hin & _).
      by eapply list_elem_of_lookup_2.
    + intros t w0 d Ht. apply Hr. apply list_elem_of_fmap in Ht as ([i t'] & -> & Hin).
      apply elem_of_selected_tasks in Hin as (_ & Hin & _).
      by eapply list_elem_of_lookup_2.
    + exists w'. split; [exact Hw'|]. rewrite Hexec, Hw'. cbn [mbind option_bind].
      f_equal. apply (Hreturned evs w'). by rewrite Hw'.
  - intros Hreq.
    assert (Hd : given = []) by (destruct Hreq as [->| ->]; reflexivity).
    rewrite Hexec. rewrite Hd, executeTasks_none in Hloop.
    by injection Hloop as <- <-.
  - intros requested' Hsame. rewrite Hexec.
    unfold exec, execute, tasks. fold ts. cbn [default]. repeat change (id ?x) with x.
    rewrite (executeTasks_ext 0 ts given requested')
      by (intros t; by apply selected_ext).
    by rewrite Hloop.
Qed.

End RunnerFacts.

(** With the tag [FULL] the three tasks tagged [full] run, in order (the
    third finds the two deployments it depends on); the fourth is not
    selected. *)
Example execute_full :
  Deployer.execute Deployer.toLowerCase_ascii Deployer.defaultOptions 4 (fun _ => None)
    (Deployer.example_task ["cns"; "full"]) (Deployer.example_task ["uns"; "full"])
    Deployer.example_configure (Deployer.example_task ["upgrade"])
    (Some ["FULL"]) tt Deployer.example_world =
  ([Deployer.EnsureDependencies 0; Deployer.Run 0; Deployer.EnsureDependencies 1;
    Deployer.Run 1; Deployer.EnsureDependencies 2; Deployer.Run 2],
   Some ({| Deployer.files := ∅; Deployer.chain := 2%nat |},
         Deployer.network_view 4 ∅)).
Proof. vm_compute. reflexivity. Qed.

(** With the tag [Config] alone the third task is the only one selected,
    and it throws before running. *)
Example execute_config_throws :
  Deployer.execute Deployer.toLowerCase_ascii Deployer.defaultOptions 4 (fun _ => None)
    (Deployer.example_task ["cns"; "full"]) (Deployer.example_task ["uns"; "full"])
    Deployer.example_configure (Deployer.example_task ["upgrade"])
    (Some ["Config"]) tt Deployer.example_world =
  ([Deployer.EnsureDependencies 2], None).
Proof. vm_compute. reflexivity. Qed.

(** ** JSON documents *)

Section StoreFacts.

Import Deployer.

Lemma depth_field (fields : gmap string value) (k : string) (u : value) :
  fields !! k = Some u -> (depth u < depth (VObj fields))%nat.
Proof.
  intros Hk. cbn [depth]. apply Nat.lt_succ_r, max_list_elem_of_le.
  apply list_elem_of_fmap. exists (k, depth u). split; [reflexivity|].
  apply elem_of_map_to_list. by rewrite lookup_fmap, Hk.
Qed.

Lemma depth_item (items : list value) (u : value) :
  u ∈ items -> (depth u < depth (VArr items))%nat.
Proof.
  intros Hu. cbn [depth]. apply Nat.lt_succ_r, max_list_elem_of_le.
  apply list_elem_of_fmap. by exists u.
Qed.

(** Induction on the nesting of a value. *)
Lemma value_nested_ind (P : value -> Prop) :
  P VUndefined -> P VNull -> (forall b, P (VBool b)) -> (forall n, P (VNum n)) ->
  (forall s, P (VStr s)) ->
  (forall items, Forall P items -> P (VArr items)) ->
  (forall fields, map_Forall (fun _ => P) fields -> P (VObj fields)) ->
  (forall j, P j -> P (VInst j)) ->
  forall v, P v.
Proof.
  intros Hu Hn Hb Hz Hs Ha Ho Hi v.
  remember (depth v) as d eqn:Hd. revert v Hd.
  induction d as [d IH] using lt_wf_ind. intros v ->.
  destruct v as [| |b|n|s|items|fields|j]; auto.
  - apply Ha, Forall_forall. intros u Hu'.
    eapply IH; [|reflexivity]. by apply depth_item.
  - apply Ho. intros k u Hk. eapply IH; [|reflexivity]. by eapply depth_field.
  - apply Hi. eapply IH; [|reflexivity]. cbn. lia.
Qed.

Lemma is_json_field (fields : gmap string value) (k : string) (u : value) :
  is_json (VObj fields) = true -> fields !! k = Some u -> is_json u = true.
Proof.
  cbn [is_json]. intros Hj Hk. apply bool_decide_eq_true in Hj.
  apply (Hj k). by rewrite lookup_fmap, Hk.
Qed.

Lemma is_json_not_undefined (v : value) : is_json v = true -> v <> VUndefined.
Proof. by intros Hj ->. Qed.

(** Writing a parsed document and parsing it again gives it back. *)
Lemma to_json_id (v : value) : is_json v = true -> to_json v = v.
Proof.
  induction v as [| |b|n|s|items IH|fields IH|j IH] using value_nested_ind;
    intros Hj; try reflexivity; try discriminate.
  - cbn [to_json is_json] in *. f_equal.
    induction items as [|x items IHl]; [reflexivity|].
    cbn in Hj. apply andb_prop in Hj as [Hx Hl].
    apply Forall_cons in IH as [IHx IHitems].
    cbn. rewrite (IHx Hx), (IHl IHitems Hl).
    by destruct x.
  - cbn [to_json]. f_equal. apply map_eq. intros k. rewrite lookup_omap.
    destruct (fields !! k) as [u|] eqn:Hk; [|reflexivity]. cbn.
    pose proof (is_json_field _ _ _ Hj Hk) as Hu.
    rewrite (IH k u Hk Hu). by destruct u.
Qed.


(** ** The rendering *)

Lemma get_field (v : value) (k : string) :
  v <> VUndefined -> v <> VNull ->
  get v k = Some (default VUndefined (field v k)).
Proof. intros Hu Hn. by destruct v. Qed.

Lemma toHex_in_range (n : Z) :
  0 <= n < MAX_SAFE -> BigNumber_from_number n = Some (toHex n).
Proof.
  intros [H0 H1]. unfold BigNumber_from_number.
  destruct (Z.leb_spec MAX_SAFE n) as [?|_]; [lia|].
  destruct (Z.leb_spec n (- MAX_SAFE)) as [Hneg|_];
    [assert (0 < MAX_SAFE) by reflexivity; lia|].
  cbn [orb]. destruct (Z.ltb_spec n 0); [lia|reflexivity].
Qed.

(** The four properties of a rendered entry, however they were set. *)
Lemma rendered_fields (a i : value) (d : string) :
  <["deploymentBlock" := VStr d]>
    (<["implementation" := i]> (<["address" := a]> emptyConfig)) =
  ({[ "address" := a; "implementation" := i; "legacyAddresses" := VArr [];
      "deploymentBlock" := VStr d ]} : gmap string value).
Proof.
  unfold emptyConfig. apply map_eq. intros k.
  destruct (decide (k = "deploymentBlock")) as [->|?]; [by simplify_map_eq|].
  destruct (decide (k = "implementation")) as [->|?]; [by simplify_map_eq|].
  destruct (decide (k = "address")) as [->|?]; [by simplify_map_eq|].
  destruct (decide (k = "legacyAddresses")) as [->|?]; by simplify_map_eq.
Qed.

Lemma wf_entry_transaction (other : value -> option string) (entry : value) :
  wf_entry other entry = true ->
  entry <> VUndefined /\ entry <> VNull /\
  forall transaction, field entry "transaction" = Some transaction ->
    truthy transaction = true ->
    is_Some (BigNumber_from_toHexString other
               (default VUndefined (field transaction "blockNumber"))).
Proof.
  intros Hwf. split; [by intros ->|]. split; [by intros ->|].
  intros t Ht Htruthy.
  assert (Hwf' :
    negb (truthy t) ||
    match BigNumber_from_toHexString other
            (default VUndefined (field t "blockNumber")) with
    | Some _ => true
    | None => false
    end = true).
  { destruct entry; try discriminate; cbn [wf_entry] in Hwf;
      by rewrite Ht in Hwf. }
  rewrite Htruthy in Hwf'. cbn [negb orb] in Hwf'.
  by destruct (BigNumber_from_toHexString other _).
Qed.

Lemma networkEntry_rendered (other : value -> option string) (entry : value) :
  wf_entry other entry = true ->
  networkEntry other entry = Some (rendered other entry).
Proof.
  intros Hwf. destruct (wf_entry_transaction other entry Hwf) as (Hu & Hn & Hb).
  unfold networkEntry, rendered, deploymentBlock.
  rewrite !get_field by assumption. cbn [mbind option_bind].
  destruct (field entry "transaction") as [t|]; cbn [default];
    repeat change (id ?x) with x.
  - destruct (truthy t) eqn:Ht.
    + destruct (Hb t eq_refl Ht) as [block Hblock].
      rewrite get_field by (intros ->; discriminate). cbn [mbind option_bind].
      rewrite Hblock. cbn [mbind option_bind default]. by rewrite rendered_fields.
    + cbn [mbind option_bind]. by rewrite rendered_fields.
  - cbn [truthy mbind option_bind]. by rewrite rendered_fields.
Qed.

Lemma networkContracts_inserts (other : value -> option string)
    (entries : list (string * value)) (acc : gmap string value) :
  Forall (fun kv => wf_entry other kv.2 = true) entries ->
  foldl (fun acc kv =>
           contracts ← acc; entry ← networkEntry other kv.2;
           Some (if bool_decide (kv.1 = "__proto__") then contracts
                 else <[kv.1 := entry]> contracts))
        (Some acc) entries =
  Some (foldl (fun m kv => if bool_decide (kv.1 = "__proto__") then m
                           else <[kv.1 := rendered other kv.2]> m) acc entries).
Proof.
  revert acc. induction entries as [|[k v] l IH]; intros acc Hwf; [reflexivity|].
  apply Forall_cons in Hwf as [Hv Hl]. cbn [foldl fst snd mbind option_bind] in *.
  rewrite (networkEntry_rendered other v Hv). cbn [mbind option_bind]. by apply IH.
Qed.

Lemma foldl_insert_rendered (other : value -> option string)
    (entries : list (string * value)) (acc : gmap string value) :
  NoDup entries.*1 ->
  foldl (fun m kv => if bool_decide (kv.1 = "__proto__") then m
                     else <[kv.1 := rendered other kv.2]> m) acc entries =
  (rendered other <$> delete "__proto__" (list_to_map entries)) ∪ acc.
Proof.
  revert acc. induction entries as [|[k v] l IH]; intros acc Hnd.
  - cbn [foldl list_to_map foldr]. by rewrite delete_empty, fmap_empty, map_empty_union.
  - apply NoDup_cons in Hnd as [Hk Hnd]. cbn [foldl fst snd list_to_map foldr].
    rewrite (IH _ Hnd). case_bool_decide as Hproto.
    + subst k. f_equal. f_equal. apply map_eq. intros j.
      destruct (decide (j = "__proto__")) as [->|Hj].
      * by rewrite !lookup_delete_eq.
      * by rewrite !lookup_delete_ne, lookup_insert_ne by congruence.
    + rewrite delete_insert_ne by congruence.
      rewrite fmap_insert, <- insert_union_l, insert_union_r; [reflexivity|].
      rewrite lookup_fmap, lookup_delete_ne by congruence.
      by rewrite (not_elem_of_list_to_map_1 _ _ Hk).
Qed.

Lemma networkContracts_entries (other : value -> option string)
    (entries : gmap string value) :
  map_Forall (fun _ entry => wf_entry other entry = true) entries ->
  networkContracts other (map_to_list entries) =
  Some (rendered other <$> delete "__proto__" entries).
Proof.
  intros Hwf. unfold networkContracts.
  rewrite networkContracts_inserts.
  - rewrite foldl_insert_rendered by apply NoDup_fst_map_to_list.
    by rewrite list_to_map_to_list, map_union_empty.
  - apply Forall_forall. intros [k v] Hkv. apply elem_of_map_to_list in Hkv.
    exact (Hwf k v Hkv).
Qed.

Lemma getNetworkConfig_view (other : value -> option string) (opts : options)
    (chainId : Z) (files : gmap string file) (config : value) :
  getDeployConfig opts chainId files = Some config ->
  wf_record other config = true ->
  getNetworkConfig opts chainId other files =
  Some (network_view chainId (rendered other <$> delete "__proto__" (recorded config))).
Proof.
  intros Hc Hwf. unfold getNetworkConfig. rewrite Hc. cbn [mbind option_bind].
  destruct config as [| |b|n|s|l|fields|j]; try discriminate.
  unfold recorded. cbn [get field wf_record] in *.
  destruct (fields !! "contracts") as [c|]; cbn [default mbind option_bind];
    repeat change (id ?x) with x.
  - destruct c as [| |b|n|s|l|entries|j]; try discriminate.
    apply bool_decide_eq_true in Hwf. cbn [truthy Object_entries].
    by rewrite (networkContracts_entries _ _ Hwf).
  - cbn [truthy Object_entries].
    rewrite map_to_list_empty, delete_empty, fmap_empty. reflexivity.
Qed.

(** What the view holds below a contract, and that it has one network. *)
Lemma at_path_network_view (chainId : Z) (contracts : gmap string value)
    (name : string) (rest : list string) :
  at_path (network_view chainId contracts)
    ("networks" :: pretty chainId :: "contracts" :: name :: rest) =
  contracts !! name ≫= fun entry => at_path entry rest.
Proof.
  unfold network_view. cbn [at_path field mbind option_bind].
  rewrite lookup_singleton_eq. cbn [mbind option_bind field].
  rewrite lookup_singleton_eq. cbn [mbind option_bind field].
  rewrite lookup_singleton_eq. reflexivity.
Qed.

Lemma at_path_network_view_other (chainId : Z) (contracts : gmap string value)
    (key : string) :
  key <> pretty chainId ->
  at_path (network_view chainId contracts) ["networks"; key] = None.
Proof.
  intros Hne. unfold network_view. cbn [at_path field mbind option_bind].
  rewrite lookup_singleton_eq. cbn [mbind option_bind field].
  by rewrite lookup_singleton_ne.
Qed.

(** C7, as stated, fails: the rendering does not show the legacy
    addresses of the record. *)
Lemma legacyAddresses_not_reflected :
  ~ (forall (other : value -> option string) (opts : options) (chainId : Z)
            (files : gmap string file) (config : value),
       getDeployConfig opts chainId files = Some config ->
       is_json config = true ->
       wf_record other config = true ->
       getNetworkConfig opts chainId other files =
       Some (network_view chainId (rendered_with_legacy other <$> recorded config))).
Proof.
  intros H.
  specialize (H (fun _ => None) defaultOptions 4 example_files example_record).
  rewrite (getNetworkConfig_view (fun _ => None) defaultOptions 4 example_files
             example_record) in H
    by (vm_compute; reflexivity).
  assert (Hl : forall v : value,
            Some (network_view 4
                    (rendered (fun _ => None) <$> delete "__proto__" (recorded example_record)))
              = Some v ->
            at_path v ["networks"; "4"; "contracts"; "UNSRegistry"; "legacyAddresses"] =
            Some (VArr [])).
  { intros v [= <-]. vm_compute. reflexivity. }
  specialize (Hl _ (H ltac:(vm_compute; reflexivity) ltac:(vm_compute; reflexivity)
                      ltac:(vm_compute; reflexivity))).
  vm_compute in Hl. discriminate Hl.
Qed.

(** C7, amended: for a parsed record of the persisted shape (an object
    whose [contracts], if any, is an object of entries that are not [null],
    a recorded transaction carrying a block number [BigNumber.from] takes),
    [getNetworkConfig] returns, under the one network key that is the
    chain id, one entry for each recorded program not named [__proto__],
    and no other.  The entry holds the recorded address and
    implementation, the empty list as [legacyAddresses] whatever the record
    has there, and as [deploymentBlock] the hex string of the transaction's
    block number ([toHex] of it when it is a number of a block), or ["0x0"]
    when no transaction is recorded.  On an empty store that is no contract
    at all.  ([other] is what [BigNumber.from] makes of a string, an array
    or an object.) *)
Theorem getNetworkConfig_renders (other : value -> option string) (opts : options)
    (chainId : Z) (files : gmap string file) (config : value) :
  getDeployConfig opts chainId files = Some config ->
  is_json config = true ->
  wf_record other config = true ->
  let view :=
    network_view chainId (rendered other <$> delete "__proto__" (recorded config)) in
  let below name path :=
    at_path view ("networks" :: pretty chainId :: "contracts" :: name :: path) in
  getNetworkConfig opts chainId other files = Some view /\
  (forall name entry, recorded config !! name = Some entry -> name <> "__proto__" ->
     below name ["address"] = Some (default VUndefined (field entry "address")) /\
     below name ["implementation"] =
       Some (default VUndefined (field entry "implementation")) /\
     below name ["legacyAddresses"] = Some (VArr []) /\
     (forall property,
        property ∉ ["address"; "implementation"; "legacyAddresses"; "deploymentBlock"] ->
        below name [property] = None) /\
     exists block,
       below name ["deploymentBlock"] = Some (VStr block) /\
       match field entry "transaction" with
       | Some transaction =>
           if truthy transaction
           then BigNumber_from_toHexString other
                  (default VUndefined (field transaction "blockNumber")) = Some block
           else block = "0x0"
       | None => block = "0x0"
       end /\
       (forall transaction n,
          field entry "transaction" = Some transaction -> truthy transaction = true ->
          field transaction "blockNumber" = Some (VNum n) -> 0 <= n < MAX_SAFE ->
          block = toHex n)) /\
  (forall name, recorded config !! name = None \/ name = "__proto__" ->
     below name [] = None) /\
  (forall key, key <> pretty chainId -> at_path view ["networks"; key] = None) /\
  (files !! configPath opts chainId = None -> view = network_view chainId ∅).
Proof.
  intros Hc _ Hwf view below.
  split; [by apply getNetworkConfig_view|]. split; [|split; [|split]].
  - intros name entry Hentry Hname.
    assert (Hbelow : forall path, below name path = at_path (rendered other entry) path).
    { intros path. unfold below, view. rewrite at_path_network_view.
      by rewrite lookup_fmap, lookup_delete_ne, Hentry by congruence. }
    assert (Hwfe : wf_entry other entry = true).
    { destruct config as [| |?|?|?|?|fields|?]; try discriminate.
      unfold recorded in Hentry. cbn [wf_record field] in *.
      destruct (fields !! "contracts") as [[| |?|?|?|?|entries|?]|];
        try discriminate; try (by rewrite lookup_empty in Hentry).
      apply bool_decide_eq_true in Hwf. by apply (Hwf name). }
    destruct (wf_entry_transaction other entry Hwfe) as (_ & _ & Hb).
    rewrite !Hbelow. unfold rendered. cbn [at_path field mbind option_bind].
    split; [by simplify_map_eq|]. split; [by simplify_map_eq|].
    split; [by simplify_map_eq|]. split.
    { intros property Hp. rewrite Hbelow. cbn [at_path field mbind option_bind].
      rewrite !not_elem_of_cons in Hp. destruct Hp as (? & ? & ? & ? & _).
      by simplify_map_eq. }
    exists (deploymentBlock other entry). split; [by simplify_map_eq|].
    unfold deploymentBlock.
    destruct (field entry "transaction") as [t|]; [|split; [reflexivity|discriminate]].
    destruct (truthy t) eqn:Ht; [|split; [reflexivity|congruence]].
    destruct (Hb t eq_refl Ht) as [block Hblock]. rewrite Hblock. cbn [default].
    repeat change (id ?x) with x. split; [reflexivity|].
    intros t' n [= <-] _ Hn Hrange. rewrite Hn in Hblock. cbn in Hblock.
    rewrite toHex_in_range in Hblock by assumption.
    repeat change (id ?x) with x. congruence.
  - intros name Hname. unfold below, view. rewrite at_path_network_view.
    rewrite lookup_fmap. destruct Hname as [Hnone| ->].
    + destruct (decide (name = "__proto__")) as [->|Hne].
      * by rewrite lookup_delete_eq.
      * by rewrite lookup_delete_ne, Hnone by congruence.
    + by rewrite lookup_delete_eq.
  - intros key Hkey. by apply at_path_network_view_other.
  - intros Hnone. unfold getDeployConfig in Hc. rewrite Hnone in Hc.
    injection Hc as <-. unfold view, recorded. cbn [field].
    by rewrite lookup_empty, delete_empty, fmap_empty.
Qed.

Lemma getNetworkConfig_renders_witness :
  getDeployConfig defaultOptions 4 example_files = Some example_record /\
  is_json example_record = true /\
  wf_record (fun _ => None) example_record = true /\
  exists view,
    getNetworkConfig defaultOptions 4 (fun _ => None) example_files = Some view /\
    at_path view ["networks"; "4"; "contracts"; "UNSRegistry"; "legacyAddresses"] =
      Some (VArr []) /\
    at_path view ["networks"; "4"; "contracts"; "UNSRegistry"; "deploymentBlock"] =
      Some (VStr (toHex 8775208)).
Proof.
  assert (H1 : getDeployConfig defaultOptions 4 example_files = Some example_record)
    by (vm_compute; reflexivity).
  assert (H2 : wf_record (fun _ => None) example_record = true)
    by (vm_compute; reflexivity).
  assert (H3 : is_json example_record = true) by (vm_compute; reflexivity).
  split; [exact H1|]. split; [exact H3|]. split; [exact H2|].
  destruct (getNetworkConfig_renders (fun _ => None) defaultOptions 4 example_files
              example_record H1 H3 H2) as (Hview & Hentries & _).
  eexists. split; [exact Hview|].
  destruct (Hentries "UNSRegistry"
              (VObj {[
                 "address" := VStr "0x7fb83000B8eD59D3eAD22f0D584Df3a85fBC0086";
                 "legacyAddresses" :=
                   VArr [VStr "0x00000000000000000000000000000000000000aa"];
                 "transaction" := VObj {[ "blockNumber" := VNum 8775208 ]} ]}))
    as (_ & _ & Hlegacy & _ & block & Hblock & _ & Hhex);
    [vm_compute; reflexivity|discriminate|].
  split; [exact Hlegacy|].
  transitivity (Some (VStr block)); [exact Hblock|]. do 2 f_equal.
  apply (Hhex (VObj {[ "blockNumber" := VNum 8775208 ]}) 8775208);
    [vm_compute; reflexivity|reflexivity|vm_compute; reflexivity|].
  split; [lia|reflexivity].
Defined.

(** The rendering of [example_record]: the block of the receipt in hex,
    the sentinel without one, no legacy address. *)
Example getNetworkConfig_example :
  let view := getNetworkConfig defaultOptions 4 (fun _ => None) example_files in
  (view ≫= fun v => at_path v ["networks"; "4"; "contracts"; "UNSRegistry"; "deploymentBlock"])
    = Some (VStr "0x85e628") /\
  (view ≫= fun v => at_path v ["networks"; "4"; "contracts"; "MintingManager"; "deploymentBlock"])
    = Some (VStr "0x0") /\
  (view ≫= fun v => at_path v ["networks"; "4"; "contracts"; "UNSRegistry"; "legacyAddresses"])
    = Some (VArr []).
Proof. vm_compute. repeat split. Qed.

(** A contract recorded under the name [__proto__] is rendered as no
    property of the view: the other contracts are all there is. *)
Example getNetworkConfig_proto :
  getNetworkConfig defaultOptions 4 (fun _ => None)
    {[ configPath defaultOptions 4 :=
         FJson (VObj {[ "contracts" := VObj {[
           "__proto__" := VObj {[ "address" := VStr "0x01" ]};
           "A" := VObj {[ "address" := VStr "0x02" ]} ]} ]}) ]} =
  Some (network_view 4
          {[ "A" := VObj {[ "address" := VStr "0x02";
                            "implementation" := VUndefined;
                            "legacyAddresses" := VArr [];
                            "deploymentBlock" := VStr "0x0" ]} ]}).
Proof. vm_compute. reflexivity. Qed.

(** On an empty store: no contract, under the chain id. *)
Lemma getNetworkConfig_empty_store (other : value -> option string) (opts : options)
    (chainId : Z) :
  getNetworkConfig opts chainId other ∅ = Some (network_view chainId ∅).
Proof.
  rewrite (getNetworkConfig_view other opts chainId ∅ (VObj ∅)); [|reflexivity..].
  unfold recorded. cbn [field]. by rewrite lookup_empty, delete_empty, fmap_empty.
Qed.


(** ** The merge *)

Lemma at_path_undefined (path : list string) :
  path <> [] -> at_path VUndefined path = None.
Proof. by destruct path. Qed.

Lemma escapes_not_nil (source : value) (path : list string) :
  escapes source path = true -> path <> [].
Proof. by destruct path. Qed.

(** Below a property that [JSON.stringify] writes or leaves out. *)
Lemma at_path_kept (x : value) (path : list string) :
  path <> [] ->
  (match to_json x with VUndefined => None | y => Some y end ≫=
     fun u => at_path u path) = at_path (to_json x) path.
Proof.
  intros Hp. destruct (to_json x) eqn:Hx; try reflexivity.
  cbn [mbind option_bind]. by rewrite at_path_undefined.
Qed.

Lemma at_path_to_json_field (fields : gmap string value) (k : string)
    (path : list string) :
  at_path (to_json (VObj fields)) (k :: path) =
  fields !! k ≫= fun x =>
    match to_json x with VUndefined => None | y => Some y end ≫=
    fun u => at_path u path.
Proof.
  cbn [to_json at_path field]. rewrite lookup_omap.
  by destruct (fields !! k).
Qed.

Lemma at_path_json (v : value) (path : list string) :
  is_json v = true ->
  (match to_json v with VUndefined => None | y => Some y end ≫=
     fun u => at_path u path) = at_path v path.
Proof. intros Hj. rewrite (to_json_id v Hj). by destruct v. Qed.

(** The frame of the deep merge: what the written document holds at a
    path that leaves the source is what the destination held there. *)
Lemma mergeValue_frame (path : list string) :
  forall source objValue,
    escapes source path = true ->
    objValue = VUndefined \/ is_json objValue = true ->
    at_path (to_json (mergeValue objValue source)) path = at_path objValue path.
Proof.
  induction path as [|k path IH]; intros source objValue Hesc Hobj; [discriminate|].
  destruct source as [| |?|?|?|?|sfields|?]; try discriminate.
  cbn [escapes] in Hesc.
  set (skip := fun (k : string) (sv : value) => bool_decide (k = "__proto__") && isObject sv).
  (* what the merged object holds at [k], for a destination with [ofield] there *)
  assert (Hstep : forall (ofield : option value),
    (forall x, ofield = Some x -> is_json x = true) ->
    ((sfields !! k ≫= fun sv =>
        if skip k sv then None
        else Some (mergeValue (default VUndefined ofield) sv)) ∪ ofield) ≫=
      (fun x => match to_json x with VUndefined => None | y => Some y end ≫=
                fun u => at_path u path) =
    ofield ≫= fun x => at_path x path).
  { intros ofield Hjson.
    destruct (sfields !! k) as [sv|] eqn:Hsv; cbn [mbind option_bind].
    - destruct (skip k sv).
      + rewrite (left_id_L None (∪)). destruct ofield as [x|]; [|reflexivity].
        cbn [mbind option_bind]. apply at_path_json. by apply Hjson.
      + replace (Some (mergeValue (default VUndefined ofield) sv) ∪ ofield)
          with (Some (mergeValue (default VUndefined ofield) sv))
          by (by destruct ofield).
        cbn [mbind option_bind].
        rewrite at_path_kept by (by eapply escapes_not_nil).
        rewrite (IH sv _ Hesc).
        * destruct ofield as [x|]; [reflexivity|].
          cbn [default mbind option_bind].
          apply at_path_undefined. by eapply escapes_not_nil.
        * destruct ofield as [x|]; [right; by apply Hjson | by left].
    - rewrite (left_id_L None (∪)). destruct ofield as [x|]; [|reflexivity].
      cbn [mbind option_bind]. apply at_path_json. by apply Hjson. }
  destruct Hobj as [->|Hjson].
  - cbn [mergeValue]. rewrite at_path_to_json_field, map_lookup_imap.
    specialize (Hstep None ltac:(discriminate)).
    rewrite (right_id_L None (∪)) in Hstep. exact Hstep.
  - destruct objValue as [| |b|n|s|items|ofields|j]; try discriminate;
      cbn [mergeValue].
    1-4: rewrite at_path_to_json_field, map_lookup_imap;
         specialize (Hstep None ltac:(discriminate));
         rewrite (right_id_L None (∪)) in Hstep; exact Hstep.
    + by rewrite (to_json_id _ Hjson).
    + rewrite at_path_to_json_field, lookup_union, map_lookup_imap.
      cbn [at_path field]. apply Hstep.
      intros x Hx. by eapply is_json_field.
Qed.

Lemma to_json_merge_defined (config : value) (source : gmap string value) :
  is_json config = true -> to_json (merge config source) <> VUndefined.
Proof.
  intros Hj. destruct config; try discriminate; cbn [merge mergeValue to_json];
    try discriminate.
Qed.

Lemma merge_frame (config : value) (source : gmap string value) (path : list string) :
  is_json config = true ->
  escapes (VObj source) path = true ->
  at_path (to_json (merge config source)) path = at_path config path.
Proof.
  intros Hj Hesc.
  assert (Hgen : at_path (to_json (mergeValue config (VObj source))) path =
                 at_path config path) by (apply mergeValue_frame; auto).
  destruct config; try exact Hgen; cbn [merge]; by rewrite (to_json_id _ Hj).
Qed.

(** C9: [saveContractConfig] writes the deep merge of the record with
    the object literal for [name]; the document written holds, at every
    path into a contract entry other than [name], at every path into a
    property of the entry [name] other than address, implementation and
    transaction, and at every path outside [contracts], what the record
    held there. *)
Theorem saveContractConfig_frame (opts : options) (chainId : Z) (name : string)
    (c : contract) (implAddress : value) (files : gmap string file) (config : value) :
  getDeployConfig opts chainId files = Some config ->
  is_json config = true ->
  (truthy (deployTransaction c) = true -> is_Some (wait c)) ->
  exists transaction written,
    transaction =
      (if truthy (deployTransaction c) then default VUndefined (wait c)
       else deployTransaction c) /\
    written = to_json (merge config (contractSource name c implAddress transaction)) /\
    saveContractConfig opts chainId name c implAddress files =
      Some (<[configPath opts chainId := FJson written]> files) /\
    (forall other rest, other <> name ->
       at_path written ("contracts" :: other :: rest) =
       at_path config ("contracts" :: other :: rest)) /\
    (forall property rest,
       property ∉ ["address"; "implementation"; "transaction"] ->
       at_path written ("contracts" :: name :: property :: rest) =
       at_path config ("contracts" :: name :: property :: rest)) /\
    (forall key rest, key <> "contracts" ->
       at_path written (key :: rest) = at_path config (key :: rest)).
Proof.
  intros Hc Hj Hwait.
  eexists _, _. split; [reflexivity|]. split; [reflexivity|].
  split; [|split; [|split]].
  - unfold saveContractConfig. rewrite Hc. cbn [mbind option_bind].
    destruct (truthy (deployTransaction c)) eqn:Ht.
    + destruct (Hwait eq_refl) as [receipt ->]. cbn [mbind option_bind default].
      repeat change (id ?x) with x.
      pose proof (to_json_merge_defined config
                    (contractSource name c implAddress receipt) Hj) as Hd.
      by destruct (to_json (merge config (contractSource name c implAddress receipt))).
    + cbn [mbind option_bind].
      pose proof (to_json_merge_defined config
                    (contractSource name c implAddress (deployTransaction c)) Hj) as Hd.
      by destruct (to_json (merge config
                              (contractSource name c implAddress (deployTransaction c)))).
  - intros other rest Hne. apply merge_frame; [exact Hj|].
    unfold contractSource. cbn [escapes].
    rewrite lookup_singleton_eq, lookup_singleton_ne by congruence. reflexivity.
  - intros property rest Hp. apply merge_frame; [exact Hj|].
    unfold contractSource. cbn [escapes].
    rewrite !lookup_singleton_eq.
    rewrite !not_elem_of_cons in Hp. destruct Hp as (Ha & Hi & Ht & _).
    by simplify_map_eq.
  - intros key rest Hne. apply merge_frame; [exact Hj|].
    unfold contractSource. cbn [escapes].
    rewrite lookup_singleton_ne by congruence. reflexivity.
Qed.

Lemma saveContractConfig_frame_witness :
  getDeployConfig defaultOptions 4 example_files = Some example_record /\
  is_json example_record = true /\
  (truthy (deployTransaction example_contract) = true -> is_Some (wait example_contract)) /\
  exists written,
    saveContractConfig defaultOptions 4 "MintingManager" example_contract VUndefined
      example_files =
      Some (<[configPath defaultOptions 4 := FJson written]> example_files) /\
    at_path written ["contracts"; "UNSRegistry"] =
      at_path example_record ["contracts"; "UNSRegistry"].
Proof.
  assert (H1 : getDeployConfig defaultOptions 4 example_files = Some example_record)
    by (vm_compute; reflexivity).
  assert (H2 : is_json example_record = true) by (vm_compute; reflexivity).
  assert (H3 : truthy (deployTransaction example_contract) = true ->
               is_Some (wait example_contract)) by (intros _; cbn; eauto).
  split; [exact H1|]. split; [exact H2|]. split; [exact H3|].
  destruct (saveContractConfig_frame defaultOptions 4 "MintingManager" example_contract
              VUndefined example_files example_record H1 H2 H3)
    as (transaction & written & _ & _ & Hsave & Hother & _ & _).
  exists written. split; [exact Hsave|].
  apply (Hother "UNSRegistry" []). discriminate.
Defined.

(** What the write of [example_contract] as MintingManager leaves in the
    store: the new address and receipt (its BigNumber as JSON), the
    implementation left out, the other entry as it was. *)
Example saveContractConfig_example :
  let written :=
    saveContractConfig defaultOptions 4 "MintingManager" example_contract VUndefined
      example_files ≫= getDeployConfig defaultOptions 4 in
  (written ≫= fun v => at_path v ["contracts"; "MintingManager"; "address"]) =
    Some (VStr "0x1111111111111111111111111111111111111111") /\
  (written ≫= fun v => at_path v ["contracts"; "MintingManager"; "implementation"]) =
    None /\
  (written ≫= fun v =>
     at_path v ["contracts"; "MintingManager"; "transaction"; "gasUsed"; "hex"]) =
    Some (VStr "0x5208") /\
  (written ≫= fun v => at_path v ["contracts"; "UNSRegistry"; "legacyAddresses"]) =
    Some (VArr [VStr "0x00000000000000000000000000000000000000aa"]).
Proof. vm_compute. repeat split. Qed.

(** ** When the rendering throws *)

Lemma nullish_or_not (v : value) :
  v = VNull \/ v = VUndefined \/ (v <> VUndefined /\ v <> VNull).
Proof. destruct v; auto; right; right; split; discriminate. Qed.

Lemma networkEntry_None (other : value -> option string) (entry : value) :
  wf_entry other entry = false -> networkEntry other entry = None.
Proof.
  intros Hwf. destruct (nullish_or_not entry) as [->|[->|[Hu Hn]]]; [reflexivity..|].
  unfold networkEntry. rewrite !get_field by assumption. cbn [mbind option_bind].
  assert (Hwf' :
    match field entry "transaction" with
    | Some transaction =>
        negb (truthy transaction) ||
        match BigNumber_from_toHexString other
                (default VUndefined (field transaction "blockNumber")) with
        | Some _ => true
        | None => false
        end
    | None => true
    end = false) by (by destruct entry).
  destruct (field entry "transaction") as [t|]; [|discriminate].
  cbn [default]. repeat change (id ?x) with x.
  destruct (truthy t) eqn:Ht; [|discriminate]. cbn [negb orb] in Hwf'.
  rewrite get_field by (intros ->; discriminate). cbn [mbind option_bind].
  by destruct (BigNumber_from_toHexString other _).
Qed.

Lemma wf_entry_false (other : value -> option string) (entry : value) :
  wf_entry other entry = false <->
  entry = VNull \/ entry = VUndefined \/
  exists transaction,
    field entry "transaction" = Some transaction /\ truthy transaction = true /\
    BigNumber_from_toHexString other
      (default VUndefined (field transaction "blockNumber")) = None.
Proof.
  split.
  - intros Hwf.
    destruct (nullish_or_not entry) as [->|[->|[Hu Hn]]]; [by left|by right; left|].
    right. right.
    assert (Hwf' :
      match field entry "transaction" with
      | Some transaction =>
          negb (truthy transaction) ||
          match BigNumber_from_toHexString other
                  (default VUndefined (field transaction "blockNumber")) with
          | Some _ => true
          | None => false
          end
      | None => true
      end = false) by (by destruct entry).
    destruct (field entry "transaction") as [t|]; [|discriminate].
    exists t. split; [reflexivity|].
    destruct (truthy t); [|discriminate]. split; [reflexivity|].
    cbn [negb orb] in Hwf'. by destruct (BigNumber_from_toHexString other _).
  - intros [->|[->|(t & Ht & Htruthy & Hb)]]; [reflexivity..|].
    destruct entry; try discriminate; cbn [wf_entry]; rewrite Ht, Htruthy, Hb;
      reflexivity.
Qed.

Lemma networkContracts_threw (other : value -> option string)
    (entries : list (string * value)) (acc : option (gmap string value)) :
  (acc = None \/ exists kv, kv ∈ entries /\ networkEntry other kv.2 = None) ->
  foldl (fun acc kv =>
           contracts ← acc; entry ← networkEntry other kv.2;
           Some (if bool_decide (kv.1 = "__proto__") then contracts
                 else <[kv.1 := entry]> contracts))
        acc entries = None.
Proof.
  revert acc. induction entries as [|kv l IH]; intros acc H.
  - destruct H as [->|(kv & Hin & _)]; [reflexivity|]. by apply elem_of_nil in Hin.
  - cbn [foldl]. apply IH. destruct H as [->|(kv' & Hin & Hnone)]; [by left|].
    apply elem_of_cons in Hin as [->|Hin].
    + left. rewrite Hnone. by destruct acc.
    + right. by exists kv'.
Qed.

(** X10: for a record whose [contracts] is an object, [getNetworkConfig]
    throws exactly when one of the recorded entries (that named
    [__proto__] included) is [null], or has a transaction whose block number
    [BigNumber.from] refuses; a transaction that is an object without a
    [blockNumber], or with [null] there, is such a one. *)
Theorem getNetworkConfig_throws (other : value -> option string) (opts : options)
    (chainId : Z) (files : gmap string file) (config : value)
    (entries : gmap string value) :
  getDeployConfig opts chainId files = Some config ->
  field config "contracts" = Some (VObj entries) ->
  (getNetworkConfig opts chainId other files = None <->
   exists name entry, entries !! name = Some entry /\
     (entry = VNull \/ entry = VUndefined \/
      exists transaction,
        field entry "transaction" = Some transaction /\ truthy transaction = true /\
        BigNumber_from_toHexString other
          (default VUndefined (field transaction "blockNumber")) = None)) /\
  (forall name entry receipt,
     entries !! name = Some entry ->
     field entry "transaction" = Some (VObj receipt) ->
     receipt !! "blockNumber" = None \/ receipt !! "blockNumber" = Some VNull ->
     getNetworkConfig opts chainId other files = None).
Proof.
  intros Hc Hcontracts.
  assert (Hiff : getNetworkConfig opts chainId other files = None <->
            exists name entry, entries !! name = Some entry /\
                               wf_entry other entry = false).
  { destruct config as [| |?|?|?|?|fields|?]; try discriminate.
    cbn [field] in Hcontracts. split.
    - intros Hnone.
      destruct (decide (map_Forall (fun _ entry => wf_entry other entry = true) entries))
        as [Hall|Hnot].
      + rewrite (getNetworkConfig_view other opts chainId files (VObj fields)) in Hnone;
          [discriminate|exact Hc|].
        cbn [wf_record]. rewrite Hcontracts. by apply bool_decide_eq_true.
      + apply map_not_Forall in Hnot as (name & entry & Hentry & Hwf); [|apply _].
        exists name, entry. split; [exact Hentry|]. by destruct (wf_entry other entry).
    - intros (name & entry & Hentry & Hwf).
      unfold getNetworkConfig. rewrite Hc. cbn [mbind option_bind get].
      rewrite Hcontracts. cbn [default mbind option_bind truthy Object_entries].
      repeat change (id ?x) with x. cbn [truthy Object_entries].
      unfold networkContracts. rewrite networkContracts_threw; [reflexivity|].
      right. exists (name, entry). split; [by apply elem_of_map_to_list|].
      by apply networkEntry_None. }
  split.
  - rewrite Hiff. by setoid_rewrite wf_entry_false.
  - intros name entry receipt Hentry Htx Hblock. apply Hiff.
    exists name, entry. split; [exact Hentry|]. apply wf_entry_false.
    right. right. exists (VObj receipt). split; [exact Htx|]. split; [reflexivity|].
    cbn [field]. by destruct Hblock as [-> | ->].
Qed.

Lemma getNetworkConfig_throws_witness :
  getDeployConfig defaultOptions 4 example_pending_files = Some example_pending /\
  field example_pending "contracts" = Some (VObj example_pending_entries) /\
  getNetworkConfig defaultOptions 4 (fun _ => Some "0x00") example_pending_files = None.
Proof.
  assert (H1 : getDeployConfig defaultOptions 4 example_pending_files =
               Some example_pending) by (vm_compute; reflexivity).
  assert (H2 : field example_pending "contracts" = Some (VObj example_pending_entries))
    by reflexivity.
  split; [exact H1|]. split; [exact H2|].
  destruct (getNetworkConfig_throws (fun _ => Some "0x00") defaultOptions 4
              example_pending_files example_pending example_pending_entries H1 H2)
    as [_ Hthrows].
  apply (Hthrows "Resolver"
           (VObj {[ "address" := VStr "0x0000000000000000000000000000000000000001";
                    "transaction" := VObj {[ "hash" := VStr "0x02" ]} ]})
           {[ "hash" := VStr "0x02" ]}).
  - vm_compute. reflexivity.
  - vm_compute. reflexivity.
  - left. vm_compute. reflexivity.
Defined.

(** ** What is written can be read *)

(** What [JSON.stringify] writes is read back as it is by [JSON.parse]. *)
Lemma to_json_is_json (v : value) :
  to_json v = VUndefined \/ is_json (to_json v) = true.
Proof.
  induction v as [| |b|n|s|items IH|fields IH|j IH] using value_nested_ind;
    cbn [to_json is_json]; auto.
  - right. induction IH as [|x items Hx _ IHl]; [reflexivity|].
    cbn [map forallb]. rewrite IHl, andb_true_r.
    destruct Hx as [-> | Hx]; [reflexivity|]. by destruct (to_json x).
  - right. apply bool_decide_eq_true. intros k b. rewrite lookup_fmap, lookup_omap.
    destruct (fields !! k) as [x|] eqn:Hk; cbn; [|discriminate].
    destruct (IH k x Hk) as [Hu | Hj].
    + by rewrite Hu.
    + destruct (to_json x); cbn; try discriminate; by intros [= <-].
Qed.

Lemma length_append (s1 s2 : string) :
  String.length (s1 +:+ s2) = (String.length s1 + String.length s2)%nat.
Proof. induction s1 as [|c s1 IH]; simpl; [reflexivity|]. by f_equal. Qed.

Lemma append_inj_r (s1 s2 x : string) : s1 +:+ x = s2 +:+ x -> s1 = s2.
Proof.
  revert s2. induction s1 as [|c s1 IH]; intros [|c' s2] H; simpl in H.
  - reflexivity.
  - apply (f_equal String.length) in H. rewrite !length_append in H. simpl in H. lia.
  - apply (f_equal String.length) in H. rewrite !length_append in H. simpl in H. lia.
  - injection H as -> H. f_equal. by apply IH.
Qed.

(** Each network has a file of its own. *)
Lemma configPath_inj (opts : options) (chainId chainId' : Z) :
  configPath opts chainId = configPath opts chainId' -> chainId = chainId'.
Proof.
  unfold configPath. intros H.
  apply (inj (String.app _)) in H. apply (inj (String.app _)) in H.
  apply append_inj_r in H. by apply (inj pretty) in H.
Qed.

(** X11: when [saveContractConfig] returns, the file of the network
    holds a document that [getDeployConfig] reads back as it was written,
    no other file of the store is touched, and for every other network
    the record and its rendering are what they were. *)
Theorem saveContractConfig_then_read (other : value -> option string) (opts : options)
    (chainId : Z) (name : string) (c : contract) (implAddress : value)
    (files files' : gmap string file) :
  saveContractConfig opts chainId name c implAddress files = Some files' ->
  exists written,
    files' !! configPath opts chainId = Some (FJson written) /\
    getDeployConfig opts chainId files' = Some written /\
    is_json written = true /\
    to_json written = written /\
    (forall path, path <> configPath opts chainId -> files' !! path = files !! path) /\
    (forall chainId', chainId' <> chainId ->
       getDeployConfig opts chainId' files' = getDeployConfig opts chainId' files /\
       getNetworkConfig opts chainId' other files' =
       getNetworkConfig opts chainId' other files).
Proof.
  unfold saveContractConfig. intros Hsave.
  destruct (getDeployConfig opts chainId files) as [config|];
    cbn [mbind option_bind] in Hsave; [|discriminate].
  destruct (if truthy (deployTransaction c) then wait c else Some (deployTransaction c))
    as [transaction|]; cbn [mbind option_bind] in Hsave; [|discriminate].
  set (written := to_json (merge config (contractSource name c implAddress transaction)))
    in Hsave.
  assert (Hfiles : files' = <[configPath opts chainId := FJson written]> files /\
                   written <> VUndefined).
  { destruct written; try discriminate; by injection Hsave as <-. }
  destruct Hfiles as [-> Hdefined]. clear Hsave.
  assert (Hjson : is_json written = true).
  { destruct (to_json_is_json
                (merge config (contractSource name c implAddress transaction)))
      as [Hu|Hj]; [contradiction|exact Hj]. }
  exists written. split; [apply lookup_insert_eq|]. split.
  { unfold getDeployConfig. by rewrite lookup_insert_eq. }
  split; [exact Hjson|]. split; [by apply to_json_id|]. split.
  { intros path Hpath. by rewrite lookup_insert_ne. }
  intros chainId' Hne.
  assert (Hread : getDeployConfig opts chainId'
                    (<[configPath opts chainId := FJson written]> files) =
                  getDeployConfig opts chainId' files).
  { unfold getDeployConfig. rewrite lookup_insert_ne; [reflexivity|].
    intros Heq. by apply configPath_inj in Heq. }
  split; [exact Hread|]. unfold getNetworkConfig. by rewrite Hread.
Qed.

Lemma saveContractConfig_then_read_witness :
  exists files',
    saveContractConfig defaultOptions 4 "MintingManager" example_contract VUndefined
      example_files = Some files' /\
    getDeployConfig defaultOptions 1 files' = getDeployConfig defaultOptions 1 example_files /\
    exists written,
      getDeployConfig defaultOptions 4 files' = Some written /\ is_json written = true.
Proof.
  destruct (saveContractConfig defaultOptions 4 "MintingManager" example_contract
              VUndefined example_files) as [files'|] eqn:Hsave;
    [|vm_compute in Hsave; discriminate Hsave].
  exists files'. split; [reflexivity|].
  destruct (saveContractConfig_then_read (fun _ => None) defaultOptions 4 "MintingManager"
              example_contract VUndefined example_files files' Hsave)
    as (written & _ & Hread & Hjson & _ & _ & Hothers).
  split; [apply (Hothers 1); discriminate|].
  exists written. by split.
Defined.

(** ** What is saved is rendered *)

Lemma mergeValue_singleton (ofields : gmap string value) (k : string) (sv : value) :
  k <> "__proto__" ->
  mergeValue (VObj ofields) (VObj {[ k := sv ]}) =
  VObj (<[k := mergeValue (default VUndefined (ofields !! k)) sv]> ofields).
Proof.
  intros Hk. cbn [mergeValue]. f_equal. apply map_eq. intros j.
  rewrite lookup_union, map_lookup_imap.
  destruct (decide (j = k)) as [->|Hj].
  - rewrite lookup_singleton_eq, lookup_insert_eq. cbn [mbind option_bind].
    rewrite bool_decide_eq_false_2 by assumption. cbn [andb].
    by destruct (ofields !! k).
  - rewrite lookup_singleton_ne, lookup_insert_ne by congruence.
    cbn [mbind option_bind]. by destruct (ofields !! j).
Qed.

Lemma mergeValue_undefined_singleton (k : string) (sv : value) :
  k <> "__proto__" ->
  mergeValue VUndefined (VObj {[ k := sv ]}) = VObj {[ k := mergeValue VUndefined sv ]}.
Proof.
  intros Hk. cbn [mergeValue]. f_equal. apply map_eq. intros j.
  rewrite map_lookup_imap.
  destruct (decide (j = k)) as [->|Hj].
  - rewrite !lookup_singleton_eq. cbn [mbind option_bind].
    by rewrite bool_decide_eq_false_2 by assumption.
  - by rewrite !lookup_singleton_ne by congruence.
Qed.

Lemma to_json_fields_id (fields : gmap string value) :
  is_json (VObj fields) = true ->
  omap (fun x => match to_json x with VUndefined => None | y => Some y end) fields = fields.
Proof. intros Hj. apply to_json_id in Hj. cbn [to_json] in Hj. congruence. Qed.

Lemma to_json_insert (fields : gmap string value) (k : string) (y : value) :
  is_json (VObj fields) = true -> to_json y <> VUndefined ->
  to_json (VObj (<[k := y]> fields)) = VObj (<[k := to_json y]> fields).
Proof.
  intros Hj Hy. cbn [to_json]. f_equal. rewrite omap_insert, to_json_fields_id by exact Hj.
  by destruct (to_json y).
Qed.

(** A property of the JSON of an object merged into what was an object
    or nothing. *)
Lemma field_to_json_merge (old : value) (sfields : gmap string value) (k : string)
    (sv : value) :
  old = VUndefined \/ (exists ofields, old = VObj ofields) ->
  sfields !! k = Some sv -> k <> "__proto__" ->
  field (to_json (mergeValue old (VObj sfields))) k =
  match to_json (mergeValue (default VUndefined (field old k)) sv) with
  | VUndefined => None
  | y => Some y
  end.
Proof.
  intros [->|[ofields ->]] Hk Hproto; cbn [mergeValue to_json field].
  - rewrite lookup_omap, map_lookup_imap, Hk. cbn [mbind option_bind].
    rewrite bool_decide_eq_false_2 by assumption. reflexivity.
  - rewrite lookup_omap, lookup_union, map_lookup_imap, Hk. cbn [mbind option_bind].
    rewrite bool_decide_eq_false_2 by assumption. cbn [andb].
    by destruct (ofields !! k).
Qed.

Lemma mergeValue_object (old : value) (sfields : gmap string value) :
  old = VUndefined \/ (exists ofields, old = VObj ofields) ->
  exists fields, to_json (mergeValue old (VObj sfields)) = VObj fields.
Proof. intros [->|[ofields ->]]; cbn [mergeValue to_json]; eauto. Qed.

(** The document [saveContractConfig] writes into a record that is an
    object, for a name that has no entry yet or an entry that is an
    object: the record with the entry [name] replaced by the merge of the
    old entry and the three properties of the literal. *)
Lemma merge_contractSource (fields entries : gmap string value) (name : string)
    (c : contract) (implAddress transaction old : value) :
  is_json (VObj fields) = true ->
  fields !! "contracts" = None /\ entries = ∅ \/
    fields !! "contracts" = Some (VObj entries) ->
  name <> "__proto__" ->
  old = default VUndefined (entries !! name) ->
  old = VUndefined \/ (exists ofields, old = VObj ofields) ->
  to_json (merge (VObj fields) (contractSource name c implAddress transaction)) =
  VObj (<["contracts" :=
            VObj (<[name :=
                      to_json (mergeValue old
                                 (VObj {[ "address" := address c;
                                          "implementation" := implAddress;
                                          "transaction" := transaction ]}))]> entries)]>
          fields).
Proof.
  intros Hjson Hentries Hname Hold_def Hold'.
  set (lit := VObj {[ "address" := address c; "implementation" := implAddress;
                      "transaction" := transaction ]}).
  destruct (mergeValue_object old {[ "address" := address c;
                                     "implementation" := implAddress;
                                     "transaction" := transaction ]} Hold')
    as [efields He'].
  change (to_json (mergeValue old lit) = VObj efields) in He'.
  assert (Hentries_json : is_json (VObj entries) = true).
  { destruct Hentries as [[_ ->]|Hcontracts]; [reflexivity|].
    by eapply is_json_field. }
  unfold merge, contractSource. fold lit. rewrite mergeValue_singleton by discriminate.
  assert (Hinner :
    to_json (mergeValue (default VUndefined (fields !! "contracts"))
               (VObj {[ name := lit ]})) =
    VObj (<[name := to_json (mergeValue old lit)]> entries)).
  { destruct Hentries as [[Hnone Hempty]|Hcontracts].
    - assert (Hold_u : old = VUndefined).
      { by rewrite Hold_def, Hempty, lookup_empty. }
      rewrite Hnone, Hempty. cbn [default].
      rewrite mergeValue_undefined_singleton by assumption.
      rewrite <- insert_empty. rewrite to_json_insert; [|reflexivity|].
      + by rewrite Hold_u.
      + rewrite Hold_u in He'. by rewrite He'.
    - rewrite Hcontracts. cbn [default]. repeat change (id ?x) with x.
      rewrite mergeValue_singleton by assumption. rewrite <- Hold_def.
      rewrite to_json_insert; [reflexivity|exact Hentries_json|]. by rewrite He'. }
  rewrite to_json_insert; [by rewrite Hinner|exact Hjson|]. by rewrite Hinner.
Qed.

Lemma at_path_rendered (other : value -> option string) (entry : value) :
  at_path (rendered other entry) ["address"] =
    Some (default VUndefined (field entry "address")) /\
  at_path (rendered other entry) ["deploymentBlock"] =
    Some (VStr (deploymentBlock other entry)) /\
  at_path (rendered other entry) ["legacyAddresses"] = Some (VArr []).
Proof.
  unfold rendered. cbn [at_path field mbind option_bind]. repeat split; by simplify_map_eq.
Qed.

(** X12: saving a contract deployed in block [n], under a name other
    than [__proto__] that has no entry yet or an entry that is an object
    (its transaction, if any, an object too), into a record that can be
    rendered, leaves a record that can be rendered: the rendering then shows
    the contract with its new address and with the hex of [n] as its
    deployment block, and every other contract as before. *)
Theorem saved_contract_is_rendered (other : value -> option string) (opts : options)
    (chainId : Z) (name : string) (c : contract) (implAddress : value)
    (files : gmap string file) (config : value) (a : string)
    (receipt : gmap string value) (n : Z) :
  getDeployConfig opts chainId files = Some config ->
  is_json config = true ->
  wf_record other config = true ->
  name <> "__proto__" ->
  (forall entry, recorded config !! name = Some entry ->
     exists ofields, entry = VObj ofields /\
       (ofields !! "transaction" = None \/
        exists otx, ofields !! "transaction" = Some (VObj otx))) ->
  address c = VStr a ->
  truthy (deployTransaction c) = true ->
  wait c = Some (VObj receipt) ->
  receipt !! "blockNumber" = Some (VNum n) ->
  0 <= n < MAX_SAFE ->
  exists files' before after,
    saveContractConfig opts chainId name c implAddress files = Some files' /\
    getNetworkConfig opts chainId other files = Some before /\
    getNetworkConfig opts chainId other files' = Some after /\
    at_path after ["networks"; pretty chainId; "contracts"; name; "address"] =
      Some (VStr a) /\
    at_path after ["networks"; pretty chainId; "contracts"; name; "deploymentBlock"] =
      Some (VStr (toHex n)) /\
    at_path after ["networks"; pretty chainId; "contracts"; name; "legacyAddresses"] =
      Some (VArr []) /\
    (forall name' path, name' <> name ->
       at_path after ("networks" :: pretty chainId :: "contracts" :: name' :: path) =
       at_path before ("networks" :: pretty chainId :: "contracts" :: name' :: path)).
Proof.
  intros Hc Hjson Hwf Hname Hold Haddress Hdeployed Hwait Hblock Hrange.
  destruct config as [| |?|?|?|?|fields|?]; try discriminate.
  remember (recorded (VObj fields)) as entries eqn:Hrec.
  set (lit := VObj {[ "address" := address c; "implementation" := implAddress;
                      "transaction" := VObj receipt ]}).
  remember (default VUndefined (entries !! name)) as old eqn:Hold_def.
  remember (to_json (mergeValue old lit)) as e' eqn:He'_def.
  (* the shape of the record *)
  assert (Hentries : fields !! "contracts" = None /\ entries = ∅ \/
                     fields !! "contracts" = Some (VObj entries)).
  { rewrite Hrec. unfold recorded. cbn [field wf_record] in *.
    destruct (fields !! "contracts") as [[| |?|?|?|?|m|?]|]; try discriminate; auto. }
  assert (Hentries_json : is_json (VObj entries) = true).
  { destruct Hentries as [[_ ->]|Hcontracts]; [reflexivity|].
    by eapply is_json_field. }
  assert (Hentries_wf : map_Forall (fun _ entry => wf_entry other entry = true) entries).
  { destruct Hentries as [[_ ->]|Hcontracts]; [apply map_Forall_empty|].
    cbn [wf_record] in Hwf. rewrite Hcontracts in Hwf. by apply bool_decide_eq_true in Hwf. }
  (* the old entry *)
  assert (Hold' : old = VUndefined \/ exists ofields, old = VObj ofields).
  { rewrite Hold_def. destruct (entries !! name) as [entry|] eqn:Hentry; [|by left].
    destruct (Hold entry eq_refl) as (ofields & -> & _). right. by exists ofields. }
  assert (Holdtx : default VUndefined (field old "transaction") = VUndefined \/
                   exists otx, default VUndefined (field old "transaction") = VObj otx).
  { rewrite Hold_def. destruct (entries !! name) as [entry|] eqn:Hentry; [|by left].
    destruct (Hold entry eq_refl) as (ofields & -> & [Htx|[otx Htx]]);
      cbn [default field]; repeat change (id ?x) with x; cbn [field]; rewrite Htx.
    - by left.
    - right. by exists otx. }
  (* the new entry *)
  destruct (mergeValue_object old {[ "address" := address c; "implementation" := implAddress;
                                     "transaction" := VObj receipt ]} Hold')
    as [efields He'].
  change (to_json (mergeValue old lit) = VObj efields) in He'. rewrite <- He'_def in He'.
  assert (Haddr : field e' "address" = Some (VStr a)).
  { rewrite He'_def. unfold lit.
    rewrite (field_to_json_merge old _ "address" (address c) Hold');
      [|by simplify_map_eq|discriminate].
    rewrite Haddress. by destruct (default VUndefined (field old "address")). }
  destruct (mergeValue_object (default VUndefined (field old "transaction")) receipt Holdtx)
    as [txfields Htx'].
  assert (Htx : field e' "transaction" = Some (VObj txfields)).
  { rewrite He'_def. unfold lit.
    rewrite (field_to_json_merge old _ "transaction" (VObj receipt) Hold');
      [|by simplify_map_eq|discriminate].
    by rewrite Htx'. }
  assert (Hbn : field (VObj txfields) "blockNumber" = Some (VNum n)).
  { rewrite <- Htx'.
    rewrite (field_to_json_merge _ receipt "blockNumber" (VNum n) Holdtx Hblock);
      [|discriminate].
    by destruct (default VUndefined (field (default VUndefined (field old "transaction"))
                                       "blockNumber")). }
  assert (He'wf : wf_entry other e' = true).
  { rewrite He' in *. cbn [wf_entry]. rewrite Htx. cbn [truthy negb orb].
    rewrite Hbn. cbn [default]. repeat change (id ?x) with x.
    cbn [BigNumber_from_toHexString]. by rewrite toHex_in_range. }
  assert (Hblock' : deploymentBlock other e' = toHex n).
  { unfold deploymentBlock. rewrite Htx. cbn [truthy]. rewrite Hbn.
    cbn [default]. repeat change (id ?x) with x.
    cbn [BigNumber_from_toHexString]. by rewrite toHex_in_range. }
  (* what is written *)
  set (written := VObj (<["contracts" := VObj (<[name := e']> entries)]> fields)).
  assert (Hwritten :
    to_json (merge (VObj fields)
               (contractSource name c implAddress (VObj receipt))) = written).
  { unfold written. rewrite He'_def.
    by apply (merge_contractSource fields entries name c implAddress (VObj receipt) old). }
  assert (Hsave : saveContractConfig opts chainId name c implAddress files =
                  Some (<[configPath opts chainId := FJson written]> files)).
  { unfold saveContractConfig. rewrite Hc. cbn [mbind option_bind].
    rewrite Hdeployed, Hwait. cbn [mbind option_bind]. by rewrite Hwritten. }
  assert (Hwritten_wf : wf_record other written = true).
  { unfold written. cbn [wf_record]. rewrite lookup_insert_eq.
    apply bool_decide_eq_true. by apply map_Forall_insert_2. }
  assert (Hrecorded : recorded written = <[name := e']> entries).
  { unfold written, recorded. cbn [field]. by rewrite lookup_insert_eq. }
  eexists _, _, _. split; [exact Hsave|]. split.
  { by apply getNetworkConfig_view. }
  split.
  { apply (getNetworkConfig_view other opts chainId _ written); [|exact Hwritten_wf].
    unfold getDeployConfig. by rewrite lookup_insert_eq. }
  rewrite !at_path_network_view, Hrecorded, lookup_fmap.
  rewrite lookup_delete_ne, lookup_insert_eq by congruence.
  cbn [fmap option_fmap option_map mbind option_bind].
  destruct (at_path_rendered other e') as (Ha & Hb & Hl).
  rewrite Ha, Hb, Hl, Haddr, Hblock'.
  split; [reflexivity|]. split; [reflexivity|]. split; [reflexivity|].
  intros name' path Hne. rewrite !at_path_network_view, !lookup_fmap.
  destruct (decide (name' = "__proto__")) as [->|Hproto].
  - by rewrite !lookup_delete_eq.
  - assert (Hproto' : "__proto__" <> name') by (intros Heq; by apply Hproto).
    assert (Hne' : name <> name') by (intros Heq; by apply Hne).
    rewrite !lookup_delete_ne by exact Hproto'.
    rewrite lookup_insert_ne by exact Hne'. by rewrite <- Hrec.
Qed.

Lemma saved_contract_is_rendered_witness :
  getDeployConfig defaultOptions 4 example_files = Some example_record /\
  wf_record (fun _ => None) example_record = true /\
  exists files' before after,
    saveContractConfig defaultOptions 4 "MintingManager" example_contract VUndefined
      example_files = Some files' /\
    getNetworkConfig defaultOptions 4 (fun _ => None) example_files = Some before /\
    getNetworkConfig defaultOptions 4 (fun _ => None) files' = Some after /\
    at_path after ["networks"; "4"; "contracts"; "MintingManager"; "deploymentBlock"] =
      Some (VStr (toHex 8790000)) /\
    at_path after ["networks"; "4"; "contracts"; "UNSRegistry"; "deploymentBlock"] =
      at_path before ["networks"; "4"; "contracts"; "UNSRegistry"; "deploymentBlock"].
Proof.
  assert (H1 : getDeployConfig defaultOptions 4 example_files = Some example_record)
    by (vm_compute; reflexivity).
  assert (H2 : wf_record (fun _ => None) example_record = true)
    by (vm_compute; reflexivity).
  split; [exact H1|]. split; [exact H2|].
  destruct (saved_contract_is_rendered (fun _ => None) defaultOptions 4 "MintingManager"
              example_contract VUndefined example_files example_record
              "0x1111111111111111111111111111111111111111"
              {[ "blockNumber" := VNum 8790000;
                 "gasUsed" := VInst (VObj {[ "type" := VStr "BigNumber";
                                             "hex" := VStr "0x5208" ]}) ]}
              8790000 H1)
    as (files' & before & after & Hsave & Hbefore & Hafter & _ & Hblock & _ & Hothers).
  - vm_compute. reflexivity.
  - exact H2.
  - discriminate.
  - intros entry Hentry. vm_compute in Hentry. injection Hentry as <-.
    eexists. split; [reflexivity|]. left. vm_compute. reflexivity.
  - reflexivity.
  - reflexivity.
  - reflexivity.
  - vm_compute. reflexivity.
  - split; [lia|reflexivity].
  - exists files', before, after. split; [exact Hsave|]. split; [exact Hbefore|].
    split; [exact Hafter|]. split; [exact Hblock|].
    apply (Hothers "UNSRegistry" ["deploymentBlock"]). discriminate.
Defined.

(** ** Saving again *)

(** X13: saving a contract again with no deployment transaction and no
    implementation address (an upgrade of the record: the address alone is
    given) overwrites the address of its entry and nothing else: the
    transaction and the implementation recorded before stay, as does every
    other property of the entry and every other entry.  The receipt is not
    waited for. *)
Theorem resave_keeps_what_is_not_given (opts : options) (chainId : Z) (name : string)
    (c : contract) (files : gmap string file) (config : value)
    (ofields : gmap string value) (a : string) :
  getDeployConfig opts chainId files = Some config ->
  is_json config = true ->
  name <> "__proto__" ->
  recorded config !! name = Some (VObj ofields) ->
  address c = VStr a ->
  deployTransaction c = VUndefined ->
  exists written,
    saveContractConfig opts chainId name c VUndefined files =
      Some (<[configPath opts chainId := FJson written]> files) /\
    at_path written ["contracts"; name; "address"] = Some (VStr a) /\
    (forall property rest, property <> "address" ->
       at_path written ("contracts" :: name :: property :: rest) =
       at_path config ("contracts" :: name :: property :: rest)) /\
    (forall name' rest, name' <> name ->
       at_path written ("contracts" :: name' :: rest) =
       at_path config ("contracts" :: name' :: rest)).
Proof.
  intros Hc Hjson Hname Hentry Haddress Hdeployed.
  destruct config as [| |?|?|?|?|fields|?]; try discriminate.
  remember (recorded (VObj fields)) as entries eqn:Hrec.
  assert (Hcontracts : fields !! "contracts" = Some (VObj entries)).
  { rewrite Hrec in *. unfold recorded in *. cbn [field] in *.
    destruct (fields !! "contracts") as [[| |?|?|?|?|m|?]|];
      try (by rewrite lookup_empty in Hentry). reflexivity. }
  assert (Hentries_json : is_json (VObj entries) = true) by (by eapply is_json_field).
  assert (Hold_json : is_json (VObj ofields) = true) by (by eapply is_json_field).
  set (lit := VObj {[ "address" := address c; "implementation" := VUndefined;
                      "transaction" := VUndefined ]}).
  remember (to_json (mergeValue (VObj ofields) lit)) as e' eqn:He'_def.
  assert (Hwritten :
    to_json (merge (VObj fields) (contractSource name c VUndefined VUndefined)) =
    VObj (<["contracts" := VObj (<[name := e']> entries)]> fields)).
  { rewrite He'_def.
    apply (merge_contractSource fields entries name c VUndefined VUndefined (VObj ofields));
      [exact Hjson|by right|exact Hname|by rewrite Hentry|right; by exists ofields]. }
  assert (Hfield : forall property,
            field e' property =
            if bool_decide (property = "address") then Some (VStr a)
            else ofields !! property).
  { intros property. rewrite He'_def. unfold lit. cbn [mergeValue to_json field].
    rewrite lookup_omap, lookup_union, map_lookup_imap.
    assert (Hkept : forall x, ofields !! property = Some x ->
              match to_json x with VUndefined => None | y => Some y end = Some x).
    { intros x Hx. rewrite (to_json_id x) by (by eapply is_json_field).
      pose proof (is_json_field _ _ _ Hold_json Hx) as Hjx. by destruct x. }
    destruct (decide (property = "address")) as [->|Hp].
    - rewrite (bool_decide_eq_true_2 ("address" = "address")) by reflexivity.
      rewrite (bool_decide_eq_false_2 ("address" = "__proto__")) by discriminate.
      rewrite lookup_insert_eq. cbn [mbind option_bind andb].
      rewrite Haddress. cbn [mergeValue].
      by destruct (ofields !! "address").
    - rewrite (bool_decide_eq_false_2 (property = "address")) by assumption.
      destruct (decide (property = "implementation")) as [->|Hi];
        [|destruct (decide (property = "transaction")) as [->|Ht]].
      + rewrite (bool_decide_eq_false_2 ("implementation" = "__proto__")) by discriminate.
        rewrite lookup_insert_ne, lookup_insert_eq by discriminate.
        cbn [mbind option_bind andb isObject mergeValue].
        destruct (ofields !! "implementation") as [x|] eqn:Hx; cbn; [|reflexivity].
        by apply Hkept.
      + rewrite (bool_decide_eq_false_2 ("transaction" = "__proto__")) by discriminate.
        rewrite !lookup_insert_ne, lookup_singleton_eq by discriminate.
        cbn [mbind option_bind andb isObject mergeValue].
        destruct (ofields !! "transaction") as [x|] eqn:Hx; cbn; [|reflexivity].
        by apply Hkept.
      + rewrite !lookup_insert_ne, lookup_singleton_ne by congruence.
        cbn [mbind option_bind].
        destruct (ofields !! property) as [x|] eqn:Hx; cbn; [|reflexivity].
        by apply Hkept. }
  eexists. split; [|split; [|split]].
  - unfold saveContractConfig. rewrite Hc. cbn [mbind option_bind].
    rewrite Hdeployed. cbn [truthy mbind option_bind]. by rewrite Hwritten.
  - cbn [at_path field mbind option_bind]. rewrite lookup_insert_eq.
    cbn [mbind option_bind field]. rewrite lookup_insert_eq. cbn [mbind option_bind].
    rewrite Hfield. by rewrite bool_decide_eq_true_2.
  - intros property rest Hp. cbn [at_path field mbind option_bind].
    rewrite lookup_insert_eq, Hcontracts. cbn [mbind option_bind field].
    rewrite lookup_insert_eq, Hentry. cbn [mbind option_bind].
    rewrite Hfield. by rewrite bool_decide_eq_false_2.
  - intros name' rest Hne. cbn [at_path field mbind option_bind].
    rewrite lookup_insert_eq, Hcontracts. cbn [mbind option_bind field].
    by rewrite lookup_insert_ne by congruence.
Qed.

Lemma resave_keeps_what_is_not_given_witness :
  getDeployConfig defaultOptions 4 example_files = Some example_record /\
  exists written,
    saveContractConfig defaultOptions 4 "UNSRegistry"
      {| address := VStr "0x2222222222222222222222222222222222222222";
         deployTransaction := VUndefined; wait := None |} VUndefined example_files =
      Some (<[configPath defaultOptions 4 := FJson written]> example_files) /\
    at_path written ["contracts"; "UNSRegistry"; "address"] =
      Some (VStr "0x2222222222222222222222222222222222222222") /\
    at_path written ["contracts"; "UNSRegistry"; "transaction"; "blockNumber"] =
      at_path example_record ["contracts"; "UNSRegistry"; "transaction"; "blockNumber"].
Proof.
  assert (H1 : getDeployConfig defaultOptions 4 example_files = Some example_record)
    by (vm_compute; reflexivity).
  split; [exact H1|].
  destruct (resave_keeps_what_is_not_given defaultOptions 4 "UNSRegistry"
              {| address := VStr "0x2222222222222222222222222222222222222222";
                 deployTransaction := VUndefined; wait := None |}
              example_files example_record
              {[ "address" := VStr "0x7fb83000B8eD59D3eAD22f0D584Df3a85fBC0086";
                 "legacyAddresses" :=
                   VArr [VStr "0x00000000000000000000000000000000000000aa"];
                 "transaction" := VObj {[ "blockNumber" := VNum 8775208 ]} ]}
              "0x2222222222222222222222222222222222222222" H1)
    as (written & Hsave & Haddr & Hkept & _).
  - vm_compute. reflexivity.
  - discriminate.
  - vm_compute. reflexivity.
  - reflexivity.
  - reflexivity.
  - exists written. split; [exact Hsave|]. split; [exact Haddr|].
    apply (Hkept "transaction" ["blockNumber"]). discriminate.
Defined.

End StoreFacts.
